(** * A template engine compiled to Python source: model and properties

    The engine of [lib/template_engine.py] turns a template into the text of
    a Python function, hands that text to [exec], and calls the resulting
    function on a context.  This development embeds

    - the string primitives the engine uses ([strip], [split], slices, [repr]),
    - the tokenizer (a [re.split] on the three tag shapes),
    - the [CodeBuilder] and the compile loop of [Template.__init__],
    - the part of the Python host the generated code relies on
      (block structure by indentation, locals, [for]/[if], calls),
    - [Template.render] over a heap of dictionaries, and [_do_dots],

    and states the properties of the engine over it. *)

From Stdlib Require Import ZArith Lia Ascii String DecimalString.
From stdpp Require Import base option list gmap sets strings.

Set Warnings "-register-all,-clear-no-such-hyp".

Local Open Scope Z_scope.

(** ** Exceptions and outcomes *)

(** The exception classes that the engine raises, catches or lets through,
    each the most specific class that the model tells apart.
    [OtherException] stands for the other classes that derive from
    [Exception], [SystemExit] for those that derive from [BaseException]
    without deriving from [Exception]. *)
Inductive exc_class : Set :=
  | TypeError | AttributeError | KeyError | ValueError | IndexError
  | UnboundLocalError | SyntaxError | IndentationError | AssertionError
  | TemplateSyntaxError
  | OtherException
  | SystemExit.

#[global] Instance exc_class_eq_dec : EqDecision exc_class.
Proof. solve_decision. Defined.

(** An exception object: its class and its argument (the message, or the
    key of a [KeyError]). *)
Record exn : Set := Exn { exc_type : exc_class; exc_arg : string }.

(** The result of running a piece of the engine: a value, a raised
    exception, or [Unmodelled] when the run leaves the fragment of the host
    language that this development describes. *)
Inductive outcome (A : Type) : Type :=
  | Ok (a : A)
  | Raise (e : exn)
  | Unmodelled.
Arguments Ok {A} a.
Arguments Raise {A} e.
Arguments Unmodelled {A}.

#[global] Instance outcome_ret : MRet outcome := fun A a => Ok a.
#[global] Instance outcome_bind : MBind outcome := fun A B f m =>
  match m with
  | Ok a => f a
  | Raise e => Raise e
  | Unmodelled => Unmodelled
  end.

(** Modelled from the spec: the class [TemplateSyntaxError], which the
    engine imports from a module [exceptions] that is not among the
    sources.  It is an exception class of its own, raised with a message. *)
Definition template_syntax_error (message : string) : exn :=
  Exn TemplateSyntaxError message.

(** [except Exception]: every class of the model but [SystemExit]. *)
Definition is_Exception (e : exn) : bool :=
  match exc_type e with
  | SystemExit => false
  | _ => true
  end.

(** [except (TypeError, AttributeError, KeyError, ValueError, IndexError)],
    the inner handler of [_do_dots]. *)
Definition is_lookup_failure (e : exn) : bool :=
  match exc_type e with
  | TypeError | AttributeError | KeyError | ValueError | IndexError => true
  | _ => false
  end.

(** ** Python string primitives *)

Module PyStr.

(** [s.startswith(p)] *)
Fixpoint startswith (s p : string) {struct p} : bool :=
  match p with
  | EmptyString => true
  | String a p' =>
      match s with
      | String b s' => Ascii.eqb a b && startswith s' p'
      | EmptyString => false
      end
  end.

(** [c in s] for a one-character [c] *)
Fixpoint contains_char (c : ascii) (s : string) : bool :=
  match s with
  | EmptyString => false
  | String a r => if Ascii.eqb a c then true else contains_char c r
  end.

(** [p in s]: [p] occurs in [s] *)
Fixpoint contains (p s : string) : bool :=
  if startswith s p then true
  else match s with
       | EmptyString => false
       | String _ r => contains p r
       end.

(** [s[n:]] *)
Fixpoint drop (n : nat) (s : string) : string :=
  match n, s with
  | O, _ => s
  | S n', String _ r => drop n' r
  | S _, EmptyString => EmptyString
  end.

(** [s[:n]] for [n >= 0] *)
Fixpoint take (n : nat) (s : string) : string :=
  match n, s with
  | S n', String a r => String a (take n' r)
  | _, _ => EmptyString
  end.

(** [token[2:-2]]: without the first two and the last two characters;
    empty when fewer than five characters are there. *)
Definition inner (token : string) : string :=
  take (String.length token - 4) (drop 2 token).

(** [s.lstrip()], [s.rstrip()], [s.strip()] on whitespace *)
Fixpoint lstrip (s : string) : string :=
  match s with
  | String a r => if Ascii.is_space a then lstrip r else s
  | EmptyString => EmptyString
  end.

Fixpoint rstrip (s : string) : string :=
  match s with
  | EmptyString => EmptyString
  | String a r =>
      match rstrip r with
      | EmptyString => if Ascii.is_space a then EmptyString else String a EmptyString
      | r' => String a r'
      end
  end.

Definition strip (s : string) : string := rstrip (lstrip s).

(** [s.split()]: the maximal runs of non-whitespace characters *)
Definition split_ws (s : string) : list string := String.words s.

(** Put [a] in front of the first string of a list of pieces. *)
Definition cons_first (a : ascii) (l : list string) : list string :=
  match l with
  | [] => [String a EmptyString]
  | w :: ws => String a w :: ws
  end.

(** [s.split(sep)] for a one-character separator: empty pieces are kept *)
Fixpoint split_on (sep : ascii) (s : string) : list string :=
  match s with
  | EmptyString => [EmptyString]
  | String a r =>
      if Ascii.eqb a sep then EmptyString :: split_on sep r
      else cons_first a (split_on sep r)
  end.

(** [sep.join(l)] *)
Definition join (sep : string) (l : list string) : string :=
  String.concat sep l.

(** [" " * n] *)
Fixpoint spaces (n : nat) : string :=
  match n with
  | O => EmptyString
  | S n' => String " "%char (spaces n')
  end.

Definition hex_digit (n : N) : ascii :=
  match n with
  | 0%N => "0" | 1%N => "1" | 2%N => "2" | 3%N => "3" | 4%N => "4"
  | 5%N => "5" | 6%N => "6" | 7%N => "7" | 8%N => "8" | 9%N => "9"
  | 10%N => "a" | 11%N => "b" | 12%N => "c" | 13%N => "d" | 14%N => "e"
  | _ => "f"
  end%char.

(** One character of [repr(s)] inside quotes [q]. *)
Definition repr_char (q : ascii) (a : ascii) : string :=
  let n := N_of_ascii a in
  if Ascii.eqb a q || Ascii.eqb a "\"%char
  then String "\"%char (String a EmptyString)
  else if Ascii.eqb a "009"%char then "\t"
  else if Ascii.eqb a "010"%char then "\n"
  else if Ascii.eqb a "013"%char then "\r"
  else if (n <? 32)%N || (127 <=? n)%N
  then String "\"%char (String "x"%char
         (String (hex_digit (n / 16)) (String (hex_digit (n mod 16)) EmptyString)))
  else String a EmptyString.

Fixpoint repr_body (q : ascii) (s : string) : string :=
  match s with
  | EmptyString => EmptyString
  | String a r => repr_char q a +:+ repr_body q r
  end.

(** [repr(s)] of a byte string: single quotes, unless the string has a
    single quote and no double quote. *)
Definition repr (s : string) : string :=
  let q := if contains_char "'"%char s && negb (contains_char "034"%char s)
           then "034"%char else "'"%char in
  String q (repr_body q s +:+ String q EmptyString).

End PyStr.

(** ** The tokenizer *)

Module Tokenizer.

(** [.*?] followed by the closer [c1 c2]: the text up to and including the
    first occurrence of the closer, and the text after it. *)
Fixpoint find_close (c1 c2 : ascii) (s : string) : option (string * string) :=
  match s with
  | String a r =>
      match r with
      | String b r' =>
          if Ascii.eqb a c1 && Ascii.eqb b c2
          then Some (String a (String b EmptyString), r')
          else match find_close c1 c2 r with
               | Some (m, rest) => Some (String a m, rest)
               | None => None
               end
      | EmptyString => None
      end
  | EmptyString => None
  end.

(** The closer that goes with the character after an opening brace. *)
Definition closer_of (x : ascii) : option (ascii * ascii) :=
  if Ascii.eqb x "{"%char then Some ("}"%char, "}"%char)
  else if Ascii.eqb x "%"%char then Some ("%"%char, "}"%char)
  else if Ascii.eqb x "#"%char then Some ("#"%char, "}"%char)
  else None.

(** A match of [{{.*?}}|{%.*?%}|{#.*?#}] anchored at the start of [s]:
    the matched text and what follows it.  The three alternatives begin
    with different characters, so at most one of them applies. *)
Definition match_tag (s : string) : option (string * string) :=
  match s with
  | String o (String x body) =>
      if Ascii.eqb o "{"%char then
        match closer_of x with
        | Some (c1, c2) =>
            match find_close c1 c2 body with
            | Some (m, rest) => Some (String o (String x m), rest)
            | None => None
            end
        | None => None
        end
      else None
  | _ => None
  end.

(** [re.split] with the whole pattern as its one capturing group: the
    text before the leftmost match, the match, and the split of the rest.
    [fuel] bounds the number of characters looked at. *)
Fixpoint split_loop (fuel : nat) (s : string) : list string :=
  match fuel with
  | O => [s]
  | S fuel' =>
      match match_tag s with
      | Some (m, rest) => EmptyString :: m :: split_loop fuel' rest
      | None =>
          match s with
          | EmptyString => [EmptyString]
          | String a r => PyStr.cons_first a (split_loop fuel' r)
          end
      end
  end.

(** [Template._tokenize] *)
Definition _tokenize (template : string) : list string :=
  split_loop (String.length template) template.

Inductive token_kind : Set := Comment | Output | Action | Literal.

(** The [startswith] chain of the compile loop. *)
Definition classify (token : string) : token_kind :=
  if PyStr.startswith token "{#" then Comment
  else if PyStr.startswith token "{{" then Output
  else if PyStr.startswith token "{%" then Action
  else Literal.

(** A string of the shape [{{...}}], [{%...%}] or [{#...#}]: an opener,
    and the matching closer at the end, not overlapping the opener. *)
Definition delimited (o c : string) (token : string) : Prop :=
  exists body, token = o +:+ body +:+ c.

Definition is_tag (token : string) : Prop :=
  delimited "{{" "}}" token \/ delimited "{%" "%}" token \/ delimited "{#" "#}" token.

End Tokenizer.

(** ** The generated program *)

(** The engine writes Python source by filling format strings.  Each
    format string of the source is a constructor here, its holes are the
    constructor's arguments, and [show_line] gives back the text. *)
Module Gen.

(** The expression texts built by [_expr_code]. *)
Inductive pyexpr : Set :=
  | EName (name : string)                    (* "c_%s" *)
  | ECall (func : string) (arg : pyexpr)     (* "c_%s(%s)" *)
  | EDots (base : pyexpr) (dots : list string). (* "do_dots(%s, %s)" *)

(** The entries of [buffered]. *)
Inductive pyitem : Set :=
  | IToStr (e : pyexpr)                      (* "to_str(%s)" *)
  | ILit (token : string).                   (* repr(token) *)

(** The lines given to [add_line]. *)
Inductive pyline : Set :=
  | LDef                                     (* "def render_function(context, do_dots):" *)
  | LInitResult                              (* "result = []" *)
  | LAppendAlias                             (* "append_result = result.append" *)
  | LExtendAlias                             (* "extend_result = result.extend" *)
  | LToStrAlias                              (* "to_str = str" *)
  | LAppend (x : pyitem)                     (* "append_result(%s)" *)
  | LExtend (xs : list pyitem)               (* "extend_result([%s])" *)
  | LIf (e : pyexpr)                         (* "if %s:" *)
  | LFor (var : string) (e : pyexpr)         (* "for c_%s in %s:" *)
  | LLoad (var_name : string)                (* "c_%s = context[%r]" *)
  | LReturn.                                 (* "return ''.join(result)" *)

Fixpoint show_expr (e : pyexpr) : string :=
  match e with
  | EName name => "c_" +:+ name
  | ECall func arg => "c_" +:+ func +:+ "(" +:+ show_expr arg +:+ ")"
  | EDots base dots =>
      "do_dots(" +:+ show_expr base +:+ ", "
        +:+ PyStr.join ", " (PyStr.repr <$> dots) +:+ ")"
  end.

Definition show_item (x : pyitem) : string :=
  match x with
  | IToStr e => "to_str(" +:+ show_expr e +:+ ")"
  | ILit token => PyStr.repr token
  end.

Definition show_line (l : pyline) : string :=
  match l with
  | LDef => "def render_function(context, do_dots):"
  | LInitResult => "result = []"
  | LAppendAlias => "append_result = result.append"
  | LExtendAlias => "extend_result = result.extend"
  | LToStrAlias => "to_str = str"
  | LAppend x => "append_result(" +:+ show_item x +:+ ")"
  | LExtend xs => "extend_result([" +:+ PyStr.join ", " (show_item <$> xs) +:+ "])"
  | LIf e => "if " +:+ show_expr e +:+ ":"
  | LFor var e => "for c_" +:+ var +:+ " in " +:+ show_expr e +:+ ":"
  | LLoad var_name => "c_" +:+ var_name +:+ " = context[" +:+ PyStr.repr var_name +:+ "]"
  | LReturn => "return ''.join(result)"
  end.

End Gen.

(** ** CodeBuilder *)

Module CodeBuilder.
Import Gen.

(** An entry of [self.code]: the three strings that [add_line] appends
    (indentation, line, newline), or the sub-builder of [add_section]. *)
Inductive entry : Set :=
  | Line (indent : Z) (line : pyline)
  | Section.

Record t : Set := Build { code : list entry; indent_level : Z }.

Definition INDENT_STEP : Z := 4.

(** [CodeBuilder(indent)] *)
Definition init (indent : Z) : t := {| code := []; indent_level := indent |}.

Definition add_line (line : pyline) (b : t) : t :=
  {| code := code b ++ [Line (indent_level b) line];
     indent_level := indent_level b |}.

Definition indent (b : t) : t :=
  {| code := code b; indent_level := indent_level b + INDENT_STEP |}.

Definition dedent (b : t) : t :=
  {| code := code b; indent_level := indent_level b - INDENT_STEP |}.

(** [add_section]: the sub-builder is appended to [self.code] and handed
    to the caller, who fills it later.  The entry [Section] stands for
    the reference; the one sub-builder the engine makes is kept by the
    compile loop and given back to [lines] when the text is assembled. *)
Definition add_section (b : t) : t * t :=
  ({| code := code b ++ [Section]; indent_level := indent_level b |},
   init (indent_level b)).

(** The lines of the builder in source order, the section's lines in the
    place of its entry. *)
Fixpoint lines_of (es : list entry) (section : list (Z * pyline)) : list (Z * pyline) :=
  match es with
  | [] => []
  | Line i l :: es' => (i, l) :: lines_of es' section
  | Section :: es' => section ++ lines_of es' section
  end.

Definition lines (b section : t) : list (Z * pyline) :=
  lines_of (code b) (lines_of (code section) []).

(** [__str__] *)
Definition show_lines (ls : list (Z * pyline)) : string :=
  PyStr.join "" ((fun il => PyStr.spaces (Z.to_nat (fst il)) +:+ show_line (snd il) +:+ "
") <$> ls).

Definition str (b section : t) : string := show_lines (lines b section).

End CodeBuilder.

(** ** The compile loop of [Template.__init__] *)

Module Compile.
Import Gen Tokenizer.

(** [_syntax_error]: [raise TemplateSyntaxError("%s: %r" % (msg, thing))] *)
Definition _syntax_error {A} (msg thing : string) : outcome A :=
  Raise (template_syntax_error (msg +:+ ": " +:+ PyStr.repr thing)).

(** [re.match(r"", name)]: the empty pattern matches at the start of
    every string. *)
Definition name_pattern_matches (name : string) : bool := true.

(** [_variable] *)
Definition _variable (name : string) (vars_set : gset string) : outcome (gset string) :=
  if negb (name_pattern_matches name)
  then _syntax_error "Not a valid variable name" name
  else Ok ({[name]} ∪ vars_set).

(** The loop over [pipes[1:]] in [_expr_code]. *)
Fixpoint pipe_loop (funcs : list string) (code : pyexpr) (all_vars : gset string)
  : outcome (pyexpr * gset string) :=
  match funcs with
  | [] => Ok (code, all_vars)
  | func :: funcs' =>
      all_vars' ← _variable func all_vars;
      pipe_loop funcs' (ECall func code) all_vars'
  end.

(** [_expr_code]; the recursive calls are on [pipes[0]] and [dots[0]],
    [fuel] bounds their depth. *)
Fixpoint _expr_code_rec (fuel : nat) (expr : string) (all_vars : gset string)
  : outcome (pyexpr * gset string) :=
  match fuel with
  | O => Unmodelled
  | S fuel' =>
      if PyStr.contains_char "|"%char expr then
        let pipes := PyStr.split_on "|"%char expr in
        '(code, all_vars1) ← _expr_code_rec fuel' (hd EmptyString pipes) all_vars;
        pipe_loop (tl pipes) code all_vars1
      else if PyStr.contains_char "."%char expr then
        let dots := PyStr.split_on "."%char expr in
        '(code, all_vars1) ← _expr_code_rec fuel' (hd EmptyString dots) all_vars;
        Ok (EDots code (tl dots), all_vars1)
      else
        all_vars1 ← _variable expr all_vars;
        Ok (EName expr, all_vars1)
  end.

(** A piece before the first ["|"] has no ["|"], and a piece before the
    first ["."] of it has neither: three levels are all there are. *)
Definition _expr_code (expr : string) (all_vars : gset string)
  : outcome (pyexpr * gset string) :=
  _expr_code_rec 3 expr all_vars.

(** The state of the loop: the two sets of names, the builder and its
    section [vars_code], the closure variable [buffered] and the stack of
    open blocks (top first). *)
Record state : Type := State {
  all_vars : gset string;
  loop_vars : gset string;
  code : CodeBuilder.t;
  vars_code : CodeBuilder.t;
  buffered : list pyitem;
  ops_stack : list string
}.

Definition set_code (f : CodeBuilder.t -> CodeBuilder.t) (s : state) : state :=
  {| all_vars := all_vars s; loop_vars := loop_vars s; code := f (code s);
     vars_code := vars_code s; buffered := buffered s; ops_stack := ops_stack s |}.

Definition set_vars_code (f : CodeBuilder.t -> CodeBuilder.t) (s : state) : state :=
  {| all_vars := all_vars s; loop_vars := loop_vars s; code := code s;
     vars_code := f (vars_code s); buffered := buffered s; ops_stack := ops_stack s |}.

Definition set_all_vars (v : gset string) (s : state) : state :=
  {| all_vars := v; loop_vars := loop_vars s; code := code s;
     vars_code := vars_code s; buffered := buffered s; ops_stack := ops_stack s |}.

Definition set_loop_vars (v : gset string) (s : state) : state :=
  {| all_vars := all_vars s; loop_vars := v; code := code s;
     vars_code := vars_code s; buffered := buffered s; ops_stack := ops_stack s |}.

Definition set_buffered (b : list pyitem) (s : state) : state :=
  {| all_vars := all_vars s; loop_vars := loop_vars s; code := code s;
     vars_code := vars_code s; buffered := b; ops_stack := ops_stack s |}.

Definition set_ops_stack (o : list string) (s : state) : state :=
  {| all_vars := all_vars s; loop_vars := loop_vars s; code := code s;
     vars_code := vars_code s; buffered := buffered s; ops_stack := o |}.

(** [self._expr_code(expr)] in the loop: the code, and [all_vars] grown. *)
Definition expr_code_in (expr : string) (s : state) : outcome (pyexpr * state) :=
  '(e, v) ← _expr_code expr (all_vars s);
  Ok (e, set_all_vars v s).

(** [flush_output] *)
Definition flush_output (s : state) : state :=
  let s1 :=
    match buffered s with
    | [] => s
    | [x] => set_code (CodeBuilder.add_line (LAppend x)) s
    | xs => set_code (CodeBuilder.add_line (LExtend xs)) s
    end in
  set_buffered [] s1.

(** The branch of an action tag, after [flush_output], on its words. *)
Definition action (token : string) (words : list string) (s : state) : outcome state :=
  match words with
  | [] => Raise (Exn IndexError "list index out of range")
  | w0 :: _ =>
      if String.eqb w0 "if" then
        match words with
        | [_; w1] =>
            let s1 := set_ops_stack ("if" :: ops_stack s) s in
            '(e, s2) ← expr_code_in w1 s1;
            Ok (set_code CodeBuilder.indent (set_code (CodeBuilder.add_line (LIf e)) s2))
        | _ => _syntax_error "Don't understand if" token
        end
      else if String.eqb w0 "for" then
        match words with
        | [_; w1; w2; w3] =>
            if String.eqb w2 "in" then
              let s1 := set_ops_stack ("for" :: ops_stack s) s in
              lv ← _variable w1 (loop_vars s1);
              let s2 := set_loop_vars lv s1 in
              '(e, s3) ← expr_code_in w3 s2;
              Ok (set_code CodeBuilder.indent
                    (set_code (CodeBuilder.add_line (LFor w1 e)) s3))
            else _syntax_error "Don't understand for" token
        | _ => _syntax_error "Don't understand for" token
        end
      else if PyStr.startswith w0 "end" then
        match words with
        | [_] =>
            let end_what := PyStr.drop 3 w0 in
            match ops_stack s with
            | [] => _syntax_error "Too many ends" token
            | start_what :: stack' =>
                if String.eqb start_what end_what
                then Ok (set_code CodeBuilder.dedent (set_ops_stack stack' s))
                else _syntax_error "Mismatched end tag" end_what
            end
        | _ => _syntax_error "Don't understand end" token
        end
      else _syntax_error "Don't understand tag" w0
  end.

(** One turn of [for token in tokens]. *)
Definition step (token : string) (s : state) : outcome state :=
  match classify token with
  | Comment => Ok s
  | Output =>
      '(e, s1) ← expr_code_in (PyStr.strip (PyStr.inner token)) s;
      Ok (set_buffered (buffered s1 ++ [IToStr e]) s1)
  | Action =>
      action token (PyStr.split_ws (PyStr.strip (PyStr.inner token))) (flush_output s)
  | Literal =>
      if String.eqb token EmptyString then Ok s
      else Ok (set_buffered (buffered s ++ [ILit token]) s)
  end.

Fixpoint loop (tokens : list string) (s : state) : outcome state :=
  match tokens with
  | [] => Ok s
  | token :: tokens' => s' ← step token s; loop tokens' s'
  end.

(** The state before the loop: the [def] line, the section for the loads
    and the four fixed lines of the function. *)
Definition start : state :=
  let code0 := CodeBuilder.indent (CodeBuilder.add_line LDef (CodeBuilder.init 0)) in
  let '(code1, section) := CodeBuilder.add_section code0 in
  {| all_vars := ∅; loop_vars := ∅;
     code := CodeBuilder.add_line LToStrAlias
               (CodeBuilder.add_line LExtendAlias
                  (CodeBuilder.add_line LAppendAlias
                     (CodeBuilder.add_line LInitResult code1)));
     vars_code := section;
     buffered := [];
     ops_stack := [] |}.

(** [for var_name in self.all_vars - self.loop_vars: vars_code.add_line(...)] *)
Definition add_loads (names : list string) (b : CodeBuilder.t) : CodeBuilder.t :=
  foldl (fun b var_name => CodeBuilder.add_line (LLoad var_name) b) b names.

(** What follows the loop, up to the call of [get_globals]. *)
Definition finish (s : state) : outcome state :=
  match ops_stack s with
  | top :: _ => _syntax_error "Unmatched action tag" top
  | [] =>
      let s1 := flush_output s in
      let s2 := set_vars_code
                  (add_loads (elements (all_vars s1 ∖ loop_vars s1))) s1 in
      Ok (set_code CodeBuilder.dedent (set_code (CodeBuilder.add_line LReturn) s2))
  end.

(** The builder handed to [get_globals], with the sets of names. *)
Definition build (template : string) : outcome state :=
  s ← loop (_tokenize template) start; finish s.

(** The Python source that is given to [exec]. *)
Definition python_source (template : string) : outcome string :=
  s ← build template; Ok (CodeBuilder.str (code s) (vars_code s)).

End Compile.

(** ** The Python host *)

(** What the generated function and [_do_dots] ask of the values they are
    given.  The values of a context are arbitrary Python objects; the engine
    touches them only through these operations of the object protocol.  The
    operations are functions of the value: the objects of a context are not
    mutated while a template is rendered. *)
Module Host.

Class Ops (V : Type) : Type := {
  getitem : V -> string -> outcome V;       (* value[dot] *)
  getattr : V -> string -> outcome V;       (* getattr(value, dot) *)
  callable : V -> bool;                     (* callable(value) *)
  call0 : V -> outcome V;                   (* value() *)
  call1 : V -> V -> outcome V;              (* c_f(x) *)
  to_str : V -> outcome string;             (* str(x) *)
  truth : V -> outcome bool;                (* if x: *)
  iterate : V -> list V * option exn;       (* for _ in x: the items, then
                                               the exception that ends the
                                               iteration, if any *)
  format_s : V -> outcome unit;             (* "... '%s'" % var *)
  str_value : string -> V                   (* the str object of a text *)
}.

End Host.

(** ** [_do_dots] *)

Module Dots.
Import Host.

Section WithHost.
Context {V : Type} `{Ops V}.

(** One turn of [for dot in dots]. *)
Definition dot_step (value : V) (dot : string) : outcome V :=
  value1 ← match getitem value dot with
            | Raise e => if is_lookup_failure e then getattr value dot else Raise e
            | r => r
            end;
  if callable value1 then call0 value1 else Ok value1.

Fixpoint dots_loop (dots : list string) (value : V) : outcome V :=
  match dots with
  | [] => Ok value
  | dot :: dots' => value' ← dot_step value dot; dots_loop dots' value'
  end.

(** [_do_dots(var, *dots)].  The handler formats [var] into the text it
    prints and then gives the empty string; the printed text itself is
    not part of the model. *)
Definition _do_dots (var : V) (dots : list string) : outcome V :=
  match dots_loop dots var with
  | Raise e =>
      if is_Exception e
      then _ ← format_s var; Ok (str_value EmptyString)
      else Raise e
  | r => r
  end.

(** A lookup failure, in the words of the specification: what a key
    lookup raises when the value has no such key or index, or is not a
    value that keys can be looked up in. *)
Definition lookup_failures : list exc_class :=
  [KeyError; IndexError; TypeError; AttributeError; ValueError].

(** The resolution of one path name in the words of the specification:
    key lookup first, attribute lookup when that fails, then a call
    without arguments when the value found is callable. *)
Definition spec_lookup (current : V) (name : string) : outcome V :=
  match getitem current name with
  | Ok found => Ok found
  | Raise e =>
      if bool_decide (exc_type e ∈ lookup_failures)
      then getattr current name
      else Raise e
  | Unmodelled => Unmodelled
  end.

Definition spec_resolve (current : V) (name : string) : outcome V :=
  match spec_lookup current name with
  | Ok found => if callable found then call0 found else Ok found
  | Raise e => Raise e
  | Unmodelled => Unmodelled
  end.

Fixpoint spec_path (path : list string) (current : V) : outcome V :=
  match path with
  | [] => Ok current
  | name :: path' =>
      match spec_resolve current name with
      | Ok next => spec_path path' next
      | Raise e => Raise e
      | Unmodelled => Unmodelled
      end
  end.

End WithHost.
End Dots.

(** ** [exec] of the generated source, and the function it defines *)

Module Exec.
Import Gen Host.

(** The statements of the generated function, blocks recovered from the
    indentation. *)
Inductive stmt : Set :=
  | SDef (body : list stmt)
  | SLoad (var_name : string)
  | SInitResult
  | SAlias
  | SAppend (x : pyitem)
  | SExtend (xs : list pyitem)
  | SIf (e : pyexpr) (body : list stmt)
  | SFor (var : string) (e : pyexpr) (body : list stmt)
  | SReturn.

(** [c_%s] is one Python name when the hole holds letters, digits and
    underscores only. *)
Definition ident_char (a : ascii) : bool :=
  let n := N_of_ascii a in
  ((48 <=? n) && (n <=? 57) || (65 <=? n) && (n <=? 90)
   || (97 <=? n) && (n <=? 122) || (n =? 95))%N.

Fixpoint ident_ok (name : string) : bool :=
  match name with
  | EmptyString => true
  | String a r => ident_char a && ident_ok r
  end.

(** Characters that Python accepts nowhere after a name in the lines
    that the engine writes: [$] and [?] are no tokens of the language,
    [@] only begins a decorator, and [!] is a token only in [!=], which a
    hole cannot make since the lines put a space, a bracket, a comma or a
    colon after it. *)
Definition junk_char (a : ascii) : bool :=
  Ascii.eqb a "$" || Ascii.eqb a "?" || Ascii.eqb a "@" || Ascii.eqb a "!".

Fixpoint junk_ok (name : string) : bool :=
  match name with
  | EmptyString => true
  | String a r => (ident_char a || junk_char a) && junk_ok r
  end.

(** What is known of a piece of source with holes: it is as the engine
    means it, it is refused by the parser with [SyntaxError: invalid
    syntax], or it is some other text, of which the model says nothing
    (a hole with an operator, a bracket, a quote, a space ...). *)
Inductive verdict : Set := Fine | Invalid | Unknown.

(** [c_%s]: a name; or a name followed by a character that cannot
    follow it, when the hole has letters, digits, underscores and such
    characters only. *)
Definition hole (name : string) : verdict :=
  if ident_ok name then Fine
  else if junk_ok name then Invalid
  else Unknown.

Definition worse (a b : verdict) : verdict :=
  match a, b with
  | Unknown, _ | _, Unknown => Unknown
  | Invalid, _ | _, Invalid => Invalid
  | Fine, Fine => Fine
  end.

Fixpoint expr_holes (e : pyexpr) : verdict :=
  match e with
  | EName name => hole name
  | ECall func arg => worse (hole func) (expr_holes arg)
  | EDots base _ => expr_holes base
  end.

(** CPython refuses source that is too deep or too wide: its parser has
    a stack of fixed size ([s_push: parser stack overflow], a
    [MemoryError]), a call takes at most 255 arguments, at most 20 blocks
    are nested in one another and at most 100 levels of indentation.
    Where these limits fall depends on the line.  The model follows
    [exec] only well below them: up to [MAX_NESTING] calls inside one
    another in an expression, [MAX_ARGUMENTS] names in a dotted path, and
    lines up to the column [MAX_COLUMN]. *)
Definition MAX_NESTING : nat := 16.
Definition MAX_ARGUMENTS : nat := 100.
Definition MAX_COLUMN : Z := 64.

Fixpoint nesting (e : pyexpr) : nat :=
  match e with
  | EName _ => 0
  | ECall _ arg => S (nesting arg)
  | EDots base _ => S (nesting base)
  end.

Fixpoint widest_call (e : pyexpr) : nat :=
  match e with
  | EName _ => 0
  | ECall _ arg => widest_call arg
  | EDots base dots => Nat.max (length dots) (widest_call base)
  end.

Definition within_limits (e : pyexpr) : bool :=
  ((nesting e <=? MAX_NESTING) && (widest_call e <=? MAX_ARGUMENTS))%nat.

Definition expr_verdict (e : pyexpr) : verdict :=
  if within_limits e then expr_holes e else Unknown.

Definition item_verdict (x : pyitem) : verdict :=
  match x with
  | IToStr e => expr_verdict e
  | ILit _ => Fine
  end.

Definition line_verdict (l : pyline) : verdict :=
  match l with
  | LAppend x => item_verdict x
  | LExtend xs => foldr (fun x v => worse (item_verdict x) v) Fine xs
  | LIf e => expr_verdict e
  | LFor var e => worse (hole var) (expr_verdict e)
  | LLoad var_name => hole var_name
  | _ => Fine
  end.

Definition is_fine (v : verdict) : bool :=
  match v with
  | Fine => true
  | _ => false
  end.

(** The expressions, items and lines that are as the engine means them. *)
Definition expr_ok (e : pyexpr) : bool := is_fine (expr_verdict e).
Definition item_ok (x : pyitem) : bool := is_fine (item_verdict x).
Definition line_ok (l : pyline) : bool := is_fine (line_verdict l).

(** The lines that open a block, and the statement they make of it. *)
Definition header (l : pyline) : option (list stmt -> stmt) :=
  match l with
  | LDef => Some SDef
  | LIf e => Some (SIf e)
  | LFor var e => Some (SFor var e)
  | _ => None
  end.

Definition simple (l : pyline) : stmt :=
  match l with
  | LLoad var_name => SLoad var_name
  | LInitResult => SInitResult
  | LAppend x => SAppend x
  | LExtend xs => SExtend xs
  | LReturn => SReturn
  | _ => SAlias
  end.

Definition indentation_error {A} (msg : string) : outcome A :=
  Raise (Exn IndentationError msg).

Definition invalid_syntax {A} : outcome A :=
  Raise (Exn SyntaxError "invalid syntax").

(** The column of a line: [" " * indent_level] is empty for a negative
    level. *)
Definition column (indent : Z) : Z := Z.max 0 indent.

(** The loads are written in the order in which Python iterates over a
    set, which the model does not know.  A load that the parser refuses
    is the first thing wrong only if none of the loads written with it
    is a text of which the model says nothing. *)
Fixpoint loads_unknown (ls : list (Z * pyline)) : bool :=
  match ls with
  | (_, LLoad var_name) :: ls' =>
      match hole var_name with
      | Unknown => true
      | _ => loads_unknown ls'
      end
  | _ => false
  end.

Definition refused (l : pyline) (rest : list (Z * pyline))
  : outcome (list stmt * list (Z * pyline)) :=
  match l with
  | LLoad _ => if loads_unknown rest then Unmodelled else invalid_syntax
  | _ => invalid_syntax
  end.

(** The statements at indentation [ind] at the head of [ls], and the
    lines after them.  The source is read line by line, and the first
    thing that is wrong ends the reading: the indentation of a line is
    looked at before its text, and a line that opens a block must be
    followed by a deeper line, which sets the indentation of the
    block; the line that ends a block must be at the indentation of the
    enclosing one. *)
Fixpoint parse_suite (fuel : nat) (ind : Z) (ls : list (Z * pyline))
  : outcome (list stmt * list (Z * pyline)) :=
  match fuel with
  | O => Unmodelled
  | S fuel' =>
      match ls with
      | [] => Ok ([], [])
      | (i, l) :: rest =>
          if MAX_COLUMN <? column i then Unmodelled
          else if column i <? ind then Ok ([], ls)
          else if ind <? column i then indentation_error "unexpected indent"
          else
            match line_verdict l with
            | Unknown => Unmodelled
            | Invalid => refused l rest
            | Fine =>
                match header l with
                | None =>
                    '(ss, rest') ← parse_suite fuel' ind rest;
                    Ok (simple l :: ss, rest')
                | Some mk =>
                    match rest with
                    | (j, _) :: _ =>
                        if ind <? column j then
                          '(body, rest1) ← parse_suite fuel' (column j) rest;
                          match rest1 with
                          | (k, _) :: _ =>
                              if ind <? column k
                              then indentation_error
                                     "unindent does not match any outer indentation level"
                              else
                                '(ss, rest2) ← parse_suite fuel' ind rest1;
                                Ok (mk body :: ss, rest2)
                          | [] => Ok ([mk body], [])
                          end
                        else indentation_error "expected an indented block"
                    | [] => indentation_error "expected an indented block"
                    end
                end
            end
      end
  end.

(** The module of a source text. *)
Definition parse_module (ls : list (Z * pyline)) : outcome (list stmt) :=
  '(ss, rest) ← parse_suite (S (length ls)) 0 ls;
  match rest with
  | [] => Ok ss
  | _ :: _ => Unmodelled
  end.

(** [global_namespace['render_function']] after [exec]. *)
Definition render_function_of (module : list stmt) : outcome (list stmt) :=
  match module with
  | [SDef body] => Ok body
  | _ => Unmodelled
  end.

(** [CodeBuilder.get_globals]: the assertion on the indentation, and
    [exec] of the source, which runs the statements of the module.  The
    [def] of the engine binds [render_function] in the namespace; a
    module of another shape is outside the model. *)
Definition get_globals (code section : CodeBuilder.t) : outcome (list stmt) :=
  if CodeBuilder.indent_level code =? 0
  then module ← parse_module (CodeBuilder.lines code section);
       _ ← render_function_of module;
       Ok module
  else Raise (Exn AssertionError EmptyString).

(** [code.get_globals()['render_function']] *)
Definition get_render_function (code section : CodeBuilder.t) : outcome (list stmt) :=
  module ← get_globals code section;
  render_function_of module.

(** *** Running the function *)

(** The locals [c_*] of a call and the list [result]. *)
Record frame (V : Type) : Type := Frame {
  locals : gmap string V;
  result : list string
}.
Arguments Frame {V} locals result.
Arguments locals {V} f.
Arguments result {V} f.

(** A statement ends normally or returns from the function. *)
Inductive flow (V : Type) : Type :=
  | Normal (f : frame V)
  | Returned (s : string).
Arguments Normal {V} f.
Arguments Returned {V} s.

Section WithHost.
Context {V : Type} `{Ops V}.

(** The dictionary passed as [context]. *)
Variable context : gmap string V.

Definition bind_local (name : string) (v : V) (f : frame V) : frame V :=
  Frame (<[name := v]> (locals f)) (result f).

Definition emit (ss : list string) (f : frame V) : frame V :=
  Frame (locals f) (result f ++ ss).

(** Every name read by the function is assigned somewhere in it, hence
    a local: reading it before it is assigned is an
    [UnboundLocalError]. *)
Definition read_local (name : string) (f : frame V) : outcome V :=
  match locals f !! name with
  | Some v => Ok v
  | None => Raise (Exn UnboundLocalError ("c_" +:+ name))
  end.

Fixpoint eval (f : frame V) (e : pyexpr) : outcome V :=
  match e with
  | EName name => read_local name f
  | ECall func arg =>
      fv ← read_local func f;
      av ← eval f arg;
      call1 fv av
  | EDots base dots =>
      bv ← eval f base;
      Dots._do_dots bv dots
  end.

Definition eval_item (f : frame V) (x : pyitem) : outcome string :=
  match x with
  | IToStr e => v ← eval f e; to_str v
  | ILit token => Ok token
  end.

Fixpoint eval_items (f : frame V) (xs : list pyitem) : outcome (list string) :=
  match xs with
  | [] => Ok []
  | x :: xs' => s ← eval_item f x; ss ← eval_items f xs'; Ok (s :: ss)
  end.

(** The statements of a block in turn, up to a [return]. *)
Definition run_block (run : stmt -> frame V -> outcome (flow V))
  : list stmt -> frame V -> outcome (flow V) :=
  fix go (ss : list stmt) (f : frame V) : outcome (flow V) :=
    match ss with
    | [] => Ok (Normal f)
    | s :: ss' =>
        r ← run s f;
        match r with
        | Normal f' => go ss' f'
        | Returned out => Ok (Returned out)
        end
    end.

(** [for c_var in ...: body] over the items [xs], ended by [err]. *)
Definition run_for (body : frame V -> outcome (flow V)) (var : string)
    (err : option exn)
  : list V -> frame V -> outcome (flow V) :=
  fix go (xs : list V) (f : frame V) : outcome (flow V) :=
    match xs with
    | [] => match err with
            | Some e => Raise e
            | None => Ok (Normal f)
            end
    | x :: xs' =>
        r ← body (bind_local var x f);
        match r with
        | Normal f' => go xs' f'
        | Returned out => Ok (Returned out)
        end
    end.

Fixpoint exec_stmt (s : stmt) (f : frame V) {struct s} : outcome (flow V) :=
  match s with
  | SDef _ => Unmodelled
  | SLoad var_name =>
      match context !! var_name with
      | Some v => Ok (Normal (bind_local var_name v f))
      | None => Raise (Exn KeyError var_name)
      end
  | SInitResult => Ok (Normal (Frame (locals f) []))
  | SAlias => Ok (Normal f)
  | SAppend x => s ← eval_item f x; Ok (Normal (emit [s] f))
  | SExtend xs => ss ← eval_items f xs; Ok (Normal (emit ss f))
  | SIf e body =>
      c ← eval f e;
      b ← truth c;
      if b : bool then run_block exec_stmt body f else Ok (Normal f)
  | SFor var e body =>
      it ← eval f e;
      run_for (run_block exec_stmt body) var (snd (iterate it)) (fst (iterate it)) f
  | SReturn => Ok (Returned (PyStr.join EmptyString (result f)))
  end.

Definition exec_block : list stmt -> frame V -> outcome (flow V) :=
  run_block exec_stmt.

(** A call [render_function(context, do_dots)]. *)
Definition call_render_function (body : list stmt) : outcome string :=
  r ← exec_block body (Frame ∅ []);
  match r with
  | Returned out => Ok out
  | Normal _ => Unmodelled
  end.

End WithHost.
End Exec.

(** ** [Template] *)

Module Template.
Import Host.

(** Dictionaries are objects: a context is known by its location in a
    heap of dictionaries, and [update] changes the heap. *)
Definition loc : Set := positive.

Section WithHost.
Context {V : Type} `{Ops V}.

Abbreviation heap := (gmap loc (gmap string V)).

(** The attributes of a [Template] object. *)
Record t : Type := Build {
  context : loc;
  all_vars : gset string;
  loop_vars : gset string;
  _render_function : list Exec.stmt
}.

(** [{}] and [dict(d)]: a new dictionary object. *)
Definition new_dict (d : gmap string V) (h : heap) : loc * heap :=
  let l := fresh (dom h) in (l, <[l := d]> h).

(** [target.update(source)] *)
Definition dict_update (target source : loc) (h : heap) : outcome unit * heap :=
  match h !! target, h !! source with
  | Some dt, Some ds => (Ok tt, <[target := ds ∪ dt]> h)
  | _, _ => (Unmodelled, h)
  end.

(** [for context in contexts: self.context.update(context)] *)
Fixpoint update_all (target : loc) (contexts : list loc) (h : heap)
  : outcome unit * heap :=
  match contexts with
  | [] => (Ok tt, h)
  | c :: cs =>
      match dict_update target c h with
      | (Ok _, h') => update_all target cs h'
      | r => r
      end
  end.

(** The compilation in [__init__], from the template text to the
    function. *)
Definition compile (template : string)
  : outcome (gset string * gset string * list Exec.stmt) :=
  s ← Compile.build template;
  fn ← Exec.get_render_function (Compile.code s) (Compile.vars_code s);
  Ok (Compile.all_vars s, Compile.loop_vars s, fn).

(** [Template(template, *contexts)] *)
Definition __init__ (template : string) (contexts : list loc) (h : heap)
  : outcome t * heap :=
  let '(self_context, h1) := new_dict ∅ h in
  match update_all self_context contexts h1 with
  | (Ok _, h2) =>
      (r ← compile template;
       let '(av, lv, fn) := r in
       Ok {| context := self_context; all_vars := av; loop_vars := lv;
             _render_function := fn |},
       h2)
  | (Raise e, h2) => (Raise e, h2)
  | (Unmodelled, h2) => (Unmodelled, h2)
  end.

(** The dictionary that [render] calls the function on: the defaults, with
    the entries of the call's context over them. *)
Definition effective (d0 : gmap string V) (dc : option (gmap string V)) : gmap string V :=
  match dc with
  | Some d => d ∪ d0
  | None => d0
  end.

(** [if context:] for [None] or a dictionary. *)
Definition context_truth (ctx : option loc) (h : heap) : bool :=
  match ctx with
  | None => false
  | Some c => match h !! c with
              | Some d => negb (bool_decide (d = ∅))
              | None => false
              end
  end.

(** [render(context=None)] *)
Definition render (self : t) (ctx : option loc) (h : heap)
  : outcome string * heap :=
  match h !! context self with
  | None => (Unmodelled, h)
  | Some d0 =>
      let '(render_context, h1) := new_dict d0 h in
      let '(r, h2) :=
        match ctx with
        | Some c => if context_truth ctx h1
                    then dict_update render_context c h1
                    else (Ok tt, h1)
        | None => (Ok tt, h1)
        end in
      match r with
      | Ok _ =>
          match h2 !! render_context with
          | Some d => (Exec.call_render_function d (_render_function self), h2)
          | None => (Unmodelled, h2)
          end
      | Raise e => (Raise e, h2)
      | Unmodelled => (Unmodelled, h2)
      end
  end.

End WithHost.
End Template.

(** ** A universe of Python values *)

(** Some Python objects, enough to run the engine on the examples of its
    test suite: [None], booleans, integers, byte strings, lists, tuples,
    dictionaries with string keys, instances of a plain class that only
    holds attributes, and a few callables.  Where Python's answer depends
    on more than is recorded here (a built-in method, a dunder attribute,
    the text of a container) the operation is [Unmodelled]. *)
Module PyVal.
Import Host.

Inductive func : Set :=
  | Upper                  (* lambda x: x.upper() *)
  | First.                 (* lambda x: x[0] *)

Inductive value : Set :=
  | PNone
  | PBool (b : bool)
  | PInt (z : Z)
  | PStr (s : string)
  | PList (items : list value)
  | PTuple (items : list value)
  | PDict (entries : list (string * value))    (* in iteration order *)
  | PObj (attrs : list (string * value))       (* a ClassWithAttributes *)
  | PLambda (f : func)
  | PMethod (returns : value)                  (* a bound method without
                                                  arguments returning it *)
  | PRaiser (c : exc_class).                   (* def f(): raise c() *)

Fixpoint assoc {A} (k : string) (l : list (string * A)) : option A :=
  match l with
  | [] => None
  | (k', v) :: l' => if String.eqb k k' then Some v else assoc k l'
  end.

Definition raise {A} (c : exc_class) (msg : string) : outcome A :=
  Raise (Exn c msg).

Definition upper_char (a : ascii) : ascii :=
  let n := N_of_ascii a in
  if ((97 <=? n) && (n <=? 122))%N then ascii_of_N (n - 32) else a.

Fixpoint upper (s : string) : string :=
  match s with
  | EmptyString => EmptyString
  | String a r => String (upper_char a) (upper r)
  end.

Fixpoint chars (s : string) : list value :=
  match s with
  | EmptyString => []
  | String a r => PStr (String a EmptyString) :: chars r
  end.

(** The method names of the built-in containers; every other name
    without a leading underscore is not an attribute of theirs. *)
Definition tuple_methods : list string := ["count"; "index"].
Definition list_methods : list string :=
  ["append"; "count"; "extend"; "index"; "insert"; "pop"; "remove";
   "reverse"; "sort"].
Definition dict_methods : list string :=
  ["clear"; "copy"; "fromkeys"; "get"; "has_key"; "items"; "iteritems";
   "iterkeys"; "itervalues"; "keys"; "pop"; "popitem"; "setdefault";
   "update"; "values"; "viewitems"; "viewkeys"; "viewvalues"].

Definition no_attribute (methods : list string) (name : string) : outcome value :=
  if PyStr.startswith name "_" || existsb (String.eqb name) methods
  then Unmodelled
  else raise AttributeError name.

Definition py_getitem (v : value) (key : string) : outcome value :=
  match v with
  | PDict entries =>
      match assoc key entries with
      | Some x => Ok x
      | None => raise KeyError key
      end
  | _ => raise TypeError "indices must be integers, or no __getitem__"
  end.

Definition py_getattr (v : value) (name : string) : outcome value :=
  match v with
  | PObj attrs =>
      match assoc name attrs with
      | Some x => Ok x
      | None => no_attribute [] name
      end
  | PTuple _ => no_attribute tuple_methods name
  | PList _ => no_attribute list_methods name
  | PDict _ => no_attribute dict_methods name
  | _ => Unmodelled
  end.

Definition py_callable (v : value) : bool :=
  match v with
  | PLambda _ | PMethod _ | PRaiser _ => true
  | _ => false
  end.

Definition py_call0 (v : value) : outcome value :=
  match v with
  | PMethod returns => Ok returns
  | PRaiser c => raise c EmptyString
  | PLambda _ => raise TypeError "<lambda>() takes exactly 1 argument (0 given)"
  | _ => raise TypeError "object is not callable"
  end.

Definition py_call1 (fv x : value) : outcome value :=
  match fv with
  | PLambda Upper =>
      match x with
      | PStr s => Ok (PStr (upper s))
      | PObj _ => Unmodelled
      | _ => raise AttributeError "upper"
      end
  | PLambda First =>
      match x with
      | PStr (String a _) => Ok (PStr (String a EmptyString))
      | PStr EmptyString => raise IndexError "string index out of range"
      | PList (y :: _) | PTuple (y :: _) => Ok y
      | PList [] | PTuple [] => raise IndexError "index out of range"
      | PDict _ => raise KeyError "0"
      | _ => raise TypeError "no __getitem__"
      end
  | PMethod _ | PRaiser _ => raise TypeError "takes no arguments (1 given)"
  | _ => raise TypeError "object is not callable"
  end.

Definition py_str (v : value) : outcome string :=
  match v with
  | PStr s => Ok s
  | PInt z => Ok (NilZero.string_of_int (Z.to_int z))
  | PBool true => Ok "True"
  | PBool false => Ok "False"
  | PNone => Ok "None"
  | _ => Unmodelled
  end.

Definition py_truth (v : value) : outcome bool :=
  match v with
  | PNone => Ok false
  | PBool b => Ok b
  | PInt z => Ok (negb (z =? 0))
  | PStr s => Ok (negb (String.eqb s EmptyString))
  | PList l | PTuple l => Ok (negb (bool_decide (length l = 0%nat)))
  | PDict d => Ok (negb (bool_decide (length d = 0%nat)))
  | _ => Ok true
  end.

Definition py_iterate (v : value) : list value * option exn :=
  match v with
  | PList l | PTuple l => (l, None)
  | PStr s => (chars s, None)
  | PDict d => (PStr <$> (fst <$> d), None)
  | _ => ([], Some (Exn TypeError "object is not iterable"))
  end.

(** ["...'%s'" % var]: a tuple on the right of [%] is the argument
    list, and the format has one place. *)
Definition py_format_s (v : value) : outcome unit :=
  match v with
  | PTuple [_] => Ok tt
  | PTuple [] => raise TypeError "not enough arguments for format string"
  | PTuple _ => raise TypeError "not all arguments converted during string formatting"
  | _ => Ok tt
  end.

#[global] Instance ops : Ops value := {|
  getitem := py_getitem;
  getattr := py_getattr;
  callable := py_callable;
  call0 := py_call0;
  call1 := py_call1;
  to_str := py_str;
  truth := py_truth;
  iterate := py_iterate;
  format_s := py_format_s;
  str_value := PStr
|}.

(** [Template(text).render(ctx)] on a heap that holds the dictionary
    [ctx] and nothing else: the helper [try_render] of the test suite. *)
Definition try_render (text : string) (ctx : list (string * value)) : outcome string :=
  let h0 : gmap Template.loc (gmap string value) := {[ 1%positive := list_to_map ctx ]} in
  match Template.__init__ text [] h0 with
  | (Ok t, h1) => fst (Template.render t (Some 1%positive) h1)
  | (Raise e, _) => Raise e
  | (Unmodelled, _) => Unmodelled
  end.

End PyVal.

(** ** Vocabulary of the specification *)

Module Spec.
Import Tokenizer.

(** The shape of a tokenizer result: a text, then tag and text in turn. *)
Inductive pieces : list string -> Prop :=
  | pieces_last (text : string) : pieces [text]
  | pieces_tag (text tag : string) (rest : list string) :
      is_tag tag -> pieces rest -> pieces (text :: tag :: rest).

(** A tag in the words of the pattern [{{.*?}}|{%.*?%}|{#.*?#}]: an
    opener, the closer that goes with it, and between them the shortest
    text that the closer can follow, so that the closer stands at the end
    of the tag and nowhere before it in what follows the opener. *)
Definition shortest (o c tag : string) : Prop :=
  exists body,
    tag = o +:+ body +:+ c /\
    forall k, (k < String.length body)%nat ->
              PyStr.startswith (PyStr.drop k (body +:+ c)) c = false.

(** The text [s] begins with the tag [tag], and [rest] follows it. *)
Definition tag_at_head (s tag rest : string) : Prop :=
  s = tag +:+ rest /\
  (shortest "{{" "}}" tag \/ shortest "{%" "%}" tag \/ shortest "{#" "#}" tag).

(** No tag begins at the place [k] of [s]. *)
Definition no_tag_from (k : nat) (s : string) : Prop :=
  forall tag rest, ~ tag_at_head (PyStr.drop k s) tag rest.

(** What [re.split] with the pattern as its one group gives, in the
    words of its documentation: the text is cut at the matches of the
    pattern found from left to right, each search starting where the
    match before ended, and the matches are kept between the texts.
    So the last text has no tag anywhere; and before that, no tag begins
    in a text, the tag after a text is the tag that begins at its end,
    and the pieces after the tag are those of what follows it. *)
Inductive split_of : string -> list string -> Prop :=
  | split_text (s : string) :
      (forall k, no_tag_from k s) -> split_of s [s]
  | split_tag (text tag after : string) (rest : list string) :
      (forall k, (k < String.length text)%nat ->
                 no_tag_from k (text +:+ tag +:+ after)) ->
      tag_at_head (tag +:+ after) tag after ->
      split_of after rest ->
      split_of (text +:+ tag +:+ after) (text :: tag :: rest).

(** A text with one of the delimiter sequences [{{], [{%], [{#]. *)
Definition has_delimiter (text : string) : bool :=
  PyStr.contains "{{" text || PyStr.contains "{%" text || PyStr.contains "{#" text.

(** Empty or whitespace only. *)
Fixpoint blank (s : string) : bool :=
  match s with
  | EmptyString => true
  | String a r => Ascii.is_space a && blank r
  end.

(** A syntactically valid identifier: a letter or an underscore, then
    letters, digits and underscores. *)
Definition is_digit (a : ascii) : bool :=
  let n := N_of_ascii a in ((48 <=? n) && (n <=? 57))%N.

Definition valid_identifier (name : string) : bool :=
  match name with
  | EmptyString => false
  | String a r => Exec.ident_char a && negb (is_digit a) && Exec.ident_ok r
  end.

(** The function compiled from a text without tags. *)
Definition literal_function (text : string) : list Exec.stmt :=
  [Exec.SInitResult; Exec.SAlias; Exec.SAlias; Exec.SAlias]
    ++ (if String.eqb text EmptyString then [] else [Exec.SAppend (Gen.ILit text)])
    ++ [Exec.SReturn].

(** The expression that a text stands for, read off the text: the
    pieces between ["|"], the first of them cut at ["."], the filters
    applied one after the other to the base. *)
Definition base_of (expr : string) : Gen.pyexpr :=
  let dots := PyStr.split_on "."%char (hd EmptyString (PyStr.split_on "|"%char expr)) in
  match tl dots with
  | [] => Gen.EName (hd EmptyString dots)
  | path => Gen.EDots (Gen.EName (hd EmptyString dots)) path
  end.

Definition filters_of (expr : string) : list string :=
  tl (PyStr.split_on "|"%char expr).

Definition apply_filters_code (filters : list string) (base : Gen.pyexpr) : Gen.pyexpr :=
  foldl (fun code func => Gen.ECall func code) base filters.

Definition expr_of (expr : string) : Gen.pyexpr :=
  apply_filters_code (filters_of expr) (base_of expr).

(** The names that the expression registers: the root of the base and
    the filters. *)
Definition names_of (expr : string) : gset string :=
  {[ hd EmptyString (PyStr.split_on "."%char (hd EmptyString (PyStr.split_on "|"%char expr))) ]}
    ∪ list_to_set (filters_of expr).

(** The words of an action tag. *)
Definition words_of (token : string) : list string :=
  PyStr.split_ws (PyStr.strip (PyStr.inner token)).

(** The exception of [_syntax_error msg thing]. *)
Definition syntax_error (msg thing : string) : exn :=
  template_syntax_error (msg +:+ ": " +:+ PyStr.repr thing).

(** What the message of a [TemplateSyntaxError] reports, for a template
    with the given tokens: the whole action tag, its first word, the
    kind named by its [end] word, or the kind of a block left open. *)
Inductive diagnostic (tokens : list string) : exn -> Prop :=
  | diag_token (msg token : string) :
      msg ∈ ["Don't understand if"; "Don't understand for";
             "Don't understand end"; "Too many ends"] ->
      token ∈ tokens -> classify token = Action ->
      diagnostic tokens (syntax_error msg token)
  | diag_word (token w : string) (ws : list string) :
      token ∈ tokens -> classify token = Action ->
      words_of token = w :: ws ->
      diagnostic tokens (syntax_error "Don't understand tag" w)
  | diag_kind (token w : string) :
      token ∈ tokens -> classify token = Action ->
      words_of token = [w] -> PyStr.startswith w "end" = true ->
      diagnostic tokens (syntax_error "Mismatched end tag" (PyStr.drop 3 w))
  | diag_open (kind : string) :
      kind = "if" \/ kind = "for" ->
      diagnostic tokens (syntax_error "Unmatched action tag" kind).

(** The kinds of block that the parser opens. *)
Definition block_kind (k : string) : Prop := k = "if" \/ k = "for".

(** The statement assigns the local [c_var]. *)
Fixpoint assigns (var : string) (s : Exec.stmt) : bool :=
  match s with
  | Exec.SLoad var_name => String.eqb var_name var
  | Exec.SFor v _ body => String.eqb v var || existsb (assigns var) body
  | Exec.SIf _ body => existsb (assigns var) body
  | Exec.SDef body => existsb (assigns var) body
  | _ => false
  end.

Section WithHost.
Context {V : Type} `{Host.Ops V}.

(** The filters applied in turn, the first to the base value, each
    to the result of the one before: for [[b; c]] on [a], [c(b(a))]. *)
Fixpoint apply_filters (filters : list V) (value : V) : outcome V :=
  match filters with
  | [] => Ok value
  | fv :: filters' =>
      match Host.call1 fv value with
      | Ok value' => apply_filters filters' value'
      | Raise e => Raise e
      | Unmodelled => Unmodelled
      end
  end.

(** What [_do_dots] makes of the resolution of a path. *)
Definition degrade (var : V) (resolved : outcome V) : outcome V :=
  match resolved with
  | Ok v => Ok v
  | Raise e =>
      if is_Exception e
      then match Host.format_s var with
           | Ok _ => Ok (Host.str_value EmptyString)
           | Raise e' => Raise e'
           | Unmodelled => Unmodelled
           end
      else Raise e
  | Unmodelled => Unmodelled
  end.

(** The turns of a loop, in the words of the specification: for each
    value in order, the variable is bound to the value and the body is
    executed, each turn from what the turn before left. *)
Inductive turns (context : gmap string V) (var : string) (body : list Exec.stmt)
  : list V -> Exec.frame V -> Exec.frame V -> Prop :=
  | turns_done (f : Exec.frame V) : turns context var body [] f f
  | turns_next (x : V) (xs : list V) (f f1 f' : Exec.frame V) :
      Exec.exec_block context body (Exec.bind_local var x f) = Ok (Exec.Normal f1) ->
      turns context var body xs f1 f' ->
      turns context var body (x :: xs) f f'.

(** A statement leaves bound the locals that are. *)
Definition stays_bound (context : gmap string V) (var : string) (s : Exec.stmt) : Prop :=
  forall f f', Exec.exec_stmt context s f = Ok (Exec.Normal f') ->
               is_Some (Exec.locals f !! var) -> is_Some (Exec.locals f' !! var).

(** A statement keeps the locals it does not assign. *)
Definition keeps (context : gmap string V) (var : string) (s : Exec.stmt) : Prop :=
  forall f f', Exec.exec_stmt context s f = Ok (Exec.Normal f') ->
               assigns var s = false ->
               Exec.locals f' !! var = Exec.locals f !! var.

End WithHost.

End Spec.

(** ** Further vocabulary *)

Module Vocabulary.
Import Tokenizer.

(** A token that the compile loop does something with: neither a comment
    nor an empty text. *)
Definition significant (token : string) : bool :=
  negb (PyStr.startswith token "{#") && negb (String.eqb token EmptyString).

(** The line that [flush_output] adds for a buffer, if any. *)
Definition flushed_line (buffered : list Gen.pyitem) : option Gen.pyline :=
  match buffered with
  | [] => None
  | [x] => Some (Gen.LAppend x)
  | xs => Some (Gen.LExtend xs)
  end.

(** The items that a run of tokens without action tags puts into the
    buffer, and the names it registers. *)
Fixpoint flat_items (tokens : list string) : list Gen.pyitem :=
  match tokens with
  | [] => []
  | token :: tokens' =>
      match classify token with
      | Output =>
          Gen.IToStr (Spec.expr_of (PyStr.strip (PyStr.inner token))) :: flat_items tokens'
      | Literal =>
          if String.eqb token EmptyString then flat_items tokens'
          else Gen.ILit token :: flat_items tokens'
      | _ => flat_items tokens'
      end
  end.

Fixpoint flat_names (tokens : list string) : gset string :=
  match tokens with
  | [] => ∅
  | token :: tokens' =>
      match classify token with
      | Output => Spec.names_of (PyStr.strip (PyStr.inner token)) ∪ flat_names tokens'
      | _ => flat_names tokens'
      end
  end.

Definition flat (tokens : list string) : Prop :=
  Forall (fun token => classify token <> Action) tokens.

(** The entry that [flush_output] adds to the builder, the source line it
    stands for, and the statement that [exec] makes of it. *)
Definition flush_entries (indent : Z) (buffered : list Gen.pyitem) : list CodeBuilder.entry :=
  match flushed_line buffered with
  | Some l => [CodeBuilder.Line indent l]
  | None => []
  end.

Definition flush_lines (indent : Z) (buffered : list Gen.pyitem) : list (Z * Gen.pyline) :=
  match flushed_line buffered with
  | Some l => [(indent, l)]
  | None => []
  end.

Definition flush_stmts (buffered : list Gen.pyitem) : list Exec.stmt :=
  match flushed_line buffered with
  | Some l => [Exec.simple l]
  | None => []
  end.

(** The parser with the fuel that [parse_module] gives it for its lines. *)
Definition parse_block (ind : Z) (ls : list (Z * Gen.pyline))
  : outcome (list Exec.stmt * list (Z * Gen.pyline)) :=
  Exec.parse_suite (S (length ls)) ind ls.

(** The names that an expression of the generated code reads. *)
Fixpoint reads (e : Gen.pyexpr) : list string :=
  match e with
  | Gen.EName name => [name]
  | Gen.ECall func arg => func :: reads arg
  | Gen.EDots base _ => reads base
  end.

Definition item_reads (x : Gen.pyitem) : list string :=
  match x with
  | Gen.IToStr e => reads e
  | Gen.ILit _ => []
  end.

(** The four fixed lines of the function, as statements. *)
Definition fixed_stmts : list Exec.stmt :=
  [Exec.SInitResult; Exec.SAlias; Exec.SAlias; Exec.SAlias].

Definition fixed_lines : list Gen.pyline :=
  [Gen.LInitResult; Gen.LAppendAlias; Gen.LExtendAlias; Gen.LToStrAlias].

(** The entries of the builder for lines of source, and the state of the
    compile loop when the lines [body] have been added after the fixed
    ones. *)
Definition to_entries (ls : list (Z * Gen.pyline)) : list CodeBuilder.entry :=
  (fun il => CodeBuilder.Line (fst il) (snd il)) <$> ls.

Definition state_of (av lv : gset string) (body : list (Z * Gen.pyline)) (indent : Z)
    (buffered : list Gen.pyitem) (ops_stack : list string) : Compile.state :=
  {| Compile.all_vars := av; Compile.loop_vars := lv;
     Compile.code :=
       {| CodeBuilder.code :=
            CodeBuilder.code (Compile.code Compile.start) ++ to_entries body;
          CodeBuilder.indent_level := indent |};
     Compile.vars_code := Compile.vars_code Compile.start;
     Compile.buffered := buffered;
     Compile.ops_stack := ops_stack |}.

(** The lines of the source of a function with the loads of [names] and
    the lines [body] after the fixed ones. *)
Definition source_lines (names : list string) (body : list (Z * Gen.pyline))
  : list (Z * Gen.pyline) :=
  (0, Gen.LDef) :: ((fun n => (4, Gen.LLoad n)) <$> names)
    ++ ((fun l => (4, l)) <$> fixed_lines) ++ body ++ [(4, Gen.LReturn)].

(** The context as the function has it after its loads: the entries of
    the names that it loads, and an empty result. *)
Definition loaded {V : Type} (names : gset string) (d : gmap string V) : Exec.frame V :=
  Exec.Frame (filter (fun kv => kv.1 ∈ names) d) [].

(** The texts of [for c_var in xs] over a body that appends the items
    [body]: the items are evaluated once for each value, with the loop
    variable bound to it in the locals, which stay as the last turn
    leaves them. *)
Fixpoint for_output {V : Type} `{Host.Ops V} (var : string) (body : list Gen.pyitem)
    (xs : list V) (L : gmap string V) : outcome (list string * gmap string V) :=
  match xs with
  | [] => Ok ([], L)
  | x :: xs' =>
      ss ← Exec.eval_items (Exec.Frame (<[var := x]> L) []) body;
      '(rest, L') ← for_output var body xs' (<[var := x]> L);
      Ok (ss ++ rest, L')
  end.

(** The tokens of a template with one block: the tokens before its
    opening tag, those of its body and those after its closing tag,
    none of them an action tag. *)
Definition one_block (pre : list string) (opening : string) (body : list string)
    (closing : string) (post : list string) : list string :=
  pre ++ opening :: body ++ closing :: post.

(** The lines after the fixed ones for one block opened by the line
    [l], and the statements that [exec] makes of them. *)
Definition block_lines (P : list Gen.pyitem) (l : Gen.pyline) (B Q : list Gen.pyitem)
  : list (Z * Gen.pyline) :=
  flush_lines 4 P ++ [(4, l)] ++ flush_lines 8 B ++ flush_lines 4 Q.

Definition block_stmts (P : list Gen.pyitem) (mk : list Exec.stmt -> Exec.stmt)
    (B Q : list Gen.pyitem) : list Exec.stmt :=
  flush_stmts P ++ [mk (flush_stmts B)] ++ flush_stmts Q ++ [Exec.SReturn].

(** The calls that a user of [CodeBuilder] makes on a builder, and the
    lines that they are meant to give from the indentation [level]. *)
Inductive builder_op : Set :=
  | OLine (line : Gen.pyline)
  | OIndent
  | ODedent.

Definition apply_op (o : builder_op) (b : CodeBuilder.t) : CodeBuilder.t :=
  match o with
  | OLine line => CodeBuilder.add_line line b
  | OIndent => CodeBuilder.indent b
  | ODedent => CodeBuilder.dedent b
  end.

Definition apply_ops (ops : list builder_op) (b : CodeBuilder.t) : CodeBuilder.t :=
  foldl (fun b o => apply_op o b) b ops.

Fixpoint op_level (level : Z) (ops : list builder_op) : Z :=
  match ops with
  | [] => level
  | OLine _ :: ops' => op_level level ops'
  | OIndent :: ops' => op_level (level + 4) ops'
  | ODedent :: ops' => op_level (level - 4) ops'
  end.

Fixpoint op_lines (level : Z) (ops : list builder_op) : list (Z * Gen.pyline) :=
  match ops with
  | [] => []
  | OLine line :: ops' => (level, line) :: op_lines level ops'
  | OIndent :: ops' => op_lines (level + 4) ops'
  | ODedent :: ops' => op_lines (level - 4) ops'
  end.

End Vocabulary.

(** ** Sample objects *)

Module Samples.
Import PyVal.


Definition two_dicts : gmap Template.loc (gmap string value) :=
  {[ 1%positive := {[ "punct" := PStr "!" ]};
     2%positive := {[ "name" := PStr "bob" ]} ]}.

End Samples.

(** * Properties *)

(** ** Strings *)

Module PyStrFacts.
Import PyStr.

Lemma app_cons a s t : String a s +:+ t = String a (s +:+ t).
Proof. reflexivity. Qed.

Lemma app_nil_l s : EmptyString +:+ s = s.
Proof. reflexivity. Qed.

Lemma app_nil_r s : s +:+ EmptyString = s.
Proof. induction s as [|a s IH]; [reflexivity|]. rewrite app_cons, IH. reflexivity. Qed.

Lemma app_assoc s t u : (s +:+ t) +:+ u = s +:+ (t +:+ u).
Proof.
  induction s as [|a s IH]; [reflexivity|].
  rewrite !app_cons, IH. reflexivity.
Qed.

Lemma length_app s t : String.length (s +:+ t) = (String.length s + String.length t)%nat.
Proof.
  induction s as [|a s IH]; [reflexivity|].
  rewrite app_cons. simpl. rewrite IH. reflexivity.
Qed.

Lemma concat_cons_first a l :
  String.concat EmptyString (cons_first a l) = String a (String.concat EmptyString l).
Proof.
  destruct l as [|w [|w' ws]]; reflexivity.
Qed.

Lemma concat_cons s l :
  String.concat EmptyString (s :: l) = s +:+ String.concat EmptyString l.
Proof.
  destruct l as [|w ws]; simpl; [|reflexivity].
  symmetry. apply app_nil_r.
Qed.

Lemma contains_cons p a r :
  contains p (String a r) = false -> contains p r = false.
Proof.
  simpl. destruct (startswith (String a r) p); [discriminate|]. auto.
Qed.

Lemma contains_startswith p s :
  contains p s = false -> startswith s p = false.
Proof.
  destruct s as [|a r]; simpl.
  - destruct (startswith EmptyString p); [discriminate|reflexivity].
  - destruct (startswith (String a r) p); [discriminate|reflexivity].
Qed.

End PyStrFacts.

(** ** The tokenizer *)

Module TokenizerFacts.
Import PyStr PyStrFacts Tokenizer Spec.

Lemma find_close_split c1 c2 s m rest :
  find_close c1 c2 s = Some (m, rest) ->
  s = m +:+ rest /\
  exists body, m = body +:+ String c1 (String c2 EmptyString).
Proof.
  revert m rest. induction s as [|a r IH]; intros m rest; [discriminate|].
  simpl. destruct r as [|b r']; [discriminate|].
  destruct (Ascii.eqb a c1 && Ascii.eqb b c2) eqn:E.
  - intros [= <- <-]. apply andb_prop in E as [Ea Eb].
    apply Ascii.eqb_eq in Ea as ->. apply Ascii.eqb_eq in Eb as ->.
    split; [reflexivity|]. exists EmptyString. reflexivity.
  - destruct (find_close c1 c2 (String b r')) as [[m' rest']|] eqn:F; [|discriminate].
    intros [= <- <-]. destruct (IH _ _ eq_refl) as [Hs [body Hm]].
    split.
    + rewrite app_cons. f_equal. exact Hs.
    + exists (String a body). rewrite app_cons. f_equal. exact Hm.
Qed.

Lemma find_close_head c1 c2 a r m rest :
  find_close c1 c2 (String a r) = Some (m, rest) -> exists m', m = String a m'.
Proof.
  simpl. destruct r as [|b r']; [discriminate|].
  destruct (Ascii.eqb a c1 && Ascii.eqb b c2); [intros [= <- <-]; eauto|].
  destruct (find_close c1 c2 (String b r')) as [[m' rest']|]; [|discriminate].
  intros [= <- <-]. eauto.
Qed.

(** The closer found is the first one: it occurs nowhere in the match
    before its end. *)
Lemma find_close_first c1 c2 s m rest :
  find_close c1 c2 s = Some (m, rest) ->
  forall k, (k + 2 < String.length m)%nat ->
            startswith (drop k m) (String c1 (String c2 EmptyString)) = false.
Proof.
  revert m rest. induction s as [|a r IH]; intros m rest; [discriminate|].
  simpl. destruct r as [|b r']; [discriminate|].
  destruct (Ascii.eqb a c1 && Ascii.eqb b c2) eqn:E.
  - intros [= <- <-] k Hk. simpl in Hk. lia.
  - destruct (find_close c1 c2 (String b r')) as [[m' rest']|] eqn:F; [|discriminate].
    intros [= <- <-] k Hk.
    destruct (find_close_head _ _ _ _ _ _ F) as [m'' ->].
    destruct k as [|k].
    + cbn [drop startswith]. rewrite (Ascii.eqb_sym c1 a), (Ascii.eqb_sym c2 b).
      destruct (Ascii.eqb a c1); [|reflexivity].
      simpl in E. rewrite E. reflexivity.
    + cbn [drop]. apply (IH _ _ eq_refl). simpl in Hk |- *. lia.
Qed.

Lemma closer_of_cases x c1 c2 :
  closer_of x = Some (c1, c2) ->
  (x = "{" /\ c1 = "}" /\ c2 = "}")%char \/
  (x = "%" /\ c1 = "%" /\ c2 = "}")%char \/
  (x = "#" /\ c1 = "#" /\ c2 = "}")%char.
Proof.
  unfold closer_of.
  destruct (Ascii.eqb x "{") eqn:E1; [apply Ascii.eqb_eq in E1; intros [= <- <-]; auto|].
  destruct (Ascii.eqb x "%") eqn:E2; [apply Ascii.eqb_eq in E2; intros [= <- <-]; auto|].
  destruct (Ascii.eqb x "#") eqn:E3; [apply Ascii.eqb_eq in E3; intros [= <- <-]; auto 6|].
  discriminate.
Qed.

(** A match is a tag, it is the head of the text, and it is not empty. *)
Lemma match_tag_split s m rest :
  match_tag s = Some (m, rest) ->
  s = m +:+ rest /\ is_tag m /\ (String.length rest < String.length s)%nat.
Proof.
  unfold match_tag. destruct s as [|o [|x body]]; try discriminate.
  destruct (Ascii.eqb o "{") eqn:Eo; [|discriminate].
  apply Ascii.eqb_eq in Eo as ->.
  destruct (closer_of x) as [[c1 c2]|] eqn:Ec; [|discriminate].
  destruct (find_close c1 c2 body) as [[m' rest']|] eqn:F; [|discriminate].
  intros [= <- <-]. destruct (find_close_split _ _ _ _ _ F) as [Hs [b Hm]].
  split; [|split].
  - rewrite !app_cons. do 2 f_equal. exact Hs.
  - unfold is_tag, delimited. subst m'.
    destruct (closer_of_cases _ _ _ Ec) as [(-> & -> & ->)|[(-> & -> & ->)|(-> & -> & ->)]];
      [left|right; left|right; right]; exists b; reflexivity.
  - subst body. simpl. rewrite length_app. lia.
Qed.

Lemma split_loop_concat fuel s :
  String.concat EmptyString (split_loop fuel s) = s.
Proof.
  revert s. induction fuel as [|fuel IH]; intros s; [reflexivity|].
  simpl. destruct (match_tag s) as [[m rest]|] eqn:M.
  - destruct (match_tag_split _ _ _ M) as [Hs _].
    rewrite !concat_cons, IH, app_nil_l. congruence.
  - destruct s as [|a r]; [reflexivity|].
    rewrite concat_cons_first, IH. reflexivity.
Qed.

Lemma pieces_cons_first a l : pieces l -> pieces (cons_first a l).
Proof. intros [text|text tag rest Ht Hr]; simpl; constructor; assumption. Qed.

Lemma split_loop_pieces fuel s : pieces (split_loop fuel s).
Proof.
  revert s. induction fuel as [|fuel IH]; intros s; [constructor|].
  simpl. destruct (match_tag s) as [[m rest]|] eqn:M.
  - destruct (match_tag_split _ _ _ M) as (_ & Ht & _).
    constructor; [exact Ht|apply IH].
  - destruct s as [|a r]; [constructor|].
    apply pieces_cons_first, IH.
Qed.

(** Without a delimiter sequence nothing matches. *)
Lemma match_tag_no_delimiter s :
  has_delimiter s = false -> match_tag s = None.
Proof.
  unfold has_delimiter. intros Hd.
  apply orb_false_elim in Hd as [Hd H3]. apply orb_false_elim in Hd as [H1 H2].
  apply contains_startswith in H1, H2, H3.
  unfold match_tag. destruct s as [|o [|x body]]; try reflexivity.
  destruct (Ascii.eqb o "{") eqn:Eo; [|reflexivity].
  apply Ascii.eqb_eq in Eo as ->.
  destruct (closer_of x) as [[c1 c2]|] eqn:Ec; [|reflexivity].
  exfalso.
  destruct (closer_of_cases _ _ _ Ec) as [(-> & _)|[(-> & _)|(-> & _)]];
    simpl in H1, H2, H3; congruence.
Qed.

Lemma has_delimiter_cons a r :
  has_delimiter (String a r) = false -> has_delimiter r = false.
Proof.
  unfold has_delimiter. intros Hd.
  apply orb_false_elim in Hd as [Hd H3]. apply orb_false_elim in Hd as [H1 H2].
  apply contains_cons in H1, H2, H3. rewrite H1, H2, H3. reflexivity.
Qed.

Lemma split_loop_no_delimiter fuel s :
  has_delimiter s = false -> split_loop fuel s = [s].
Proof.
  revert s. induction fuel as [|fuel IH]; intros s Hd; [reflexivity|].
  simpl. rewrite (match_tag_no_delimiter _ Hd).
  destruct s as [|a r]; [reflexivity|].
  rewrite (IH _ (has_delimiter_cons _ _ Hd)). reflexivity.
Qed.

Lemma classify_no_delimiter s :
  has_delimiter s = false -> classify s = Literal.
Proof.
  unfold has_delimiter. intros Hd.
  apply orb_false_elim in Hd as [Hd H3]. apply orb_false_elim in Hd as [H1 H2].
  apply contains_startswith in H1, H2, H3.
  unfold classify. rewrite H1, H2, H3. reflexivity.
Qed.

(** Fuel beyond the length of the text changes nothing: every turn of
    the loop takes at least one character. *)
Lemma split_loop_fuel fuel1 fuel2 s :
  (String.length s <= fuel1)%nat -> (String.length s <= fuel2)%nat ->
  split_loop fuel1 s = split_loop fuel2 s.
Proof.
  revert fuel2 s. induction fuel1 as [|fuel1 IH]; intros fuel2 s H1 H2.
  - destruct s; [|simpl in H1; lia]. destruct fuel2; reflexivity.
  - destruct fuel2 as [|fuel2].
    { destruct s; [reflexivity|simpl in H2; lia]. }
    simpl. destruct (match_tag s) as [[m rest]|] eqn:M.
    + destruct (match_tag_split _ _ _ M) as (_ & _ & Hlen).
      rewrite (IH fuel2 rest); [reflexivity|lia..].
    + destruct s as [|a r]; [reflexivity|]. simpl in H1, H2.
      rewrite (IH fuel2 r); [reflexivity|lia..].
Qed.

Lemma tokenize_fuel fuel template :
  (String.length template <= fuel)%nat -> split_loop fuel template = _tokenize template.
Proof. intros Hf. apply split_loop_fuel; [exact Hf|reflexivity]. Qed.

End TokenizerFacts.

(** ** The tokenizer and [re.split] *)

Module SplitFacts.
Import PyStr PyStrFacts Tokenizer Spec TokenizerFacts.

Lemma drop_app_le k s t :
  (k <= String.length s)%nat -> drop k (s +:+ t) = drop k s +:+ t.
Proof.
  revert s. induction k as [|k IH]; intros s Hk; [reflexivity|].
  destruct s as [|a s]; [simpl in Hk; lia|].
  rewrite app_cons. cbn [drop]. apply IH. simpl in Hk. lia.
Qed.

Lemma drop_all k s : (String.length s <= k)%nat -> drop k s = EmptyString.
Proof.
  revert s. induction k as [|k IH]; intros s Hk.
  - destruct s; [reflexivity|simpl in Hk; lia].
  - destruct s as [|a s]; [reflexivity|]. cbn [drop]. apply IH. simpl in Hk. lia.
Qed.

Lemma find_close_cons c1 c2 a b r :
  find_close c1 c2 (String a (String b r))
  = if Ascii.eqb a c1 && Ascii.eqb b c2
    then Some (String a (String b EmptyString), r)
    else match find_close c1 c2 (String b r) with
         | Some (m, rest) => Some (String a m, rest)
         | None => None
         end.
Proof. reflexivity. Qed.

(** The first closer in a text, found by [find_close]. *)
Lemma find_close_shortest c1 c2 body rest :
  (forall k, (k < String.length body)%nat ->
             startswith (drop k (body +:+ String c1 (String c2 EmptyString)))
               (String c1 (String c2 EmptyString)) = false) ->
  find_close c1 c2 ((body +:+ String c1 (String c2 EmptyString)) +:+ rest)
  = Some (body +:+ String c1 (String c2 EmptyString), rest).
Proof.
  induction body as [|a body IH]; intros Hmin.
  - rewrite !app_nil_l, !app_cons, app_nil_l. cbn [find_close].
    rewrite !Ascii.eqb_refl. reflexivity.
  - pose proof (Hmin 0%nat ltac:(simpl; lia)) as H0. cbn [drop] in H0.
    assert (Hnext : exists b r, body +:+ String c1 (String c2 EmptyString) = String b r).
    { destruct body; [rewrite app_nil_l|rewrite app_cons]; eexists _, _; reflexivity. }
    destruct Hnext as (b & r & Hbr).
    specialize (IH ltac:(intros k Hk; apply (Hmin (S k)); simpl; lia)).
    rewrite (app_cons a body) in H0 |- *. rewrite Hbr in H0, IH |- *.
    rewrite app_cons in IH. rewrite !app_cons.
    cbn [startswith] in H0. rewrite andb_true_r in H0.
    rewrite find_close_cons.
    rewrite (Ascii.eqb_sym a c1), (Ascii.eqb_sym b c2), H0, IH. reflexivity.
Qed.

Lemma shortest_length o c tag :
  shortest o c tag -> (String.length o + String.length c <= String.length tag)%nat.
Proof. intros (body & -> & _). rewrite !length_app. lia. Qed.

(** A match of the tokenizer is a tag at the head of the text, and a tag
    at the head of the text is the match. *)
Lemma match_tag_spec s tag rest :
  match_tag s = Some (tag, rest) <-> tag_at_head s tag rest.
Proof.
  split.
  - unfold match_tag. destruct s as [|o [|x body0]]; try discriminate.
    destruct (Ascii.eqb_spec o "{") as [->|]; [|discriminate].
    destruct (closer_of x) as [[c1 c2]|] eqn:Ec; [|discriminate].
    destruct (find_close c1 c2 body0) as [[m r]|] eqn:F; [|discriminate].
    intros [= <- <-]. destruct (find_close_split _ _ _ _ _ F) as [Hs [body Hm]].
    pose proof (find_close_first _ _ _ _ _ F) as Hmin.
    split; [rewrite !app_cons; do 2 f_equal; exact Hs|].
    assert (Hsh : forall k, (k < String.length body)%nat ->
                            startswith (drop k (body +:+ String c1 (String c2 EmptyString)))
                              (String c1 (String c2 EmptyString)) = false).
    { intros k Hk. rewrite <- Hm. apply Hmin. rewrite Hm, length_app. simpl. lia. }
    rewrite Hm.
    destruct (closer_of_cases _ _ _ Ec) as [(-> & -> & ->)|[(-> & -> & ->)|(-> & -> & ->)]];
      [left|right; left|right; right]; exists body; split; try reflexivity; exact Hsh.
  - intros [-> Hsh].
    assert (Hcase : exists x c1 c2 body,
               closer_of x = Some (c1, c2) /\
               tag = String "{" (String x (body +:+ String c1 (String c2 EmptyString))) /\
               forall k, (k < String.length body)%nat ->
                         startswith (drop k (body +:+ String c1 (String c2 EmptyString)))
                           (String c1 (String c2 EmptyString)) = false).
    { destruct Hsh as [(body & -> & Hmin)|[(body & -> & Hmin)|(body & -> & Hmin)]];
        eexists _, _, _, body; (split; [|split; [reflexivity|exact Hmin]]); reflexivity. }
    destruct Hcase as (x & c1 & c2 & body & Ec & -> & Hmin).
    rewrite !app_cons. unfold match_tag. rewrite Ascii.eqb_refl, Ec.
    rewrite (find_close_shortest c1 c2 body rest Hmin). reflexivity.
Qed.

Lemma no_tag_match k s : no_tag_from k s <-> match_tag (drop k s) = None.
Proof.
  unfold no_tag_from. split.
  - intros Hno. destruct (match_tag (drop k s)) as [[tag rest]|] eqn:M; [|reflexivity].
    exfalso. apply (Hno tag rest). apply match_tag_spec. exact M.
  - intros M tag rest Ht. apply match_tag_spec in Ht. congruence.
Qed.

Lemma no_tag_cons a r :
  match_tag (String a r) = None ->
  forall k', (forall k, (k < k')%nat -> no_tag_from k r) ->
             forall k, (k < S k')%nat -> no_tag_from k (String a r).
Proof.
  intros M k' Hr [|k] Hk; [apply (no_tag_match 0), M|].
  intros tag rest. cbn [drop]. apply Hr. lia.
Qed.

(** Putting a character that begins no tag in front of a text. *)
Lemma split_of_cons a r l :
  match_tag (String a r) = None -> split_of r l -> split_of (String a r) (cons_first a l).
Proof.
  intros M Hs. destruct Hs as [r Hno|text tag after rest Hno Ht Hrest]; cbn [cons_first].
  - apply split_text. intros [|k]; [apply (no_tag_match 0), M|].
    intros tag rest. cbn [drop]. apply Hno.
  - rewrite <- app_cons. apply split_tag; [|exact Ht|exact Hrest].
    rewrite app_cons. apply (no_tag_cons a _ M). exact Hno.
Qed.

(** The tokenizer gives the pieces that [re.split] is said to give. *)
Lemma split_loop_split_of fuel s :
  (String.length s <= fuel)%nat -> split_of s (split_loop fuel s).
Proof.
  revert s. induction fuel as [|fuel IH]; intros s Hf.
  - destruct s; [|simpl in Hf; lia]. apply split_text.
    intros k tag rest Ht. apply match_tag_spec in Ht. destruct k; discriminate.
  - cbn [split_loop]. destruct (match_tag s) as [[m rest]|] eqn:M.
    + destruct (match_tag_split _ _ _ M) as (Hs & _ & Hlen).
      pose proof (proj1 (match_tag_spec _ _ _) M) as Ht.
      rewrite Hs in Ht |- *.
      change (split_of (EmptyString +:+ m +:+ rest)
                (EmptyString :: m :: split_loop fuel rest)).
      apply split_tag; [intros k Hk; simpl in Hk; lia|exact Ht|].
      apply IH. lia.
    + destruct s as [|a r].
      * apply split_text. intros k tag rest Ht. apply match_tag_spec in Ht.
        destruct k; discriminate.
      * apply split_of_cons; [exact M|]. apply IH. simpl in Hf. lia.
Qed.

Lemma tag_at_head_length s tag rest :
  tag_at_head s tag rest -> (String.length rest + 4 <= String.length s)%nat.
Proof.
  intros [-> Hsh]. rewrite length_app.
  destruct Hsh as [H|[H|H]]; apply shortest_length in H; simpl in H; lia.
Qed.

(** And only these. *)
Lemma split_of_unique s l :
  split_of s l -> forall fuel, (String.length s <= fuel)%nat -> split_loop fuel s = l.
Proof.
  induction 1 as [s Hno|text tag after rest Hno Ht Hrest IH].
  - intros fuel _. revert s Hno. induction fuel as [|fuel IHf]; intros s Hno; [reflexivity|].
    pose proof (proj1 (no_tag_match 0 s) (Hno 0%nat)) as M0. cbn [drop] in M0.
    cbn [split_loop]. rewrite M0.
    destruct s as [|a r]; [reflexivity|].
    rewrite (IHf r); [reflexivity|]. intros k tag rest. apply (Hno (S k)).
  - revert Hno. induction text as [|a text IHt]; intros Hno fuel Hf.
    + rewrite app_nil_l in *.
      pose proof (tag_at_head_length _ _ _ Ht) as Hlen.
      destruct fuel as [|fuel]; [lia|].
      cbn [split_loop]. rewrite (proj2 (match_tag_spec _ _ _) Ht).
      rewrite (IH fuel) by lia. reflexivity.
    + rewrite app_cons in *. destruct fuel as [|fuel]; [simpl in Hf; lia|].
      pose proof (proj1 (no_tag_match 0 _) (Hno 0%nat ltac:(simpl; lia))) as M0.
      cbn [drop] in M0. cbn [split_loop]. rewrite M0.
      rewrite (IHt ltac:(intros k Hk tag' rest'; apply (Hno (S k)); simpl; lia) fuel
                 ltac:(simpl in Hf; lia)).
      reflexivity.
Qed.

(** A tag that begins in a text begins there in any text that it
    starts. *)
Lemma tag_at_head_app s tag rest t :
  tag_at_head s tag rest -> tag_at_head (s +:+ t) tag (rest +:+ t).
Proof. intros [-> Hsh]. split; [apply app_assoc|exact Hsh]. Qed.

Lemma no_tag_prefix text more k :
  (forall j, (j < String.length text)%nat -> no_tag_from j (text +:+ more)) ->
  no_tag_from k text.
Proof.
  intros Hno tag rest Ht.
  destruct (Nat.lt_ge_cases k (String.length text)) as [Hk|Hk].
  - apply (Hno k Hk tag (rest +:+ more)).
    rewrite drop_app_le by lia. apply tag_at_head_app, Ht.
  - rewrite drop_all in Ht by lia. apply tag_at_head_length in Ht. simpl in Ht. lia.
Qed.

(** The texts of a split hold no tag, and the pieces between them are
    tags. *)
Lemma split_of_texts s l :
  split_of s l ->
  forall i token, l !! (2 * i)%nat = Some token -> forall k, no_tag_from k token.
Proof.
  induction 1 as [s Hno|text tag after rest Hno Ht Hrest IH]; intros i token.
  - destruct i as [|i]; [intros [= <-]; exact Hno|].
    replace (2 * S i)%nat with (S (S (2 * i))) by lia. discriminate.
  - destruct i as [|i].
    + intros [= <-] k. eapply no_tag_prefix, Hno.
    + replace (2 * S i)%nat with (S (S (2 * i))) by lia. cbn [lookup list_lookup].
      apply IH.
Qed.

Lemma split_of_tags s l :
  split_of s l ->
  forall i token, l !! (2 * i + 1)%nat = Some token ->
                  shortest "{{" "}}" token \/ shortest "{%" "%}" token
                  \/ shortest "{#" "#}" token.
Proof.
  induction 1 as [s Hno|text tag after rest Hno Ht Hrest IH]; intros i token.
  - replace (2 * i + 1)%nat with (S (2 * i)) by lia. discriminate.
  - destruct i as [|i].
    + intros [= <-]. apply Ht.
    + replace (2 * S i + 1)%nat with (S (S (2 * i + 1))) by lia. cbn [lookup list_lookup].
      apply IH.
Qed.

Lemma shortest_delimited o c tag : shortest o c tag -> delimited o c tag.
Proof. intros (body & -> & _). exists body. reflexivity. Qed.

End SplitFacts.

Module TokenizerResults.
Import PyStr PyStrFacts Tokenizer Spec TokenizerFacts SplitFacts.

Lemma delimited_startswith o c token :
  delimited o c token -> startswith token o = true.
Proof.
  intros [body ->]. induction o as [|a o IH]; [reflexivity|].
  rewrite app_cons. simpl. rewrite Ascii.eqb_refl. exact IH.
Qed.

Lemma classify_by_prefix token :
  (classify token = Comment <-> startswith token "{#" = true) /\
  (classify token = Output <-> startswith token "{{" = true) /\
  (classify token = Action <-> startswith token "{%" = true) /\
  (classify token = Literal <->
     startswith token "{#" = false /\ startswith token "{{" = false /\
     startswith token "{%" = false).
Proof.
  unfold classify.
  destruct token as [|a [|b r]]; cbn [startswith];
    rewrite ?andb_false_r; try (intuition congruence).
  destruct (Ascii.eqb_spec "{" a) as [<-|Ha]; cbn [andb];
    [|intuition congruence].
  rewrite !andb_true_r.
  destruct (Ascii.eqb_spec "#" b) as [<-|H1];
    [cbv; intuition congruence|].
  destruct (Ascii.eqb_spec "{" b) as [<-|H2];
    [cbv; intuition congruence|].
  destruct (Ascii.eqb_spec "%" b) as [<-|H3]; intuition congruence.
Qed.

Lemma is_tag_classify token :
  (delimited "{{" "}}" token -> classify token = Output) /\
  (delimited "{%" "%}" token -> classify token = Action) /\
  (delimited "{#" "#}" token -> classify token = Comment).
Proof.
  repeat split; intros Hd; apply delimited_startswith in Hd;
    apply classify_by_prefix; exact Hd.
Qed.

(** C7. For every template text, newlines included, the tokenizer gives
    substrings whose concatenation is the text.  They are the pieces
    that [re.split] is said to give for the pattern of the three tags,
    and the only list of pieces that is: a text, then a tag and a text
    in turn, where no tag begins in a text before the tag that ends it,
    every tag is the shortest one at its place, and the last text holds
    no tag.  More fuel than the length of the text gives the same
    substrings.  The compile loop classifies a substring by its first two
    characters: a tag [{{...}}] is Output, [{%...%}] Action, [{#...#}]
    Comment; every other substring is Literal unless it begins with one
    of [{#], [{{], [{%], an opener without its closer, which is classified
    as the tag it opens. *)
Theorem C7_tokenize_concat_classify (template : string) :
  String.concat EmptyString (_tokenize template) = template /\
  split_of template (_tokenize template) /\
  (forall l, split_of template l -> l = _tokenize template) /\
  pieces (_tokenize template) /\
  (forall fuel, (String.length template <= fuel)%nat ->
                split_loop fuel template = _tokenize template) /\
  (forall i token,
      _tokenize template !! (2 * i + 1)%nat = Some token ->
      (shortest "{{" "}}" token /\ classify token = Output) \/
      (shortest "{%" "%}" token /\ classify token = Action) \/
      (shortest "{#" "#}" token /\ classify token = Comment)) /\
  (forall i token,
      _tokenize template !! (2 * i)%nat = Some token ->
      forall k, no_tag_from k token) /\
  forall token,
    (delimited "{{" "}}" token -> classify token = Output) /\
    (delimited "{%" "%}" token -> classify token = Action) /\
    (delimited "{#" "#}" token -> classify token = Comment) /\
    (classify token = Comment <-> startswith token "{#" = true) /\
    (classify token = Output <-> startswith token "{{" = true) /\
    (classify token = Action <-> startswith token "{%" = true) /\
    (classify token = Literal <->
       startswith token "{#" = false /\ startswith token "{{" = false /\
       startswith token "{%" = false).
Proof.
  pose proof (split_loop_split_of (String.length template) template (le_n _)) as Hsplit.
  fold (_tokenize template) in Hsplit.
  split; [apply split_loop_concat|].
  split; [exact Hsplit|].
  split; [intros l Hl; symmetry; apply (split_of_unique _ _ Hl), le_n|].
  split; [apply split_loop_pieces|].
  split; [intros fuel; apply tokenize_fuel|].
  split.
  { intros i token Hi.
    destruct (is_tag_classify token) as (H1 & H2 & H3).
    destruct (split_of_tags _ _ Hsplit i token Hi) as [H|[H|H]];
      [left|right; left|right; right]; (split; [exact H|]);
      auto using shortest_delimited. }
  split; [apply (split_of_texts _ _ Hsplit)|].
  intros token.
  destruct (is_tag_classify token) as (H1 & H2 & H3).
  destruct (classify_by_prefix token) as (H4 & H5 & H6 & H7).
  split; [exact H1|]. split; [exact H2|]. split; [exact H3|].
  split; [exact H4|]. split; [exact H5|]. split; [exact H6|exact H7].
Qed.

End TokenizerResults.

(** ** The heap of dictionaries *)

Module HeapFacts.
Import Host Template.

Section WithHost.
Context {V : Type} `{Ops V}.

Abbreviation heap := (gmap loc (gmap string V)).

Lemma fresh_not_allocated (h : heap) (l : loc) :
  is_Some (h !! l) -> l <> fresh (dom h).
Proof.
  intros Hl ->. apply (is_fresh (dom h)). apply elem_of_dom. exact Hl.
Qed.





Lemma render_result (self : t) (ctx : option loc) (h : heap) (d0 : gmap string V) :
  h !! context self = Some d0 ->
  (forall c, ctx = Some c -> is_Some (h !! c)) ->
  fst (render self ctx h)
  = Exec.call_render_function (effective d0 (ctx ≫= (h !!.))) (_render_function self).
Proof.
  intros H0 Hc. unfold render. rewrite H0. unfold new_dict.
  set (rc := fresh (dom h)). set (h1 := <[rc := d0]> h).
  assert (Hrc : h1 !! rc = Some d0) by apply lookup_insert_eq.
  destruct ctx as [c|]; simpl; [|rewrite Hrc; reflexivity].
  destruct (Hc c eq_refl) as [dc Hdc]. rewrite Hdc. simpl.
  assert (H1c : h1 !! c = Some dc).
  { unfold h1. rewrite lookup_insert_ne; [exact Hdc|].
    intros <-. apply (fresh_not_allocated h rc); [eauto|reflexivity]. }
  rewrite H1c. case_bool_decide as Hd; simpl.
  - rewrite Hrc. subst dc. rewrite (left_id_L ∅ (∪)). reflexivity.
  - unfold dict_update. rewrite Hrc, H1c. rewrite lookup_insert_eq. reflexivity.
Qed.

End WithHost.
End HeapFacts.

Module RenderResults.
Import Host Template HeapFacts.

Section WithHost.
Context {V : Type} `{Ops V}.


End WithHost.
End RenderResults.

(** ** Templates without tags *)

Module LiteralFacts.
Import PyStr PyStrFacts Tokenizer Spec TokenizerFacts Host.

Lemma compile_literal (text : string) :
  has_delimiter text = false ->
  Template.compile text = Ok (∅, ∅, literal_function text).
Proof.
  intros Hd. unfold Template.compile, Compile.build, _tokenize.
  rewrite (split_loop_no_delimiter _ _ Hd).
  unfold Compile.loop, Compile.step. rewrite (classify_no_delimiter _ Hd).
  unfold literal_function.
  destruct (String.eqb text EmptyString); reflexivity.
Qed.

Section WithHost.
Context {V : Type} `{Ops V}.

Lemma join_single (text : string) : PyStr.join EmptyString [text] = text.
Proof. reflexivity. Qed.

Lemma call_literal (d : gmap string V) (text : string) :
  Exec.call_render_function d (literal_function text) = Ok text.
Proof.
  unfold literal_function.
  destruct (String.eqb_spec text EmptyString) as [->|Hne]; reflexivity.
Qed.

End WithHost.
End LiteralFacts.

Module LiteralResults.
Import Spec Host Template HeapFacts LiteralFacts.

Section WithHost.
Context {V : Type} `{Ops V}.

Lemma dict_update_ok (target source : loc) (h : gmap loc (gmap string V)) :
  is_Some (h !! target) -> is_Some (h !! source) ->
  fst (dict_update target source h) = Ok tt /\
  forall l, is_Some (h !! l) -> is_Some (snd (dict_update target source h) !! l).
Proof.
  intros [dt Ht] [ds Hs]. unfold dict_update. rewrite Ht, Hs. simpl.
  split; [reflexivity|]. intros l Hl.
  destruct (decide (target = l)) as [<-|Hne].
  - rewrite lookup_insert_eq. eauto.
  - rewrite lookup_insert_ne; assumption.
Qed.

Lemma update_all_ok (target : loc) (contexts : list loc) (h : gmap loc (gmap string V)) :
  is_Some (h !! target) ->
  (forall c, c ∈ contexts -> is_Some (h !! c)) ->
  fst (update_all target contexts h) = Ok tt /\
  is_Some (snd (update_all target contexts h) !! target).
Proof.
  revert h. induction contexts as [|c cs IH]; intros h Ht Hcs; [split; [reflexivity|exact Ht]|].
  simpl.
  destruct (dict_update_ok target c h Ht) as [Hok Hkeep];
    [apply Hcs; left|].
  destruct (dict_update target c h) as [r h'] eqn:E. simpl in Hok, Hkeep. subst r.
  apply IH; [apply Hkeep, Ht|].
  intros c' Hc'. apply Hkeep, Hcs. right. exact Hc'.
Qed.

(** C8. For every text without the delimiter sequences [{{], [{%] and
    [{#], whatever default contexts the template is built with, the
    construction succeeds, and [render] returns the text unchanged for
    any context. *)
Theorem C8_literal_text_renders_unchanged
    (text : string) (contexts : list loc) (h : gmap loc (gmap string V)) :
  has_delimiter text = false ->
  (forall c, c ∈ contexts -> is_Some (h !! c)) ->
  exists (self : t) (h1 : gmap loc (gmap string V)),
    __init__ text contexts h = (Ok self, h1) /\
    is_Some (h1 !! context self) /\
    forall (ctx : option loc) (h2 : gmap loc (gmap string V)),
      is_Some (h2 !! context self) ->
      (forall c, ctx = Some c -> is_Some (h2 !! c)) ->
      fst (render self ctx h2) = Ok text.
Proof.
  intros Hd Hcs. unfold __init__, new_dict.
  set (l := fresh (dom h)). set (h0 := <[l := ∅]> h).
  destruct (update_all_ok l contexts h0) as [Hok Hl].
  { unfold h0. rewrite lookup_insert_eq. eauto. }
  { intros c Hc. unfold h0. destruct (decide (l = c)) as [<-|Hne].
    - rewrite lookup_insert_eq. eauto.
    - rewrite lookup_insert_ne; [apply Hcs, Hc|exact Hne]. }
  destruct (update_all l contexts h0) as [r h1]. simpl in Hok, Hl. subst r.
  rewrite (compile_literal _ Hd). simpl.
  eexists _, h1. split; [reflexivity|]. split; [exact Hl|].
  intros ctx h2 [d0 H0] Hc.
  erewrite render_result; [apply call_literal|exact H0|exact Hc].
Qed.

End WithHost.
End LiteralResults.

(** ** Expressions *)

Module ExprFacts.
Import PyStr PyStrFacts Gen Compile Spec.

Lemma hd_split_on_no_sep sep s :
  contains_char sep (hd EmptyString (split_on sep s)) = false.
Proof.
  induction s as [|a r IH]; [reflexivity|].
  simpl. destruct (Ascii.eqb a sep) eqn:E; [reflexivity|].
  destruct (split_on sep r) as [|w ws]; simpl in *; rewrite E; [reflexivity|exact IH].
Qed.

Lemma hd_split_on_sub c sep s :
  contains_char c s = false ->
  contains_char c (hd EmptyString (split_on sep s)) = false.
Proof.
  induction s as [|a r IH]; [reflexivity|].
  simpl. destruct (Ascii.eqb a c) eqn:Ec; [discriminate|]. intros Hr.
  destruct (Ascii.eqb a sep); [reflexivity|].
  destruct (split_on sep r) as [|w ws]; simpl in *; rewrite Ec; [reflexivity|auto].
Qed.

Lemma split_on_absent sep s :
  contains_char sep s = false -> split_on sep s = [s].
Proof.
  induction s as [|a r IH]; [reflexivity|].
  simpl. destruct (Ascii.eqb a sep); [discriminate|].
  intros Hr. rewrite (IH Hr). reflexivity.
Qed.

Lemma split_on_present sep s :
  contains_char sep s = true -> tl (split_on sep s) <> [].
Proof.
  induction s as [|a r IH]; [discriminate|].
  simpl. destruct (Ascii.eqb a sep).
  - intros _. destruct r; simpl; [discriminate|].
    destruct (Ascii.eqb _ sep); [discriminate|].
    destruct (split_on sep r); discriminate.
  - intros Hr. specialize (IH Hr).
    destruct (split_on sep r) as [|w ws]; [contradiction|exact IH].
Qed.

Lemma _variable_ok name vars_set :
  _variable name vars_set = Ok ({[name]} ∪ vars_set).
Proof. reflexivity. Qed.

Lemma pipe_loop_ok funcs code all_vars :
  pipe_loop funcs code all_vars
  = Ok (apply_filters_code funcs code, list_to_set funcs ∪ all_vars).
Proof.
  revert code all_vars. induction funcs as [|f fs IH]; intros code all_vars.
  - simpl. f_equal. f_equal. set_solver.
  - simpl. rewrite IH. f_equal. f_equal. set_solver.
Qed.

Lemma expr_code_rec_S fuel expr all_vars :
  _expr_code_rec (S fuel) expr all_vars =
  if contains_char "|" expr then
    '(code, all_vars1) ← _expr_code_rec fuel (hd EmptyString (split_on "|" expr)) all_vars;
    pipe_loop (tl (split_on "|" expr)) code all_vars1
  else if contains_char "." expr then
    '(code, all_vars1) ← _expr_code_rec fuel (hd EmptyString (split_on "." expr)) all_vars;
    Ok (EDots code (tl (split_on "." expr)), all_vars1)
  else
    all_vars1 ← _variable expr all_vars;
    Ok (EName expr, all_vars1).
Proof. reflexivity. Qed.

(** A bare name, with fuel for one level. *)
Lemma expr_code_name fuel expr all_vars :
  contains_char "|" expr = false -> contains_char "." expr = false ->
  _expr_code_rec (S fuel) expr all_vars = Ok (EName expr, {[expr]} ∪ all_vars).
Proof. intros Hp Hd. rewrite expr_code_rec_S, Hp, Hd. reflexivity. Qed.

(** A base, dotted or not, with fuel for two levels. *)
Lemma expr_code_base fuel expr all_vars :
  contains_char "|" expr = false ->
  _expr_code_rec (S (S fuel)) expr all_vars
  = Ok (base_of expr, {[hd EmptyString (split_on "." expr)]} ∪ all_vars).
Proof.
  intros Hp. unfold base_of. rewrite (split_on_absent "|" expr Hp).
  cbn [hd]. rewrite expr_code_rec_S, Hp.
  destruct (contains_char "." expr) eqn:Hd.
  - rewrite expr_code_name;
      [|apply hd_split_on_sub, Hp|apply hd_split_on_no_sep].
    simpl. pose proof (split_on_present _ _ Hd) as Hne.
    destruct (tl (split_on "." expr)); [contradiction|reflexivity].
  - rewrite (split_on_absent "." expr Hd). reflexivity.
Qed.

(** [_expr_code] in closed form: it never fails, and three levels of
    calls are enough for every text. *)
Lemma expr_code_rec_closed fuel expr all_vars :
  _expr_code_rec (3 + fuel) expr all_vars
  = Ok (expr_of expr, names_of expr ∪ all_vars).
Proof.
  unfold expr_of, names_of, filters_of.
  change (3 + fuel)%nat with (S (S (S fuel))).
  destruct (contains_char "|" expr) eqn:Hp.
  - rewrite expr_code_rec_S, Hp.
    rewrite expr_code_base by apply hd_split_on_no_sep.
    simpl. rewrite pipe_loop_ok. f_equal. f_equal.
    + unfold base_of.
      rewrite (split_on_absent "|" (hd EmptyString (split_on "|" expr)))
        by apply hd_split_on_no_sep.
      reflexivity.
    + set_solver.
  - rewrite expr_code_base by exact Hp.
    rewrite (split_on_absent "|" expr Hp). simpl. f_equal. f_equal. set_solver.
Qed.

Lemma expr_code_closed expr all_vars :
  _expr_code expr all_vars = Ok (expr_of expr, names_of expr ∪ all_vars).
Proof. apply (expr_code_rec_closed 0). Qed.

Lemma expr_code_fuel fuel expr all_vars :
  _expr_code_rec (3 + fuel) expr all_vars = _expr_code expr all_vars.
Proof. rewrite expr_code_closed. apply expr_code_rec_closed. Qed.

Lemma expr_code_in_closed expr s :
  expr_code_in expr s
  = Ok (expr_of expr, set_all_vars (names_of expr ∪ all_vars s) s).
Proof. unfold expr_code_in. rewrite expr_code_closed. reflexivity. Qed.

End ExprFacts.

(** ** The compile loop *)

Module CompileFacts.
Import PyStr PyStrFacts Gen Tokenizer Compile Spec ExprFacts.

Lemma loop_app pre post s :
  loop (pre ++ post) s = s' ← loop pre s; loop post s'.
Proof.
  revert s. induction pre as [|token pre IH]; intros s; [reflexivity|].
  simpl. destruct (step token s) as [s1|e|]; simpl; [apply IH|reflexivity..].
Qed.

(** A failure of the loop is the failure of one token, the tokens before
    it having gone through. *)
Lemma loop_raise tokens s e :
  loop tokens s = Raise e ->
  exists pre token post s',
    tokens = pre ++ token :: post /\ loop pre s = Ok s' /\ step token s' = Raise e.
Proof.
  revert s. induction tokens as [|token tokens IH]; intros s; [discriminate|].
  simpl. destruct (step token s) as [s1|e1|] eqn:E; simpl; [|intros [= <-]|discriminate].
  - intros Hl. destruct (IH _ Hl) as (pre & tk & post & s' & -> & Hpre & Hstep).
    exists (token :: pre), tk, post, s'. simpl. rewrite E. simpl. auto.
  - exists [], token, tokens, s. auto.
Qed.

Lemma loop_step_raise pre token post s s' e :
  loop pre s = Ok s' -> step token s' = Raise e ->
  loop (pre ++ token :: post) s = Raise e.
Proof.
  intros Hpre Hstep. rewrite loop_app, Hpre. simpl. rewrite Hstep. reflexivity.
Qed.

Lemma flush_ops_stack s : ops_stack (flush_output s) = ops_stack s.
Proof. unfold flush_output. destruct (buffered s) as [|x [|y xs]]; reflexivity. Qed.

Lemma lstrip_blank s : blank s = true -> lstrip s = EmptyString.
Proof.
  induction s as [|a r IH]; [reflexivity|].
  simpl. destruct (Ascii.is_space a); [exact IH|discriminate].
Qed.

Lemma words_of_blank token : blank (inner token) = true -> words_of token = [].
Proof.
  intros Hb. unfold words_of, strip. rewrite (lstrip_blank _ Hb). reflexivity.
Qed.

Lemma end_word_not_keyword w :
  startswith w "end" = true ->
  String.eqb w "if" = false /\ String.eqb w "for" = false.
Proof.
  destruct w as [|a w]; [discriminate|]. cbn [startswith].
  destruct (Ascii.eqb_spec "e" a) as [<-|Ha]; [|discriminate].
  intros _. split; reflexivity.
Qed.

(** An action tag without words: the index [words[0]] is out of range. *)
Lemma step_blank token s :
  classify token = Action -> words_of token = [] ->
  step token s = Raise (Exn IndexError "list index out of range").
Proof.
  intros Hc Hw. unfold step. rewrite Hc. fold (words_of token). rewrite Hw. reflexivity.
Qed.

Lemma step_end token w s :
  classify token = Action -> words_of token = [w] -> startswith w "end" = true ->
  step token s =
  match ops_stack s with
  | [] => Raise (syntax_error "Too many ends" token)
  | start_what :: stack' =>
      if String.eqb start_what (drop 3 w)
      then Ok (set_code CodeBuilder.dedent (set_ops_stack stack' (flush_output s)))
      else Raise (syntax_error "Mismatched end tag" (drop 3 w))
  end.
Proof.
  intros Hc Hw He. unfold step. rewrite Hc. fold (words_of token). rewrite Hw.
  unfold action. destruct (end_word_not_keyword _ He) as [-> ->]. rewrite He.
  rewrite flush_ops_stack. destruct (ops_stack s); reflexivity.
Qed.

Lemma finish_open s top rest :
  ops_stack s = top :: rest ->
  finish s = Raise (syntax_error "Unmatched action tag" top).
Proof. intros Hs. unfold finish. rewrite Hs. reflexivity. Qed.

End CompileFacts.

Module CompileErrors.
Import PyStr PyStrFacts Gen Tokenizer Compile Spec ExprFacts CompileFacts.

Ltac token_msg := apply diag_token; [set_solver|assumption|assumption].

(** What a turn of the loop can raise. *)
Lemma step_raise_cases tokens token s e :
  token ∈ tokens -> step token s = Raise e ->
  e = Exn IndexError "list index out of range" \/ diagnostic tokens e.
Proof.
  intros Hin. unfold step. destruct (classify token) eqn:Hc.
  - discriminate.
  - rewrite expr_code_in_closed. discriminate.
  - fold (words_of token). destruct (words_of token) as [|w0 ws] eqn:Hw.
    { intros [= <-]. left. reflexivity. }
    intros Ha. right. revert Ha. unfold action.
    destruct (String.eqb w0 "if").
    { destruct ws as [|w1 [|w2 ws]]; try (intros [= <-]; token_msg).
      rewrite expr_code_in_closed. discriminate. }
    destruct (String.eqb w0 "for").
    { destruct ws as [|w1 [|w2 [|w3 [|w4 ws]]]]; try (intros [= <-]; token_msg).
      destruct (String.eqb w2 "in"); [|intros [= <-]; token_msg].
      rewrite _variable_ok. cbn [mbind outcome_bind].
      rewrite expr_code_in_closed. discriminate. }
    destruct (startswith w0 "end") eqn:He.
    { destruct ws as [|w1 ws]; [|intros [= <-]; token_msg].
      rewrite flush_ops_stack.
      destruct (ops_stack s) as [|top rest]; [intros [= <-]; token_msg|].
      destruct (String.eqb top (drop 3 w0)); [discriminate|].
      intros [= <-]. eapply diag_kind; eassumption. }
    intros [= <-]. eapply diag_word; eassumption.
  - destruct (String.eqb token EmptyString); discriminate.
Qed.

(** The stack of open blocks holds ["if"] and ["for"] only. *)
Lemma step_stack token s s' :
  step token s = Ok s' ->
  Forall block_kind (ops_stack s) -> Forall block_kind (ops_stack s').
Proof.
  unfold step. destruct (classify token).
  - intros [= <-]. auto.
  - rewrite expr_code_in_closed. simpl. intros [= <-]. auto.
  - destruct (split_ws (strip (inner token))) as [|w0 ws]; [discriminate|].
    generalize (flush_ops_stack s). generalize (flush_output s). intros fs Hfs.
    unfold action. rewrite Hfs.
    destruct (String.eqb w0 "if").
    { destruct ws as [|w1 [|w2 ws]]; try discriminate.
      rewrite expr_code_in_closed. intros [= <-] Hs.
      cbn [ops_stack set_code set_all_vars set_ops_stack].
      constructor; [left; reflexivity|exact Hs]. }
    destruct (String.eqb w0 "for").
    { destruct ws as [|w1 [|w2 [|w3 [|w4 ws]]]]; try discriminate.
      destruct (String.eqb w2 "in"); [|discriminate].
      rewrite _variable_ok. cbn [mbind outcome_bind].
      rewrite expr_code_in_closed. intros [= <-] Hs.
      cbn [ops_stack set_code set_all_vars set_loop_vars set_ops_stack].
      constructor; [right; reflexivity|exact Hs]. }
    destruct (startswith w0 "end").
    { destruct ws as [|w1 ws]; [|discriminate].
      destruct (ops_stack s) as [|top rest]; [discriminate|].
      destruct (String.eqb top (drop 3 w0)); [|discriminate].
      intros [= <-] Hs. simpl. inversion Hs; assumption. }
    discriminate.
  - destruct (String.eqb token EmptyString); intros [= <-]; auto.
Qed.

Lemma loop_stack tokens s s' :
  loop tokens s = Ok s' ->
  Forall block_kind (ops_stack s) -> Forall block_kind (ops_stack s').
Proof.
  revert s. induction tokens as [|token tokens IH]; intros s; [intros [= <-]; auto|].
  simpl. destruct (step token s) as [s1|e|] eqn:E; simpl; try discriminate.
  intros Hl Hs. eapply IH; [exact Hl|]. eapply step_stack; eassumption.
Qed.

(** Every [TemplateSyntaxError] of the block parser reports one of the
    four things of [diagnostic]. *)
Lemma build_raise_cases template e :
  build template = Raise e ->
  e = Exn IndexError "list index out of range" \/ diagnostic (_tokenize template) e.
Proof.
  unfold build. destruct (loop (_tokenize template) start) as [s|e'|] eqn:El; simpl.
  - unfold finish. destruct (ops_stack s) as [|top rest] eqn:Es; [discriminate|].
    intros [= <-]. right. apply diag_open.
    pose proof (loop_stack _ _ _ El (Forall_nil_2 _)) as Hk.
    rewrite Es in Hk. inversion Hk; assumption.
  - intros [= <-].
    destruct (loop_raise _ _ _ El) as (pre & token & post & s' & Ht & _ & Hs).
    eapply step_raise_cases; [|exact Hs]. rewrite Ht. set_solver.
  - discriminate.
Qed.

End CompileErrors.

Module BlockResults.
Import PyStr Gen Tokenizer Compile Spec CompileFacts CompileErrors Host.

Lemma compile_build_raise template e :
  build template = Raise e -> Template.compile template = Raise e.
Proof. intros Hb. unfold Template.compile. rewrite Hb. reflexivity. Qed.

Lemma compile_step_raise template pre token post s e :
  _tokenize template = pre ++ token :: post ->
  loop pre start = Ok s -> step token s = Raise e ->
  Template.compile template = Raise e.
Proof.
  intros Ht Hpre Hstep. apply compile_build_raise. unfold build.
  rewrite Ht, (loop_step_raise _ _ _ _ _ _ Hpre Hstep). reflexivity.
Qed.

Section WithHost.
Context {V : Type} `{Ops V}.

(** A failure of the compilation is the failure of the construction. *)
Lemma init_raise template contexts (h : gmap Template.loc (gmap string V)) e :
  (forall c, c ∈ contexts -> is_Some (h !! c)) ->
  Template.compile template = Raise e ->
  fst (Template.__init__ template contexts h) = Raise e.
Proof.
  intros Hcs Hc. unfold Template.__init__, Template.new_dict.
  set (l := fresh (dom h)). set (h0 := <[l := ∅]> h).
  destruct (LiteralResults.update_all_ok l contexts h0) as [Hok _].
  { unfold h0. rewrite lookup_insert_eq. eauto. }
  { intros c Hin. unfold h0. destruct (decide (l = c)) as [<-|Hne].
    - rewrite lookup_insert_eq. eauto.
    - rewrite lookup_insert_ne; [apply Hcs, Hin|exact Hne]. }
  destruct (Template.update_all l contexts h0) as [r h1]. simpl in Hok. subst r.
  rewrite Hc. reflexivity.
Qed.

End WithHost.

(** C3, as amended.  For every template, parsing enforces block matching:
    an action tag of the one word [end<kind>] met when no block is open
    fails with the [TemplateSyntaxError] "Too many ends", reporting the
    tag; met when the innermost open block is of another kind, it fails
    with "Mismatched end tag", reporting [<kind>]; a block still open
    after the last token fails with "Unmatched action tag", reporting
    the kind of the innermost open block; and the message of every
    [TemplateSyntaxError] of the block parser ends with the [repr] of
    what it reports: the whole tag, the first word of the tag, the kind
    named by the [end] word, or the kind of the open block. *)
Theorem C3_block_matching_errors (template : string) :
  (forall pre token post s w,
      _tokenize template = pre ++ token :: post ->
      loop pre start = Ok s ->
      classify token = Action -> words_of token = [w] ->
      startswith w "end" = true ->
      (ops_stack s = [] ->
       Template.compile template = Raise (syntax_error "Too many ends" token)) /\
      (forall top rest,
          ops_stack s = top :: rest -> top <> drop 3 w ->
          Template.compile template
          = Raise (syntax_error "Mismatched end tag" (drop 3 w)))) /\
  (forall s top rest,
      loop (_tokenize template) start = Ok s ->
      ops_stack s = top :: rest ->
      block_kind top /\
      Template.compile template = Raise (syntax_error "Unmatched action tag" top)) /\
  (forall e,
      build template = Raise e -> exc_type e = TemplateSyntaxError ->
      diagnostic (_tokenize template) e).
Proof.
  split; [|split].
  - intros pre token post s w Ht Hpre Hc Hw He.
    pose proof (step_end token w s Hc Hw He) as Hstep. split.
    + intros Hs. rewrite Hs in Hstep.
      eapply compile_step_raise; eassumption.
    + intros top rest Hs Hne. rewrite Hs in Hstep.
      apply String.eqb_neq in Hne. rewrite Hne in Hstep.
      eapply compile_step_raise; eassumption.
  - intros s top rest Hl Hs. split.
    + pose proof (loop_stack _ _ _ Hl (Forall_nil_2 _)) as Hk.
      rewrite Hs in Hk. inversion Hk; assumption.
    + apply compile_build_raise. unfold build. rewrite Hl. simpl.
      eapply finish_open, Hs.
  - intros e Hb Ht. destruct (build_raise_cases _ _ Hb) as [->|Hd];
      [discriminate|exact Hd].
Qed.

(** C9, as amended.  For every template in which the first token to fail
    is an action tag whose inner text is empty or whitespace only, the
    construction fails with the [IndexError] of [words[0]], not with a
    [TemplateSyntaxError]. *)
Theorem C9_blank_action_tag_index_error
    (template : string) (pre : list string) (token : string)
    (post : list string) (s : state) :
  _tokenize template = pre ++ token :: post ->
  loop pre start = Ok s ->
  classify token = Action ->
  blank (inner token) = true ->
  Template.compile template = Raise (Exn IndexError "list index out of range") /\
  forall (V : Type) (ops : Ops V) (contexts : list Template.loc)
         (h : gmap Template.loc (gmap string V)),
    (forall c, c ∈ contexts -> is_Some (h !! c)) ->
    exists e, fst (Template.__init__ template contexts h) = Raise e /\
              exc_type e = IndexError /\ exc_type e <> TemplateSyntaxError.
Proof.
  intros Ht Hpre Hc Hb.
  assert (Hcomp : Template.compile template
                  = Raise (Exn IndexError "list index out of range")).
  { eapply compile_step_raise; [exact Ht|exact Hpre|].
    apply step_blank; [exact Hc|apply words_of_blank, Hb]. }
  split; [exact Hcomp|].
  intros V ops contexts h Hcs. eexists. split; [apply init_raise; eassumption|].
  split; [reflexivity|discriminate].
Qed.

End BlockResults.

(** ** Dotted access and filters *)

Module ExprResults.
Import PyStr Gen Compile Spec ExprFacts Host Dots Exec.

Section WithHost.
Context {V : Type} `{Ops V}.

(** The handler of [_do_dots] names the classes of a lookup failure. *)
Lemma lookup_failure_classes (e : exn) :
  is_lookup_failure e = bool_decide (exc_type e ∈ lookup_failures).
Proof. destruct e as [[] msg]; reflexivity. Qed.

Lemma dot_step_spec (value : V) (dot : string) :
  dot_step value dot = spec_resolve value dot.
Proof.
  unfold dot_step, spec_resolve, spec_lookup.
  destruct (getitem value dot) as [found|e|]; try reflexivity.
  rewrite lookup_failure_classes.
  destruct (bool_decide (exc_type e ∈ lookup_failures)); [|reflexivity].
  destruct (getattr value dot); reflexivity.
Qed.

Lemma dots_loop_spec (path : list string) (var : V) :
  dots_loop path var = spec_path path var.
Proof.
  revert var. induction path as [|name path IH]; intros var; [reflexivity|].
  simpl. rewrite dot_step_spec.
  destruct (spec_resolve var name); simpl; [apply IH|reflexivity..].
Qed.

Lemma do_dots_spec (var : V) (path : list string) :
  _do_dots var path = degrade var (spec_path path var).
Proof.
  unfold _do_dots, degrade. rewrite dots_loop_spec.
  destruct (spec_path path var) as [v|e|]; reflexivity.
Qed.

(** The three ways of one name of the path. *)
Lemma dots_loop_key (current : V) (name : string) (rest : list string) (found : V) :
  getitem current name = Ok found ->
  dots_loop (name :: rest) current
  = (next ← (if callable found then call0 found else Ok found); dots_loop rest next).
Proof.
  intros Hg. cbn [dots_loop]. unfold dot_step. rewrite Hg. reflexivity.
Qed.

Lemma dots_loop_attribute (current : V) (name : string) (rest : list string)
    (c : exc_class) (msg : string) :
  c ∈ [KeyError; IndexError; TypeError; AttributeError; ValueError] ->
  getitem current name = Raise (Exn c msg) ->
  dots_loop (name :: rest) current
  = (found ← getattr current name;
     next ← (if callable found then call0 found else Ok found);
     dots_loop rest next).
Proof.
  intros Hc Hg. cbn [dots_loop]. unfold dot_step. rewrite Hg.
  assert (Hl : is_lookup_failure (Exn c msg) = true).
  { rewrite !elem_of_cons in Hc.
    destruct Hc as [->|[->|[->|[->|[->|Hc]]]]]; try reflexivity.
    apply elem_of_nil in Hc. contradiction. }
  rewrite Hl. destruct (getattr current name); reflexivity.
Qed.

Lemma dots_loop_other (current : V) (name : string) (rest : list string) (e : exn) :
  exc_type e ∉ [KeyError; IndexError; TypeError; AttributeError; ValueError] ->
  getitem current name = Raise e ->
  dots_loop (name :: rest) current = Raise e.
Proof.
  intros Hc Hg. cbn [dots_loop]. unfold dot_step. rewrite Hg.
  assert (Hl : is_lookup_failure e = false).
  { destruct e as [c msg]. cbn [exc_type] in Hc.
    destruct c; try reflexivity; exfalso; apply Hc; repeat constructor. }
  rewrite Hl. reflexivity.
Qed.

End WithHost.

(** C1. For every dotted-access expression, the text is compiled to the
    root name and the path of the names after it, and at render time the
    path is resolved name by name from the value of the root, as the
    specification says.  A key that is found is the value, and no
    attribute is looked up.  When the key lookup fails, with a
    [KeyError], an [IndexError], a [TypeError], an [AttributeError] or a
    [ValueError], the attribute of the same name is looked up.  Whichever
    of the two gave the value, a callable value is called without
    arguments, and the result is the current value for the next name.
    An exception of another class from the key lookup is no lookup
    failure: no attribute is looked up.  So the objects, dictionaries and
    methods of the test suite resolve as it expects, and a key wins over
    a method of the dictionary. *)
Theorem C1_dotted_access_resolution (expr : string) (all_vars : gset string) :
  contains_char "|" expr = false ->
  contains_char "." expr = true ->
  let root := hd EmptyString (split_on "." expr) in
  let path := tl (split_on "." expr) in
  path <> [] /\
  _expr_code expr all_vars = Ok (EDots (EName root) path, {[root]} ∪ all_vars) /\
  (forall (V : Type) (ops : Ops V) (f : frame V),
      eval f (EDots (EName root) path)
      = (var ← read_local root f; _do_dots var path)) /\
  (forall (V : Type) (ops : Ops V) (var : V) (names : list string),
      dots_loop names var = spec_path names var /\
      _do_dots var names = degrade var (spec_path names var)) /\
  (forall (V : Type) (ops : Ops V) (current : V) (name : string) (rest : list string)
          (found : V),
      getitem current name = Ok found ->
      dots_loop (name :: rest) current
      = (next ← (if callable found then call0 found else Ok found);
         dots_loop rest next)) /\
  (forall (V : Type) (ops : Ops V) (current : V) (name : string) (rest : list string)
          (c : exc_class) (msg : string),
      c ∈ [KeyError; IndexError; TypeError; AttributeError; ValueError] ->
      getitem current name = Raise (Exn c msg) ->
      dots_loop (name :: rest) current
      = (found ← getattr current name;
         next ← (if callable found then call0 found else Ok found);
         dots_loop rest next)) /\
  (forall (V : Type) (ops : Ops V) (current : V) (name : string) (rest : list string)
          (e : exn),
      exc_type e ∉ [KeyError; IndexError; TypeError; AttributeError; ValueError] ->
      getitem current name = Raise e ->
      dots_loop (name :: rest) current = Raise e) /\
  PyVal.try_render "{{ obj.a }}" [("obj", PyVal.PObj [("a", PyVal.PStr "yolo")])]
  = Ok "yolo" /\
  PyVal.try_render "{{ obj2.obj.a }} {{ obj2.b }}"
    [("obj2", PyVal.PObj [("obj", PyVal.PObj [("a", PyVal.PStr "yolo")]);
                          ("b", PyVal.PStr "swag")])]
  = Ok "yolo swag" /\
  PyVal.try_render "{{ obj.return_stuff }}"
    [("obj", PyVal.PObj [("stuff", PyVal.PStr "yoloswag");
                         ("return_stuff", PyVal.PMethod (PyVal.PStr "yoloswag = yoloswag"))])]
  = Ok "yoloswag = yoloswag" /\
  PyVal.try_render "{{dic.yolo}} {{dic.swag}}"
    [("dic", PyVal.PDict [("yolo", PyVal.PInt 1); ("swag", PyVal.PInt 2)])]
  = Ok "1 2" /\
  PyVal.try_render "{{ dic.keys }}" [("dic", PyVal.PDict [("keys", PyVal.PStr "mine")])]
  = Ok "mine".
Proof.
  intros Hp Hd root path.
  pose proof (split_on_present _ _ Hd) as Hne. fold path in Hne.
  split; [exact Hne|]. split; [|split; [|split; [|split; [|split; [|split]]]]].
  - rewrite expr_code_closed. unfold expr_of, names_of, filters_of, base_of.
    rewrite (split_on_absent "|" expr Hp). cbn [hd tl].
    fold root. fold path. destruct path; [contradiction|].
    simpl. f_equal. f_equal. set_solver.
  - intros V ops f. reflexivity.
  - intros V ops var names. split; [apply dots_loop_spec|apply do_dots_spec].
  - intros V ops. apply dots_loop_key.
  - intros V ops. apply dots_loop_attribute.
  - intros V ops. apply dots_loop_other.
  - repeat split; vm_compute; reflexivity.
Qed.

End ExprResults.

Module FilterResults.
Import PyStr Gen Compile Spec ExprFacts Host Exec.

Section WithHost.
Context {V : Type} `{Ops V}.

Lemma eval_apply_filters (f : frame V) (names : list string) (fvs : list V)
    (base : pyexpr) :
  Forall2 (fun name fv => locals f !! name = Some fv) names fvs ->
  eval f (apply_filters_code names base) = (v ← eval f base; apply_filters fvs v).
Proof.
  intros Hall. revert base.
  induction Hall as [|name fv names fvs Hname Hall IH]; intros base.
  - simpl. destruct (eval f base); reflexivity.
  - unfold apply_filters_code in *. cbn [foldl]. rewrite IH.
    cbn [eval]. unfold read_local. rewrite Hname.
    destruct (eval f base) as [v|e|]; simpl; [|reflexivity..].
    destruct (call1 fv v); reflexivity.
Qed.

End WithHost.

Lemma base_of_hd (expr : string) :
  expr_of (hd EmptyString (split_on "|" expr)) = base_of expr.
Proof.
  unfold expr_of, filters_of, base_of.
  rewrite (split_on_absent "|" (hd EmptyString (split_on "|" expr)))
    by apply hd_split_on_no_sep.
  reflexivity.
Qed.

(** C4. For every output expression with a ["|"], the text is split on
    ["|"], the first piece is compiled as the base, and every later
    piece is a filter name: a name like any other, registered in
    [all_vars], loaded from the context, and called with one argument on
    the value so far, from left to right, so that [a|b|c] is [c(b(a))].
    With [name = "bob"], [upper] and [first] as in the test suite,
    [{{ name|upper|first }}] renders ["B"]. *)
Theorem C4_filters_left_to_right (expr : string) (all_vars : gset string) :
  contains_char "|" expr = true ->
  let pipes := split_on "|" expr in
  tl pipes <> [] /\
  (exists vars1,
      _expr_code (hd EmptyString pipes) all_vars = Ok (base_of expr, vars1) /\
      _expr_code expr all_vars
      = Ok (apply_filters_code (tl pipes) (base_of expr),
            list_to_set (tl pipes) ∪ vars1) /\
      forall name, name ∈ tl pipes -> name ∈ list_to_set (C:=gset string) (tl pipes) ∪ vars1) /\
  (forall (V : Type) (ops : Ops V) (f : frame V) (fvs : list V),
      Forall2 (fun name fv => locals f !! name = Some fv) (tl pipes) fvs ->
      eval f (apply_filters_code (tl pipes) (base_of expr))
      = (v ← eval f (base_of expr); apply_filters fvs v)) /\
  (forall (V : Type) (ops : Ops V) (context : gmap string V) (f : frame V)
          (name : string) (fv : V),
      context !! name = Some fv ->
      exec_stmt context (SLoad name) f = Ok (Normal (bind_local name fv f))) /\
  (forall (V : Type) (ops : Ops V) (f : frame V) (va fb fc : V),
      locals f !! "a" = Some va -> locals f !! "b" = Some fb ->
      locals f !! "c" = Some fc ->
      eval f (expr_of "a|b|c") = (x ← call1 fb va; call1 fc x)) /\
  PyVal.try_render "{{ name|upper|first }}"
    [("name", PyVal.PStr "bob"); ("upper", PyVal.PLambda PyVal.Upper);
     ("first", PyVal.PLambda PyVal.First)] = Ok "B".
Proof.
  intros Hp pipes. subst pipes. split; [apply split_on_present, Hp|].
  split; [|split; [|split; [|split]]].
  - exists (names_of (hd EmptyString (split_on "|" expr)) ∪ all_vars). split; [|split].
    + rewrite expr_code_closed, base_of_hd. reflexivity.
    + rewrite expr_code_closed. unfold expr_of, filters_of.
      f_equal. f_equal. unfold names_of, filters_of.
      rewrite (split_on_absent "|" (hd EmptyString (split_on "|" expr)))
        by apply hd_split_on_no_sep.
      simpl. set_solver.
    + intros name Hin. set_solver.
  - intros V ops f fvs Hall. apply eval_apply_filters, Hall.
  - intros V ops context f name fv Hc. simpl. rewrite Hc. reflexivity.
  - intros V ops f va fb fc Ha Hb Hc.
    change (expr_of "a|b|c") with (ECall "c" (ECall "b" (EName "a"))).
    simpl. unfold read_local. rewrite Ha, Hb, Hc. simpl.
    destruct (call1 fb va); reflexivity.
  - vm_compute. reflexivity.
Qed.

End FilterResults.

(** ** The shape of the generated function *)

Module ShapeFacts.
Import PyStr Gen Tokenizer Compile Spec ExprFacts CompileFacts.

Lemma flush_code s :
  vars_code (flush_output s) = vars_code s /\
  all_vars (flush_output s) = all_vars s /\
  loop_vars (flush_output s) = loop_vars s /\
  exists more,
    CodeBuilder.code (code (flush_output s)) = CodeBuilder.code (code s) ++ more.
Proof.
  unfold flush_output. destruct (buffered s) as [|x [|y xs]]; simpl.
  - repeat split. exists []. symmetry. apply app_nil_r.
  - repeat split. eexists. reflexivity.
  - repeat split. eexists. reflexivity.
Qed.

(** The loop appends to the builder and leaves the section alone. *)
Lemma step_code token s s' :
  step token s = Ok s' ->
  vars_code s' = vars_code s /\
  exists more, CodeBuilder.code (code s') = CodeBuilder.code (code s) ++ more.
Proof.
  assert (Hrefl : forall s0 : state,
             vars_code s0 = vars_code s0 /\
             exists more, CodeBuilder.code (code s0) = CodeBuilder.code (code s0) ++ more).
  { intros s0. split; [reflexivity|]. exists []. symmetry. apply app_nil_r. }
  unfold step. destruct (classify token).
  - intros [= <-]. apply Hrefl.
  - rewrite expr_code_in_closed. simpl. intros [= <-]. simpl.
    split; [reflexivity|]. exists []. symmetry. apply app_nil_r.
  - destruct (split_ws (strip (inner token))) as [|w0 ws]; [discriminate|].
    destruct (flush_code s) as (Hv & _ & _ & more0 & Hc).
    revert Hv Hc. generalize (flush_output s). intros fs Hv Hc.
    unfold action.
    destruct (String.eqb w0 "if").
    { destruct ws as [|w1 [|w2 ws]]; try discriminate.
      rewrite expr_code_in_closed. intros [= <-]. simpl.
      split; [exact Hv|]. rewrite Hc, <- app_assoc. eexists. reflexivity. }
    destruct (String.eqb w0 "for").
    { destruct ws as [|w1 [|w2 [|w3 [|w4 ws]]]]; try discriminate.
      destruct (String.eqb w2 "in"); [|discriminate].
      rewrite _variable_ok. cbn [mbind outcome_bind].
      rewrite expr_code_in_closed. intros [= <-]. simpl.
      split; [exact Hv|]. rewrite Hc, <- app_assoc. eexists. reflexivity. }
    destruct (startswith w0 "end").
    { destruct ws as [|w1 ws]; [|discriminate].
      destruct (ops_stack fs) as [|top rest]; [discriminate|].
      destruct (String.eqb top (drop 3 w0)); [|discriminate].
      intros [= <-]. simpl. split; [exact Hv|]. eexists. exact Hc. }
    discriminate.
  - destruct (String.eqb token EmptyString); intros [= <-]; simpl;
      (split; [reflexivity|]; exists []; symmetry; apply app_nil_r).
Qed.

Lemma loop_code tokens s s' :
  loop tokens s = Ok s' ->
  vars_code s' = vars_code s /\
  exists more, CodeBuilder.code (code s') = CodeBuilder.code (code s) ++ more.
Proof.
  revert s. induction tokens as [|token tokens IH]; intros s.
  - intros [= <-]. split; [reflexivity|]. exists []. symmetry. apply app_nil_r.
  - simpl. destruct (step token s) as [s1|e|] eqn:E; simpl; try discriminate.
    intros Hl. destruct (step_code _ _ _ E) as (Hv1 & more1 & Hc1).
    destruct (IH _ Hl) as (Hv2 & more2 & Hc2).
    split; [congruence|]. exists (more1 ++ more2).
    rewrite Hc2, Hc1, app_assoc. reflexivity.
Qed.

Lemma add_loads_code names b :
  CodeBuilder.code (add_loads names b)
  = CodeBuilder.code b
      ++ ((fun n => CodeBuilder.Line (CodeBuilder.indent_level b) (LLoad n)) <$> names) /\
  CodeBuilder.indent_level (add_loads names b) = CodeBuilder.indent_level b.
Proof.
  revert b. induction names as [|n names IH]; intros b.
  - simpl. split; [symmetry; apply app_nil_r|reflexivity].
  - unfold add_loads in *. cbn [foldl].
    destruct (IH (CodeBuilder.add_line (LLoad n) b)) as [Hc Hi].
    rewrite Hc, Hi. simpl. rewrite <- app_assoc. split; reflexivity.
Qed.

Lemma lines_of_app es1 es2 section :
  CodeBuilder.lines_of (es1 ++ es2) section
  = CodeBuilder.lines_of es1 section ++ CodeBuilder.lines_of es2 section.
Proof.
  induction es1 as [|[i l|] es1 IH]; simpl; [reflexivity|..].
  - rewrite IH. reflexivity.
  - rewrite IH, app_assoc. reflexivity.
Qed.

Lemma lines_of_loads ind names section :
  CodeBuilder.lines_of ((fun n => CodeBuilder.Line ind (LLoad n)) <$> names) section
  = (fun n => (ind, LLoad n)) <$> names.
Proof.
  induction names as [|n names IH]; [reflexivity|].
  rewrite !fmap_cons. cbn [CodeBuilder.lines_of]. rewrite IH. reflexivity.
Qed.

(** The source of a template that compiles: the [def] line, a load for
    every name of [all_vars - loop_vars], and the rest. *)
Lemma build_lines template s :
  build template = Ok s ->
  exists rest,
    CodeBuilder.lines (code s) (vars_code s)
    = (0, LDef) :: ((fun n => (4, LLoad n)) <$> elements (all_vars s ∖ loop_vars s))
        ++ rest.
Proof.
  unfold build. destruct (loop (_tokenize template) start) as [s0|e|] eqn:El;
    simpl; try discriminate.
  destruct (loop_code _ _ _ El) as (Hv & more & Hc).
  unfold finish. destruct (ops_stack s0); [|discriminate].
  destruct (flush_code s0) as (Hfv & Hfa & Hfl & more0 & Hfc).
  revert Hfv Hfa Hfl Hfc. generalize (flush_output s0). intros fs Hfv Hfa Hfl Hfc.
  intros [= <-]. unfold CodeBuilder.lines. simpl.
  rewrite Hfc, Hc, Hfv, Hv.
  destruct (add_loads_code (elements (all_vars fs ∖ loop_vars fs)) (vars_code start))
    as [Hlc _].
  rewrite Hlc. simpl. rewrite lines_of_loads.
  eexists. reflexivity.
Qed.

End ShapeFacts.

(** ** Running the generated function *)

Module ExecFacts.
Import PyStr Gen Compile Spec Host Exec ShapeFacts.

Lemma parse_suite_S fuel ind ls :
  parse_suite (S fuel) ind ls =
  match ls with
  | [] => Ok ([], [])
  | (i, l) :: rest =>
      if MAX_COLUMN <? column i then Unmodelled
      else if column i <? ind then Ok ([], ls)
      else if ind <? column i then indentation_error "unexpected indent"
      else
        match line_verdict l with
        | Unknown => Unmodelled
        | Invalid => refused l rest
        | Fine =>
            match header l with
            | None =>
                '(ss, rest') ← parse_suite fuel ind rest;
                Ok (simple l :: ss, rest')
            | Some mk =>
                match rest with
                | (j, _) :: _ =>
                    if ind <? column j then
                      '(body, rest1) ← parse_suite fuel (column j) rest;
                      match rest1 with
                      | (k, _) :: _ =>
                          if ind <? column k
                          then indentation_error
                                 "unindent does not match any outer indentation level"
                          else
                            '(ss, rest2) ← parse_suite fuel ind rest1;
                            Ok (mk body :: ss, rest2)
                      | [] => Ok ([mk body], [])
                      end
                    else indentation_error "expected an indented block"
                | [] => indentation_error "expected an indented block"
                end
            end
        end
  end.
Proof. reflexivity. Qed.

Lemma refused_not_ok l rest x : refused l rest <> Ok x.
Proof. unfold refused. destruct l; try discriminate. destruct (loads_unknown rest); discriminate. Qed.

Lemma column_nonneg i : 0 <= column i.
Proof. unfold column. lia. Qed.

Lemma column_id i : 0 <= i -> column i = i.
Proof. unfold column. lia. Qed.

(** What the parser leaves is the end of what it was given, and it
    begins with a line that is less deep than the block. *)
Lemma parse_suite_rest fuel ind ls ss rest :
  parse_suite fuel ind ls = Ok (ss, rest) ->
  (exists pre, ls = pre ++ rest) /\
  match rest with
  | (i, _) :: _ => column i < ind
  | [] => True
  end.
Proof.
  revert ind ls ss rest. induction fuel as [|fuel IH]; intros ind ls ss rest; [discriminate|].
  rewrite parse_suite_S. destruct ls as [|[i l] ls']; [intros [= <- <-]; split; [exists []; reflexivity|exact I]|].
  destruct (MAX_COLUMN <? column i); [discriminate|].
  destruct (column i <? ind) eqn:Ei.
  { intros [= <- <-]. split; [exists []; reflexivity|]. apply Z.ltb_lt, Ei. }
  destruct (ind <? column i); [discriminate|].
  destruct (line_verdict l);
    [|intros Hr; destruct (refused_not_ok _ _ _ Hr)|discriminate].
  destruct (header l) as [mk|].
  - destruct ls' as [|[j l'] ls'']; [discriminate|].
    destruct (ind <? column j); [|discriminate].
    destruct (parse_suite fuel (column j) ((j, l') :: ls'')) as [[body rest1]|e|] eqn:E1;
      cbn [mbind outcome_bind]; try discriminate.
    destruct (IH _ _ _ _ E1) as [[pre1 Hpre1] _].
    destruct rest1 as [|[k lk] rest1'].
    + intros [= <- <-]. split; [|exact I].
      exists ((i, l) :: pre1). rewrite Hpre1. reflexivity.
    + destruct (ind <? column k); [discriminate|].
      destruct (parse_suite fuel ind ((k, lk) :: rest1')) as [[ss2 rest2]|e|] eqn:E2;
        cbn [mbind outcome_bind]; try discriminate.
      intros [= <- <-]. destruct (IH _ _ _ _ E2) as [[pre2 Hpre2] Hhead].
      split; [|exact Hhead].
      exists ((i, l) :: pre1 ++ pre2). rewrite Hpre1, Hpre2, <- app_comm_cons, <- app_assoc.
      reflexivity.
  - destruct (parse_suite fuel ind ls') as [[ss1 rest1]|e|] eqn:E1;
      cbn [mbind outcome_bind]; try discriminate.
    intros [= <- <-]. destruct (IH _ _ _ _ E1) as [[pre1 Hpre1] Hhead].
    split; [|exact Hhead]. exists ((i, l) :: pre1). rewrite Hpre1. reflexivity.
Qed.

(** What the parser leaves is no longer than what it was given. *)
Lemma parse_suite_fuel fuel ind ls ss rest :
  parse_suite fuel ind ls = Ok (ss, rest) -> (length rest <= length ls)%nat.
Proof.
  intros Hp. destruct (parse_suite_rest _ _ _ _ _ Hp) as [[pre ->] _].
  rewrite length_app. lia.
Qed.

(** At the indentation of the module nothing is left. *)
Lemma parse_suite_all fuel ls ss rest :
  parse_suite fuel 0 ls = Ok (ss, rest) -> rest = [].
Proof.
  intros Hp. destruct (parse_suite_rest _ _ _ _ _ Hp) as [_ Hhead].
  destruct rest as [|[i l] rest]; [reflexivity|].
  pose proof (column_nonneg i). lia.
Qed.

(** Load lines at the head of a block are the first statements of it. *)
Lemma parse_loads fuel ind names rest body r :
  parse_suite fuel ind (((fun n => (ind, LLoad n)) <$> names) ++ rest) = Ok (body, r) ->
  0 <= ind ->
  exists body', body = (SLoad <$> names) ++ body'.
Proof.
  intros Hp Hind. revert fuel body Hp.
  induction names as [|n names IH]; intros fuel body.
  - intros _. exists body. reflexivity.
  - destruct fuel as [|fuel]; [discriminate|].
    rewrite fmap_cons, <- app_comm_cons, parse_suite_S, (column_id _ Hind), Z.ltb_irrefl.
    destruct (MAX_COLUMN <? ind); [discriminate|].
    destruct (line_verdict (LLoad n));
      [|intros Hr; destruct (refused_not_ok _ _ _ Hr)|discriminate].
    cbn [header].
    destruct (parse_suite fuel ind _) as [[ss rest']|e|] eqn:E; simpl; try discriminate.
    intros [= <- <-]. destruct (IH _ _ E) as [body' ->].
    exists body'. reflexivity.
Qed.

Lemma module_loads names rest module fn :
  parse_module ((0, LDef) :: ((fun n => (4, LLoad n)) <$> names) ++ rest) = Ok module ->
  render_function_of module = Ok fn ->
  exists body, fn = (SLoad <$> names) ++ body.
Proof.
  destruct names as [|n names]; [intros _ _; exists fn; reflexivity|].
  unfold parse_module.
  remember (((fun n => (4, LLoad n)) <$> n :: names) ++ rest) as ls eqn:Hls.
  assert (Hhd : exists ls', ls = (4, LLoad n) :: ls')
    by (subst ls; eexists; reflexivity).
  destruct Hhd as [ls' Hhd].
  rewrite parse_suite_S. cbn [header line_verdict]. rewrite Hhd.
  change (MAX_COLUMN <? column 0) with false. change (column 0 <? 0) with false.
  change (0 <? column 0) with false. change (0 <? column 4) with true. cbn iota.
  change (column 4) with 4.
  rewrite <- Hhd. subst ls.
  destruct (parse_suite _ 4 _) as [[body rest1]|e|] eqn:E;
    cbn [mbind outcome_bind]; try discriminate.
  destruct rest1 as [|[k lk] rest1'].
  - cbn [mbind outcome_bind]. intros [= <-] [= <-].
    eapply parse_loads; [exact E|lia].
  - destruct (0 <? column k); [discriminate|].
    destruct (parse_suite _ 0 ((k, lk) :: rest1')) as [[ss rest2]|e|];
      cbn [mbind outcome_bind]; try discriminate.
    destruct rest2; [|discriminate]. intros [= <-].
    destruct ss; [|discriminate]. intros [= <-].
    eapply parse_loads; [exact E|lia].
Qed.

(** With more fuel than there are lines, the fuel does not matter. *)
Lemma parse_suite_stable fuel1 fuel2 ind ls :
  (length ls < fuel1)%nat -> (length ls < fuel2)%nat ->
  parse_suite fuel1 ind ls = parse_suite fuel2 ind ls.
Proof.
  revert fuel2 ind ls. induction fuel1 as [|fuel1 IH]; intros fuel2 ind ls H1 H2; [lia|].
  destruct fuel2 as [|fuel2]; [lia|].
  rewrite !parse_suite_S. destruct ls as [|[i l] rest]; [reflexivity|].
  simpl in H1, H2.
  destruct (MAX_COLUMN <? column i); [reflexivity|].
  destruct (column i <? ind); [reflexivity|]. destruct (ind <? column i); [reflexivity|].
  destruct (line_verdict l); try reflexivity.
  destruct (header l) as [mk|].
  - destruct rest as [|[j l'] rest']; [reflexivity|].
    destruct (ind <? column j); [|reflexivity].
    rewrite (IH fuel2 (column j) ((j, l') :: rest')) by (simpl in *; lia).
    destruct (parse_suite fuel2 (column j) ((j, l') :: rest')) as [[body rest1]|e|] eqn:E;
      cbn [mbind outcome_bind]; try reflexivity.
    pose proof (parse_suite_fuel _ _ _ _ _ E) as Hf.
    destruct rest1 as [|[k lk] rest1']; [reflexivity|].
    destruct (ind <? column k); [reflexivity|].
    rewrite (IH fuel2 ind ((k, lk) :: rest1')) by (simpl in *; lia). reflexivity.
  - rewrite (IH fuel2 ind rest) by lia. reflexivity.
Qed.

(** [exec] of lines that are as the engine means them, none too deep,
    is a module or an [IndentationError], never out of the model. *)
Lemma parse_suite_modelled fuel ind ls :
  (length ls < fuel)%nat ->
  Forall (fun il => column (fst il) <= MAX_COLUMN /\ line_ok (snd il) = true) ls ->
  parse_suite fuel ind ls <> Unmodelled.
Proof.
  revert ind ls. induction fuel as [|fuel IH]; intros ind ls Hf Hok; [lia|].
  rewrite parse_suite_S. destruct ls as [|[i l] rest]; [discriminate|].
  apply Forall_cons in Hok as [[Hi Hl] Hok]. cbn [fst snd] in Hi, Hl. simpl in Hf.
  destruct (Z.ltb_spec MAX_COLUMN (column i)); [lia|].
  destruct (column i <? ind); [discriminate|]. destruct (ind <? column i); [discriminate|].
  unfold line_ok in Hl. destruct (line_verdict l); try discriminate.
  destruct (header l) as [mk|].
  - destruct rest as [|[j l'] rest']; [discriminate|].
    destruct (ind <? column j); [|discriminate].
    pose proof (IH (column j) ((j, l') :: rest') ltac:(simpl in *; lia) Hok) as H1.
    destruct (parse_suite fuel (column j) ((j, l') :: rest')) as [[body rest1]|e|] eqn:E;
      cbn [mbind outcome_bind]; [|discriminate|contradiction].
    destruct (parse_suite_rest _ _ _ _ _ E) as [[pre Hpre] _].
    pose proof (parse_suite_fuel _ _ _ _ _ E) as Hlen.
    destruct rest1 as [|[k lk] rest1']; [discriminate|].
    destruct (ind <? column k); [discriminate|].
    assert (Hok1 : Forall (fun il => column (fst il) <= MAX_COLUMN /\ line_ok (snd il) = true)
                     ((k, lk) :: rest1')).
    { rewrite Hpre in Hok. apply Forall_app in Hok as [_ Hok]. exact Hok. }
    pose proof (IH ind ((k, lk) :: rest1') ltac:(simpl in *; lia) Hok1) as H2.
    destruct (parse_suite fuel ind ((k, lk) :: rest1')) as [[ss rest2]|e|];
      cbn [mbind outcome_bind]; [discriminate|discriminate|contradiction].
  - pose proof (IH ind rest ltac:(lia) Hok) as H1.
    destruct (parse_suite fuel ind rest) as [[ss rest']|e|];
      cbn [mbind outcome_bind]; [discriminate|discriminate|contradiction].
Qed.

Lemma parse_module_modelled ls :
  Forall (fun il => column (fst il) <= MAX_COLUMN /\ line_ok (snd il) = true) ls ->
  parse_module ls <> Unmodelled.
Proof.
  intros Hok. unfold parse_module.
  pose proof (parse_suite_modelled (S (length ls)) 0 ls ltac:(lia) Hok) as Hm.
  destruct (parse_suite (S (length ls)) 0 ls) as [[ss rest]|e|] eqn:E;
    cbn [mbind outcome_bind]; [|discriminate|contradiction].
  rewrite (parse_suite_all _ _ _ _ E). discriminate.
Qed.

(** The function that [get_globals] gives. *)
Lemma get_render_function_eq code section :
  get_render_function code section
  = if CodeBuilder.indent_level code =? 0
    then module ← parse_module (CodeBuilder.lines code section);
         render_function_of module
    else Raise (Exn AssertionError EmptyString).
Proof.
  unfold get_render_function, get_globals.
  destruct (CodeBuilder.indent_level code =? 0); [|reflexivity].
  destruct (parse_module _) as [module|e|]; cbn [mbind outcome_bind]; [|reflexivity..].
  destruct (render_function_of module) as [fn|e|] eqn:Er; cbn [mbind outcome_bind];
    [exact Er|reflexivity..].
Qed.

(** The function of a template that compiles begins with a load for
    every name of [all_vars - loop_vars]. *)
Lemma compile_shape template av lv fn :
  Template.compile template = Ok (av, lv, fn) ->
  exists body, fn = (SLoad <$> elements (av ∖ lv)) ++ body.
Proof.
  unfold Template.compile. destruct (build template) as [s|e|] eqn:Eb; simpl; try discriminate.
  destruct (build_lines _ _ Eb) as [rest Hl].
  rewrite get_render_function_eq.
  destruct (CodeBuilder.indent_level (code s) =? 0); [|discriminate].
  rewrite Hl.
  destruct (parse_module _) as [module|e|] eqn:Ep; simpl; try discriminate.
  destruct (render_function_of module) as [fn'|e|] eqn:Er; simpl; try discriminate.
  intros [= <- <- <-]. eapply module_loads; eassumption.
Qed.

Section WithHost.
Context {V : Type} `{Ops V}.
Variable context : gmap string V.

Lemma exec_block_cons (s : stmt) (ss : list stmt) (f : frame V) :
  exec_block context (s :: ss) f =
  (r ← exec_stmt context s f;
   match r with
   | Normal f' => exec_block context ss f'
   | Returned out => Ok (Returned out)
   end).
Proof. reflexivity. Qed.

(** A load of a name that the context lacks is a [KeyError], and it
    is the first thing that happens. *)
Lemma loads_missing (names : list string) (body : list stmt) (f : frame V) (name : string) :
  name ∈ names -> context !! name = None ->
  exists k, k ∈ names /\ context !! k = None /\
            exec_block context ((SLoad <$> names) ++ body) f = Raise (Exn KeyError k).
Proof.
  revert f. induction names as [|n names IH]; intros f Hin Hmiss.
  - apply elem_of_nil in Hin. contradiction.
  - rewrite fmap_cons, <- app_comm_cons, exec_block_cons. cbn [exec_stmt].
    destruct (context !! n) as [v|] eqn:En.
    + apply elem_of_cons in Hin as [->|Hin]; [congruence|].
      destruct (IH (bind_local n v f) Hin Hmiss) as (k & Hk & Hkm & Hr).
      exists k. split; [right; exact Hk|]. split; [exact Hkm|exact Hr].
    + exists n. split; [left|]. split; [exact En|reflexivity].
Qed.

Lemma missing_name_key_error template av lv fn (name : string) :
  Template.compile template = Ok (av, lv, fn) ->
  name ∈ av ∖ lv -> context !! name = None ->
  exists k, k ∈ av ∖ lv /\ context !! k = None /\
            call_render_function context fn = Raise (Exn KeyError k).
Proof.
  intros Hc Hin Hmiss. destruct (compile_shape _ _ _ _ Hc) as [body ->].
  apply elem_of_elements in Hin.
  destruct (loads_missing _ body (Frame ∅ []) name Hin Hmiss) as (k & Hk & Hkm & Hr).
  exists k. split; [apply elem_of_elements, Hk|]. split; [exact Hkm|].
  unfold call_render_function. rewrite Hr. reflexivity.
Qed.

End WithHost.
End ExecFacts.

(** ** Loop variables *)

Module LoopFacts.
Import Gen Spec Host Exec.

Lemma stmt_nested_ind (P : stmt -> Prop) :
  (forall body, Forall P body -> P (SDef body)) ->
  (forall var_name, P (SLoad var_name)) ->
  P SInitResult -> P SAlias ->
  (forall x, P (SAppend x)) -> (forall xs, P (SExtend xs)) ->
  (forall e body, Forall P body -> P (SIf e body)) ->
  (forall var e body, Forall P body -> P (SFor var e body)) ->
  P SReturn ->
  forall s, P s.
Proof.
  intros Hdef Hload Hinit Halias Happ Hext Hif Hfor Hret.
  fix IH 1. intros [body|n| | |x|xs|e body|v e body|].
  - apply Hdef. induction body as [|s body IHb]; constructor; [apply IH|exact IHb].
  - apply Hload.
  - exact Hinit.
  - exact Halias.
  - apply Happ.
  - apply Hext.
  - apply Hif. induction body as [|s body IHb]; constructor; [apply IH|exact IHb].
  - apply Hfor. induction body as [|s body IHb]; constructor; [apply IH|exact IHb].
  - exact Hret.
Qed.

Section WithHost.
Context {V : Type} `{Ops V}.
Variable context : gmap string V.

Lemma block_keeps (var : string) (body : list stmt) :
  Forall (keeps context var) body ->
  existsb (assigns var) body = false ->
  forall f f', run_block (exec_stmt context) body f = Ok (Normal f') ->
               locals f' !! var = locals f !! var.
Proof.
  induction 1 as [|s body Hs Hbody IH]; intros Ha f f'.
  - intros [= <-]. reflexivity.
  - simpl in Ha. apply orb_false_elim in Ha as [Has Hab].
    cbn [run_block].
    destruct (exec_stmt context s f) as [[f1|out]|e|] eqn:E;
      cbn [mbind outcome_bind]; try discriminate.
    intros Hr. rewrite (IH Hab _ _ Hr). apply (Hs _ _ E Has).
Qed.

Lemma for_keeps (block : frame V -> outcome (flow V)) (v var : string)
    (err : option exn) (xs : list V) :
  (forall g g', block g = Ok (Normal g') -> locals g' !! var = locals g !! var) ->
  v <> var ->
  forall f f', run_for block v err xs f = Ok (Normal f') ->
               locals f' !! var = locals f !! var.
Proof.
  intros Hblock Hne. induction xs as [|x xs IH]; intros f f'.
  - simpl. destruct err; [discriminate|]. intros [= <-]. reflexivity.
  - cbn [run_for].
    destruct (block (bind_local v x f)) as [[f1|out]|e|] eqn:E;
      cbn [mbind outcome_bind]; try discriminate.
    intros Hr. rewrite (IH _ _ Hr), (Hblock _ _ E). simpl.
    apply lookup_insert_ne. exact Hne.
Qed.

Lemma stmt_keeps (var : string) (s : stmt) : keeps context var s.
Proof.
  induction s as [body _|n| | |x|xs|e body IH|v e body IH|] using stmt_nested_ind;
    intros f f'; cbn [exec_stmt assigns].
  - discriminate.
  - destruct (context !! n); [|discriminate]. intros [= <-] Hn. simpl.
    apply lookup_insert_ne. apply String.eqb_neq. exact Hn.
  - intros [= <-] _. reflexivity.
  - intros [= <-] _. reflexivity.
  - destruct (eval_item f x); cbn [mbind outcome_bind]; try discriminate.
    intros [= <-] _. reflexivity.
  - destruct (eval_items f xs); cbn [mbind outcome_bind]; try discriminate.
    intros [= <-] _. reflexivity.
  - destruct (eval f e) as [c|e'|]; cbn [mbind outcome_bind]; try discriminate.
    destruct (truth c) as [[|]|e'|]; cbn [mbind outcome_bind]; try discriminate.
    + intros Hr Ha. eapply block_keeps; eassumption.
    + intros [= <-] _. reflexivity.
  - destruct (eval f e) as [it|e'|]; cbn [mbind outcome_bind]; try discriminate.
    intros Hr Ha. apply orb_false_elim in Ha as [Hv Ha].
    eapply for_keeps; [|apply String.eqb_neq, Hv|exact Hr].
    intros g g' Hg. eapply block_keeps; eassumption.
  - discriminate.
Qed.

(** After a loop whose body does not assign the loop variable again,
    the variable holds the last item; after a loop over no item, what
    it held before. *)
Lemma for_binds_last (var : string) (e : pyexpr) (body : list stmt)
    (f f' : frame V) (it : V) :
  eval f e = Ok it ->
  existsb (assigns var) body = false ->
  exec_stmt context (SFor var e body) f = Ok (Normal f') ->
  locals f' !! var = match last (fst (iterate it)) with
                     | Some x => Some x
                     | None => locals f !! var
                     end.
Proof.
  intros He Ha. cbn [exec_stmt]. rewrite He. cbn [mbind outcome_bind]. clear He.
  generalize (snd (iterate it)). generalize (fst (iterate it)). intros xs err.
  revert f. induction xs as [|x xs IH]; intros f.
  - simpl. destruct err; [discriminate|]. intros [= <-]. reflexivity.
  - cbn [run_for].
    destruct (run_block (exec_stmt context) body (bind_local var x f))
      as [[f1|out]|e1|] eqn:E; cbn [mbind outcome_bind]; try discriminate.
    intros Hr. rewrite (IH _ Hr), last_cons.
    destruct (last xs); [reflexivity|].
    assert (Hk : Forall (keeps context var) body)
      by (apply Forall_forall; intros s _; apply stmt_keeps).
    rewrite (block_keeps var body Hk Ha _ _ E).
    simpl. apply lookup_insert_eq.
Qed.

(** The turns of a loop that ends without a [return]. *)
Lemma run_for_turns (var : string) (body : list stmt) (err : option exn)
    (xs : list V) (f f' : frame V) :
  run_for (run_block (exec_stmt context) body) var err xs f = Ok (Normal f')
  <-> err = None /\ turns context var body xs f f'.
Proof.
  revert f. induction xs as [|x xs IH]; intros f.
  - cbn [run_for]. split.
    + destruct err; [discriminate|]. intros [= <-]. split; [reflexivity|constructor].
    + intros [-> Ht]. inversion Ht; subst. reflexivity.
  - cbn [run_for]. split.
    + destruct (run_block (exec_stmt context) body (bind_local var x f))
        as [[f1|out]|e|] eqn:E; cbn [mbind outcome_bind]; try discriminate.
      intros Hr. apply IH in Hr as [-> Ht]. split; [reflexivity|].
      econstructor; [exact E|exact Ht].
    + intros [-> Ht]. inversion Ht as [|? ? ? f1 ? E Ht1]; subst.
      unfold exec_block in E. rewrite E. cbn [mbind outcome_bind].
      apply IH. split; [reflexivity|exact Ht1].
Qed.

Lemma for_turns (var : string) (e : pyexpr) (body : list stmt) (f f' : frame V) :
  exec_stmt context (SFor var e body) f = Ok (Normal f')
  <-> exists it, eval f e = Ok it /\ snd (iterate it) = None /\
                 turns context var body (fst (iterate it)) f f'.
Proof.
  cbn [exec_stmt]. split.
  - destruct (eval f e) as [it|e'|]; cbn [mbind outcome_bind]; try discriminate.
    intros Hr. apply run_for_turns in Hr as [He Ht]. exists it. auto.
  - intros (it & -> & He & Ht). cbn [mbind outcome_bind].
    apply run_for_turns. auto.
Qed.

(** What the turns leave: without a value, the frame as it was; with
    one, what the body left on its turn for the last value. *)
Lemma turns_last (var : string) (body : list stmt) (xs : list V) (f f' : frame V) :
  turns context var body xs f f' ->
  match last xs with
  | None => f' = f
  | Some x => exists g, exec_block context body (bind_local var x g) = Ok (Normal f')
  end.
Proof.
  induction 1 as [f|x xs f f1 f' E Ht IH]; [reflexivity|].
  rewrite last_cons. destruct (last xs) as [y|]; [exact IH|].
  subst f'. exists f. exact E.
Qed.

Lemma block_stays_bound (var : string) (body : list stmt) :
  Forall (stays_bound context var) body ->
  forall f f', run_block (exec_stmt context) body f = Ok (Normal f') ->
               is_Some (locals f !! var) -> is_Some (locals f' !! var).
Proof.
  induction 1 as [|s body Hs Hbody IH]; intros f f'.
  - intros [= <-]. auto.
  - cbn [run_block].
    destruct (exec_stmt context s f) as [[f1|out]|e|] eqn:E;
      cbn [mbind outcome_bind]; try discriminate.
    intros Hr Hb. apply (IH _ _ Hr). apply (Hs _ _ E Hb).
Qed.

Lemma for_stays_bound (block : frame V -> outcome (flow V)) (v var : string)
    (err : option exn) (xs : list V) :
  (forall g g', block g = Ok (Normal g') ->
                is_Some (locals g !! var) -> is_Some (locals g' !! var)) ->
  forall f f', run_for block v err xs f = Ok (Normal f') ->
               is_Some (locals f !! var) -> is_Some (locals f' !! var).
Proof.
  intros Hblock. induction xs as [|x xs IH]; intros f f'.
  - simpl. destruct err; [discriminate|]. intros [= <-]. auto.
  - cbn [run_for].
    destruct (block (bind_local v x f)) as [[f1|out]|e|] eqn:E;
      cbn [mbind outcome_bind]; try discriminate.
    intros Hr Hb. apply (IH _ _ Hr). apply (Hblock _ _ E). cbn [bind_local locals].
    destruct (decide (v = var)) as [->|Hne].
    + rewrite lookup_insert_eq. eauto.
    + rewrite lookup_insert_ne by exact Hne. exact Hb.
Qed.

(** Nothing in the generated function unbinds a local. *)
Lemma stmt_stays_bound (var : string) (s : stmt) : stays_bound context var s.
Proof.
  induction s as [body _|n| | |x|xs|e body IH|v e body IH|] using stmt_nested_ind;
    intros f f'; cbn [exec_stmt].
  - discriminate.
  - destruct (context !! n); [|discriminate]. intros [= <-] Hb. cbn [bind_local locals].
    destruct (decide (n = var)) as [->|Hne].
    + rewrite lookup_insert_eq. eauto.
    + rewrite lookup_insert_ne by exact Hne. exact Hb.
  - intros [= <-]. auto.
  - intros [= <-]. auto.
  - destruct (eval_item f x); cbn [mbind outcome_bind]; try discriminate.
    intros [= <-]. auto.
  - destruct (eval_items f xs); cbn [mbind outcome_bind]; try discriminate.
    intros [= <-]. auto.
  - destruct (eval f e) as [c|e'|]; cbn [mbind outcome_bind]; try discriminate.
    destruct (truth c) as [[|]|e'|]; cbn [mbind outcome_bind]; try discriminate.
    + apply block_stays_bound, IH.
    + intros [= <-]. auto.
  - destruct (eval f e) as [it|e'|]; cbn [mbind outcome_bind]; try discriminate.
    apply for_stays_bound. apply block_stays_bound, IH.
  - discriminate.
Qed.

(** After a loop over at least one value the loop variable is bound. *)
Lemma for_leaves_bound (var : string) (body : list stmt) (xs : list V) (f f' : frame V) :
  turns context var body xs f f' -> xs <> [] -> is_Some (locals f' !! var).
Proof.
  intros Ht Hne. pose proof (turns_last _ _ _ _ _ Ht) as Hl.
  destruct (last xs) as [x|] eqn:El.
  - destruct Hl as [g Hg].
    assert (Hk : Forall (stays_bound context var) body)
      by (apply Forall_forall; intros s _; apply stmt_stays_bound).
    apply (block_stays_bound var body Hk _ _ Hg). cbn [bind_local locals].
    rewrite lookup_insert_eq. eauto.
  - apply last_None in El. contradiction.
Qed.

End WithHost.
End LoopFacts.

Module ScopeResults.
Import PyStr Gen Tokenizer Compile Spec Host Exec ExprFacts ExecFacts LoopFacts.

Lemma step_for token v e s :
  classify token = Action -> words_of token = ["for"; v; "in"; e] ->
  step token s =
  let fs := flush_output s in
  Ok (set_code CodeBuilder.indent
        (set_code (CodeBuilder.add_line (LFor v (expr_of e)))
           (set_all_vars (names_of e ∪ all_vars fs)
              (set_loop_vars ({[v]} ∪ loop_vars fs)
                 (set_ops_stack ("for" :: ops_stack fs) fs))))).
Proof.
  intros Hc Hw. unfold step. rewrite Hc. fold (words_of token). rewrite Hw.
  generalize (flush_output s). intros fs.
  unfold action. cbn [String.eqb Ascii.eqb Bool.eqb]. cbn iota.
  rewrite _variable_ok. cbn [mbind outcome_bind].
  rewrite expr_code_in_closed. reflexivity.
Qed.

(** C6, as amended.  For every [for] tag the loop variable is registered
    in [loop_vars] and is a local of the generated function that the
    loop assigns.  The loop runs its body once for each value, in order,
    with the variable bound to the value at the start of the turn and
    every turn starting from what the turn before left.  Nothing unbinds
    the variable when the loop ends: after a loop over no value the
    locals are what they were; after a loop over values they are what
    the turn of the last value left, so the variable is bound, to the
    last value unless the body itself assigns the name (a loop inside it
    over the same name), and then to what the body left in it.  Every
    name in [all_vars] minus [loop_vars] must be in the context at render
    time, which fails with a [KeyError] otherwise.  So two loops over
    one name, one inside the other, leave the last value of the inner
    one; and after a loop over no value a reference to its variable is
    an [UnboundLocalError], whatever the context holds under that name. *)
Theorem C6_loop_variable_is_function_local
    (V : Type) (ops : Ops V) (context : gmap string V) :
  (forall token v e s,
      classify token = Action -> words_of token = ["for"; v; "in"; e] ->
      exists s', step token s = Ok s' /\ v ∈ loop_vars s' /\
                 exists before,
                   CodeBuilder.code (code s')
                   = before ++ [CodeBuilder.Line (CodeBuilder.indent_level (code (flush_output s)))
                                  (LFor v (expr_of e))]) /\
  (forall var e body (f f' : frame V),
      exec_stmt context (SFor var e body) f = Ok (Normal f') <->
      exists it, eval f e = Ok it /\ snd (iterate it) = None /\
                 turns context var body (fst (iterate it)) f f') /\
  (forall var e body (f f' : frame V) it,
      eval f e = Ok it ->
      exec_stmt context (SFor var e body) f = Ok (Normal f') ->
      match last (fst (iterate it)) with
      | None => f' = f
      | Some x =>
          is_Some (locals f' !! var) /\
          (exists g, exec_block context body (bind_local var x g) = Ok (Normal f')) /\
          (existsb (assigns var) body = false -> locals f' !! var = Some x)
      end) /\
  (forall template av lv fn name,
      Template.compile template = Ok (av, lv, fn) ->
      name ∈ av ∖ lv -> context !! name = None ->
      exists k, k ∈ av ∖ lv /\ context !! k = None /\
                call_render_function context fn = Raise (Exn KeyError k)) /\
  PyVal.try_render "{% for x in xs %}{% for x in ys %}{{ x }}{% endfor %}{% endfor %}|{{ x }}"
    [("xs", PyVal.PList [PyVal.PInt 1; PyVal.PInt 2]);
     ("ys", PyVal.PList [PyVal.PInt 7; PyVal.PInt 8])]
  = Ok "7878|8" /\
  PyVal.try_render "{% for num in nums %}{{ num }}{% endfor %}{{ num }}"
    [("nums", PyVal.PList []); ("num", PyVal.PInt 9)]
  = Raise (Exn UnboundLocalError "c_num").
Proof.
  split; [|split; [|split; [|split; [|split]]]].
  - intros token v e s Hc Hw. rewrite (step_for _ _ _ _ Hc Hw).
    eexists. split; [reflexivity|].
    split; [simpl; set_solver|]. simpl. eexists. reflexivity.
  - intros var e body f f'. apply for_turns.
  - intros var e body f f' it He Hr.
    pose proof Hr as Hr0. apply for_turns in Hr as (it' & He' & _ & Ht).
    rewrite He in He'. injection He' as <-.
    pose proof (turns_last _ _ _ _ _ _ Ht) as Hl.
    destruct (last (fst (iterate it))) as [x|] eqn:El; [|exact Hl].
    split; [|split; [exact Hl|]].
    + apply (for_leaves_bound _ _ _ _ _ _ Ht). intros Hn. rewrite Hn in El. discriminate.
    + intros Ha. rewrite (for_binds_last context var e body f f' it He Ha Hr0), El.
      reflexivity.
  - intros template av lv fn name. apply missing_name_key_error.
  - vm_compute. reflexivity.
  - vm_compute. reflexivity.
Qed.

End ScopeResults.

(** ** The engine on particular inputs *)

Module Cases.
Import PyStr Gen Tokenizer Compile Spec Host Exec PyVal.

(** C2 fails on the code: a dotted access on a tuple.  The key lookup
    and the attribute lookup fail, the handler [except Exception] is
    entered, and the text it prints is formatted with ["..." % var]: for
    the tuple [(1, 2)] that is a [TypeError], raised inside the handler,
    and [render] does not return the empty string but raises. *)
Theorem C2_dotted_failure_on_tuple_propagates :
  try_render "{{ t.missing }}" [("t", PTuple [PInt 1; PInt 2])]
  = Raise (Exn TypeError "not all arguments converted during string formatting").
Proof. vm_compute. reflexivity. Qed.

(** What does hold of the handler: when the base can be formatted, every
    [Exception] on the path gives the empty string. *)
Lemma do_dots_degrades (V : Type) (ops : Ops V) (var : V) (path : list string) (e : exn) :
  Dots.dots_loop path var = Raise e -> is_Exception e = true ->
  format_s var = Ok tt ->
  Dots._do_dots var path = Ok (str_value EmptyString).
Proof.
  intros Hl He Hf. unfold Dots._do_dots. rewrite Hl, He, Hf. reflexivity.
Qed.

(** And an exception that is not an [Exception] goes through. *)
Lemma do_dots_lets_through (V : Type) (ops : Ops V) (var : V) (path : list string) (e : exn) :
  Dots.dots_loop path var = Raise e -> is_Exception e = false ->
  Dots._do_dots var path = Raise e.
Proof.
  intros Hl He. unfold Dots._do_dots. rewrite Hl, He. reflexivity.
Qed.

(** The source text that the engine gives to [exec] for a loop. *)
Example source_of_a_loop :
  python_source "{% for x in xs %}{{ x }}, {% endfor %}done"
  = Ok "def render_function(context, do_dots):
    c_xs = context['xs']
    result = []
    append_result = result.append
    extend_result = result.extend
    to_str = str
    for c_x in c_xs:
        extend_result([to_str(c_x), ', '])
    append_result('done')
    return ''.join(result)
".
Proof. vm_compute. reflexivity. Qed.

Example missing_attribute_renders_empty :
  try_render "{{ obj.missing }}" [("obj", PObj [("a", PStr "yolo")])] = Ok "".
Proof. vm_compute. reflexivity. Qed.

Example undefined_variable_raises :
  try_render "Hi {{ name }}" [] = Raise (Exn KeyError "name").
Proof. vm_compute. reflexivity. Qed.

Example undefined_filter_raises :
  try_render "{{ name|upper }}" [("name", PStr "bob")] = Raise (Exn KeyError "upper").
Proof. vm_compute. reflexivity. Qed.

(** C5 fails on the code: the check of [_variable] matches every name
    against the empty pattern, so no name is refused; and [9lives], or
    the empty name, put after [c_] is a Python name, so the generated
    source is accepted and the template renders. *)
Theorem C5_invalid_identifier_compiles :
  (forall name vars_set, _variable name vars_set = Ok ({[name]} ∪ vars_set)) /\
  valid_identifier "9lives" = false /\
  (exists fn, Template.compile "{{ 9lives }}" = Ok ({["9lives"]}, ∅, fn)) /\
  try_render "{{ 9lives }}" [("9lives", PStr "x")] = Ok "x" /\
  valid_identifier "" = false /\
  try_render "{{ }}" [("", PStr "x")] = Ok "x".
Proof.
  split; [reflexivity|]. split; [reflexivity|].
  split; [eexists; vm_compute; reflexivity|].
  split; [vm_compute; reflexivity|]. split; vm_compute; reflexivity.
Qed.

(** The names that the test suite expects to be refused: [exec] raises
    a [SyntaxError] at the first line with such a name, the load of the
    name. *)
Example invalid_names_raise_syntax_error :
  try_render "{{ _@$DSAF }}" [] = Raise (Exn SyntaxError "invalid syntax") /\
  try_render "{% for !! in $$ %}{% endfor %}" [] = Raise (Exn SyntaxError "invalid syntax").
Proof. split; vm_compute; reflexivity. Qed.

(** Beyond the limits that the model keeps to, and for holes that are
    some other Python text, it says nothing. *)
Example outside_the_model :
  Template.compile "{{ a|b|c|d|e|f|g|h|i|j|k|l|m|n|o|p|q|r }}" = Unmodelled /\
  Template.compile "{{ a b }}" = Unmodelled /\
  Template.compile "{{ a!=b }}" = Unmodelled.
Proof. repeat split; vm_compute; reflexivity. Qed.

Example sixteen_filters_compile :
  exists fn,
    Template.compile "{{ a|b|c|d|e|f|g|h|i|j|k|l|m|n|o|p|q }}"
    = Ok (list_to_set ["a"; "b"; "c"; "d"; "e"; "f"; "g"; "h"; "i"; "j"; "k"; "l"; "m";
                       "n"; "o"; "p"; "q"], ∅, fn).
Proof. eexists. vm_compute. reflexivity. Qed.

(** C3 fails as stated: the message of a mismatched end tag reports the
    kind after [end], not the text of the tag. *)
Lemma C3_mismatched_message_lacks_token :
  _tokenize "{% if c %}x{% endfor %}" = [""; "{% if c %}"; "x"; "{% endfor %}"; ""] /\
  Template.compile "{% if c %}x{% endfor %}"
  = Raise (Exn TemplateSyntaxError "Mismatched end tag: 'for'") /\
  contains "{% endfor %}" "Mismatched end tag: 'for'" = false /\
  contains "{% if c %}" "Mismatched end tag: 'for'" = false.
Proof. repeat split; vm_compute; reflexivity. Qed.

(** C6 fails as stated: the reference to [num] after the loop is
    satisfied by the binding of the loop; the context has no [num]. *)
Lemma C6_loop_binding_visible_after_loop :
  try_render "{% for num in numbers %}{{ num }}, {% endfor %}{{ num }}"
    [("numbers", PList [PInt 1; PInt 2; PInt 3; PInt 4])]
  = Ok "1, 2, 3, 4, 4".
Proof. vm_compute. reflexivity. Qed.

(** C9 fails as stated: an earlier tag fails first. *)
Lemma C9_earlier_error_comes_first :
  "{% %}" ∈ _tokenize "{% bogus %}{% %}" /\
  classify "{% %}" = Action /\ blank (inner "{% %}") = true /\
  Template.compile "{% bogus %}{% %}"
  = Raise (Exn TemplateSyntaxError "Don't understand tag: 'bogus'").
Proof.
  split; [vm_compute; set_solver|]. repeat split; vm_compute; reflexivity.
Qed.

End Cases.

(** ** The theorems at particular inputs *)

Module Witnesses.
Import PyStr Gen Tokenizer Compile Spec Host Exec PyVal Samples.

Lemma C1_witness :
  contains_char "|" "obj.a" = false /\ contains_char "." "obj.a" = true /\
  _expr_code "obj.a" ∅ = Ok (EDots (EName "obj") ["a"], {["obj"]} ∪ ∅) /\
  getitem (PObj [("a", PStr "yolo")]) "a"
  = Raise (Exn TypeError "indices must be integers, or no __getitem__") /\
  Dots.dots_loop ["a"] (PObj [("a", PStr "yolo")]) = Ok (PStr "yolo").
Proof.
  split; [reflexivity|]. split; [reflexivity|].
  pose proof (ExprResults.C1_dotted_access_resolution "obj.a" ∅ eq_refl eq_refl)
    as (_ & Hcode & _ & _ & _ & Hattr & _).
  split; [exact Hcode|]. split; [reflexivity|].
  apply (Hattr value ops (PObj [("a", PStr "yolo")]) "a" [] TypeError
           "indices must be integers, or no __getitem__");
    [repeat constructor|reflexivity].
Defined.

Lemma C3_witness :
  Template.compile "{% endif %}"
  = Raise (syntax_error "Too many ends" "{% endif %}").
Proof.
  exact (proj1 (proj1 (BlockResults.C3_block_matching_errors "{% endif %}")
                  [""] "{% endif %}" [""] start "endif"
                  eq_refl eq_refl eq_refl eq_refl eq_refl) eq_refl).
Defined.

Lemma C4_witness :
  contains_char "|" "name|upper|first" = true /\
  tl (split_on "|" "name|upper|first") <> [].
Proof.
  split; [reflexivity|].
  exact (proj1 (FilterResults.C4_filters_left_to_right "name|upper|first" ∅ eq_refl)).
Defined.

Lemma C6_witness :
  eval (Frame {[ "xs" := PList [PInt 1; PInt 2] ]} []) (EName "xs")
  = Ok (PList [PInt 1; PInt 2]) /\
  exec_stmt ∅ (SFor "x" (EName "xs") [SAppend (IToStr (EName "x"))])
    (Frame {[ "xs" := PList [PInt 1; PInt 2] ]} [])
  = Ok (Normal (Frame (<["x" := PInt 2]> (<["x" := PInt 1]> {[ "xs" := PList [PInt 1; PInt 2] ]}))
                  ["1"; "2"])) /\
  locals (Frame (<["x" := PInt 2]> (<["x" := PInt 1]> {[ "xs" := PList [PInt 1; PInt 2] ]}))
            ["1"; "2"]) !! "x"
  = Some (PInt 2).
Proof.
  assert (He : eval (Frame {[ "xs" := PList [PInt 1; PInt 2] ]} []) (EName "xs")
               = Ok (PList [PInt 1; PInt 2])) by reflexivity.
  assert (Hr : exec_stmt ∅ (SFor "x" (EName "xs") [SAppend (IToStr (EName "x"))])
                 (Frame {[ "xs" := PList [PInt 1; PInt 2] ]} [])
               = Ok (Normal (Frame (<["x" := PInt 2]>
                                      (<["x" := PInt 1]> {[ "xs" := PList [PInt 1; PInt 2] ]}))
                               ["1"; "2"])))
    by (vm_compute; reflexivity).
  split; [exact He|]. split; [exact Hr|].
  exact (proj2 (proj2 (proj1 (proj2 (proj2 (ScopeResults.C6_loop_variable_is_function_local
                                              value ops ∅)))
                         "x" (EName "xs") [SAppend (IToStr (EName "x"))] _ _ _ He Hr))
           eq_refl).
Defined.

Lemma C8_witness :
  has_delimiter "yolo" = false /\
  exists self (h1 : gmap Template.loc (gmap string value)),
    Template.__init__ "yolo" [] ∅ = (Ok self, h1) /\
    fst (Template.render self None h1) = Ok "yolo".
Proof.
  split; [reflexivity|].
  destruct (LiteralResults.C8_literal_text_renders_unchanged
              (V:=value) "yolo" [] ∅ eq_refl) as (self & h1 & Hi & Hs & Hr).
  - intros c Hc. apply elem_of_nil in Hc. contradiction.
  - exists self, h1. split; [exact Hi|].
    apply Hr; [exact Hs|intros c Hc; discriminate Hc].
Defined.

Lemma C9_witness :
  blank (inner "{% %}") = true /\
  Template.compile "a{% %}" = Raise (Exn IndexError "list index out of range").
Proof.
  split; [reflexivity|].
  exact (proj1 (BlockResults.C9_blank_action_tag_index_error
                  "a{% %}" ["a"] "{% %}" [""] (set_buffered [ILit "a"] start)
                  eq_refl eq_refl eq_refl eq_refl)).
Defined.


End Witnesses.


(** * Further properties of the engine *)

(** ** Indentation and the errors of a construction *)

Module ConstructionFacts.
Import PyStr Gen Tokenizer Compile Spec ExprFacts CompileFacts CompileErrors
       ShapeFacts Exec ExecFacts.

Lemma flush_indent s :
  CodeBuilder.indent_level (code (flush_output s)) = CodeBuilder.indent_level (code s).
Proof. unfold flush_output. destruct (buffered s) as [|x [|y xs]]; reflexivity. Qed.

(** The indentation of the builder follows the stack of open blocks. *)
Lemma step_indent token s s' :
  step token s = Ok s' ->
  CodeBuilder.indent_level (code s) = 4 * (1 + Z.of_nat (length (ops_stack s))) ->
  CodeBuilder.indent_level (code s') = 4 * (1 + Z.of_nat (length (ops_stack s'))).
Proof.
  unfold step. destruct (classify token).
  - intros [= <-]. auto.
  - rewrite expr_code_in_closed. simpl. intros [= <-]. auto.
  - destruct (split_ws (strip (inner token))) as [|w0 ws]; [discriminate|].
    generalize (flush_ops_stack s) (flush_indent s). generalize (flush_output s).
    intros fs Hfs Hfi. unfold action. rewrite Hfs.
    destruct (String.eqb w0 "if").
    { destruct ws as [|w1 [|w2 ws]]; try discriminate.
      rewrite expr_code_in_closed. intros [= <-] Hs.
      cbn [ops_stack code set_code set_all_vars set_ops_stack CodeBuilder.indent
           CodeBuilder.add_line CodeBuilder.indent_level length].
      rewrite Hfi, Hs. unfold CodeBuilder.INDENT_STEP. lia. }
    destruct (String.eqb w0 "for").
    { destruct ws as [|w1 [|w2 [|w3 [|w4 ws]]]]; try discriminate.
      destruct (String.eqb w2 "in"); [|discriminate].
      rewrite _variable_ok. cbn [mbind outcome_bind].
      rewrite expr_code_in_closed. intros [= <-] Hs.
      cbn [ops_stack code set_code set_all_vars set_loop_vars set_ops_stack
           CodeBuilder.indent CodeBuilder.add_line CodeBuilder.indent_level length].
      rewrite Hfi, Hs. unfold CodeBuilder.INDENT_STEP. lia. }
    destruct (startswith w0 "end").
    { destruct ws as [|w1 ws]; [|discriminate].
      destruct (ops_stack s) as [|top rest]; [discriminate|].
      destruct (String.eqb top (drop 3 w0)); [|discriminate].
      intros [= <-] Hs.
      cbn [ops_stack code set_code set_ops_stack CodeBuilder.dedent
           CodeBuilder.indent_level].
      rewrite Hfi, Hs. unfold CodeBuilder.INDENT_STEP. simpl length. lia. }
    discriminate.
  - destruct (String.eqb token EmptyString); intros [= <-]; auto.
Qed.

Lemma loop_indent tokens s s' :
  loop tokens s = Ok s' ->
  CodeBuilder.indent_level (code s) = 4 * (1 + Z.of_nat (length (ops_stack s))) ->
  CodeBuilder.indent_level (code s') = 4 * (1 + Z.of_nat (length (ops_stack s'))).
Proof.
  revert s. induction tokens as [|token tokens IH]; intros s; [intros [= <-]; auto|].
  simpl. destruct (step token s) as [s1|e|] eqn:E; simpl; try discriminate.
  intros Hl Hs. eapply IH; [exact Hl|]. eapply step_indent; eassumption.
Qed.

Lemma build_indent template s :
  build template = Ok s -> CodeBuilder.indent_level (code s) = 0.
Proof.
  unfold build. destruct (loop (_tokenize template) start) as [s0|e|] eqn:El;
    simpl; try discriminate.
  pose proof (loop_indent _ _ _ El eq_refl) as Hi.
  unfold finish. destruct (ops_stack s0) eqn:Es; [|discriminate].
  generalize (flush_indent s0). generalize (flush_output s0). intros fs Hfi.
  intros [= <-]. simpl. rewrite Hfi, Hi. reflexivity.
Qed.

(** The compile loop never leaves the model. *)
Lemma step_modelled token s : step token s <> Unmodelled.
Proof.
  unfold step. destruct (classify token); try discriminate.
  - rewrite expr_code_in_closed. discriminate.
  - generalize (flush_output s). intros fs. unfold action.
    destruct (split_ws (strip (inner token))) as [|w0 ws]; [discriminate|].
    destruct (String.eqb w0 "if").
    { destruct ws as [|w1 [|w2 ws]]; try discriminate.
      rewrite expr_code_in_closed. discriminate. }
    destruct (String.eqb w0 "for").
    { destruct ws as [|w1 [|w2 [|w3 [|w4 ws]]]]; try discriminate.
      destruct (String.eqb w2 "in"); [|discriminate].
      rewrite _variable_ok. cbn [mbind outcome_bind].
      rewrite expr_code_in_closed. discriminate. }
    destruct (startswith w0 "end"); [|discriminate].
    destruct ws as [|w1 ws]; [|discriminate].
    destruct (ops_stack fs) as [|top rest]; [discriminate|].
    destruct (String.eqb top (drop 3 w0)); discriminate.
  - destruct (String.eqb token EmptyString); discriminate.
Qed.

Lemma loop_modelled tokens s : loop tokens s <> Unmodelled.
Proof.
  revert s. induction tokens as [|token tokens IH]; intros s; [discriminate|].
  cbn [loop]. pose proof (step_modelled token s) as Hs.
  destruct (step token s) as [s1|e|]; cbn [mbind outcome_bind];
    [apply IH|discriminate|contradiction].
Qed.

Lemma build_modelled template : build template <> Unmodelled.
Proof.
  unfold build. pose proof (loop_modelled (_tokenize template) start) as Hl.
  destruct (loop (_tokenize template) start) as [s|e|]; cbn [mbind outcome_bind];
    [|discriminate|contradiction].
  unfold finish. destruct (ops_stack s); discriminate.
Qed.

(** X1. While a template is compiled the indentation of the builder is
    four columns for the function body and four more for every open
    block; a template whose blocks all close leaves it at zero, so the
    assertion of [get_globals] never fails.  The compile loop itself,
    before [exec], always ends: with the builder, with the [IndexError] of
    an action tag without words, or with a [TemplateSyntaxError]; and
    every other failure of a construction is a failure of [exec] on the
    source. *)
Theorem X1_construction_errors (template : string) :
  (forall s, loop (_tokenize template) start = Ok s ->
             CodeBuilder.indent_level (code s)
             = 4 * (1 + Z.of_nat (length (ops_stack s)))) /\
  (forall s, build template = Ok s ->
             CodeBuilder.indent_level (code s) = 0 /\
             get_render_function (code s) (vars_code s)
             = (module ← parse_module (CodeBuilder.lines (code s) (vars_code s));
                render_function_of module)) /\
  build template <> Unmodelled /\
  (forall e, build template = Raise e ->
             exc_type e = IndexError \/ exc_type e = TemplateSyntaxError) /\
  (forall e, Template.compile template = Raise e ->
             build template = Raise e \/
             exists s, build template = Ok s /\
                       parse_module (CodeBuilder.lines (code s) (vars_code s)) = Raise e).
Proof.
  split; [|split; [|split; [|split]]].
  - intros s Hl. apply (loop_indent _ _ _ Hl). reflexivity.
  - intros s Hb. pose proof (build_indent _ _ Hb) as Hi. split; [exact Hi|].
    rewrite get_render_function_eq, Hi. reflexivity.
  - apply build_modelled.
  - intros e Eb. destruct (build_raise_cases _ _ Eb) as [->|Hd]; [left; reflexivity|].
    right. destruct Hd; reflexivity.
  - intros e. unfold Template.compile.
    destruct (build template) as [s|e1|] eqn:Eb; cbn [mbind outcome_bind];
      [|intros [= <-]; left; reflexivity|discriminate].
    rewrite get_render_function_eq, (build_indent _ _ Eb).
    change (0 =? 0) with true. cbn iota.
    destruct (parse_module _) as [module|e1|] eqn:Ep; cbn [mbind outcome_bind];
      [|intros [= <-]; right; exists s; split; [reflexivity|exact Ep]|discriminate].
    destruct (render_function_of module) as [fn|e2|] eqn:Er;
      cbn [mbind outcome_bind]; try discriminate.
    unfold render_function_of in Er.
    destruct module as [|[] [|]]; discriminate.
Qed.

End ConstructionFacts.

(** ** The tokenizer: leftmost and shortest matches *)

Module TokenizerMore.
Import PyStr PyStrFacts Tokenizer Spec TokenizerFacts.

(** The tokens up to the first tag: nothing matches before the tag, the
    tag is the match at its place, and what follows is tokenized on its
    own. *)
Lemma split_loop_first fuel s text tag rest :
  (String.length s <= fuel)%nat ->
  split_loop fuel s = text :: tag :: rest ->
  (forall k, (k < String.length text)%nat -> match_tag (drop k s) = None) /\
  match_tag (drop (String.length text) s) = Some (tag, String.concat EmptyString rest) /\
  rest = _tokenize (String.concat EmptyString rest).
Proof.
  revert s text. induction fuel as [|fuel IH]; intros s text Hf; [discriminate|].
  simpl. destruct (match_tag s) as [[m r]|] eqn:M.
  - intros [= <- <- <-]. rewrite split_loop_concat.
    destruct (match_tag_split _ _ _ M) as (_ & _ & Hlen).
    split; [intros k Hk; simpl in Hk; lia|]. split; [exact M|].
    apply tokenize_fuel. lia.
  - destruct s as [|a r]; [discriminate|]. simpl in Hf.
    destruct (split_loop fuel r) as [|w ws] eqn:Es; [discriminate|].
    simpl. intros [= <- ->].
    destruct (IH r w ltac:(lia) Es) as (Hnone & Hsome & Hrest).
    split; [|split; [exact Hsome|exact Hrest]].
    intros [|k] Hk; [exact M|]. cbn [drop]. apply Hnone. simpl in Hk. lia.
Qed.

(** X2. The tokenizer cuts at the leftmost match and the match is the
    shortest one: when the tokens of a template begin with a text and a
    tag, no tag starts anywhere in the text, the tag starts right after
    it, the closer of the tag occurs in the tag only at its end, and the
    tokens after the tag are the tokens of the text after the tag. *)
Theorem X2_tokenize_leftmost_shortest
    (template text tag : string) (rest : list string) :
  _tokenize template = text :: tag :: rest ->
  template = text +:+ tag +:+ String.concat EmptyString rest /\
  (forall k, (k < String.length text)%nat -> match_tag (drop k template) = None) /\
  match_tag (drop (String.length text) template)
    = Some (tag, String.concat EmptyString rest) /\
  rest = _tokenize (String.concat EmptyString rest) /\
  exists x c1 c2 body,
    closer_of x = Some (c1, c2) /\
    tag = String "{" (String x body) /\
    find_close c1 c2 (drop 2 (drop (String.length text) template))
      = Some (body, String.concat EmptyString rest) /\
    forall k, (k + 2 < String.length body)%nat ->
              startswith (drop k body) (String c1 (String c2 EmptyString)) = false.
Proof.
  intros Ht.
  destruct (split_loop_first _ _ _ _ _ (le_n _) Ht) as (Hnone & Hsome & Hrest).
  split.
  { pose proof (split_loop_concat (String.length template) template) as Hc.
    fold (_tokenize template) in Hc. rewrite Ht in Hc.
    rewrite !concat_cons in Hc. symmetry. exact Hc. }
  split; [exact Hnone|]. split; [exact Hsome|]. split; [exact Hrest|].
  revert Hsome. generalize (drop (String.length text) template). intros s.
  unfold match_tag. destruct s as [|o [|x body0]]; try discriminate.
  destruct (Ascii.eqb_spec o "{") as [->|]; [|discriminate].
  destruct (closer_of x) as [[c1 c2]|] eqn:Ec; [|discriminate].
  destruct (find_close c1 c2 body0) as [[m r]|] eqn:F; [|discriminate].
  intros [= <- Hr]. exists x, c1, c2, m.
  split; [exact Ec|]. split; [reflexivity|]. split; [rewrite <- Hr; exact F|].
  apply (find_close_first _ _ _ _ _ F).
Qed.

End TokenizerMore.

(** ** The stored context *)

Module StoredContext.
Import Host Template HeapFacts.

Section WithHost.
Context {V : Type} `{Ops V}.

Lemma update_all_merge (target : loc) (contexts : list loc) :
  forall (dicts : list (gmap string V)) (h : gmap loc (gmap string V)) (d : gmap string V),
    h !! target = Some d ->
    Forall2 (fun c dc => h !! c = Some dc) contexts dicts ->
    target ∉ contexts ->
    update_all target contexts h
    = (Ok tt, <[target := foldl (fun acc dc => dc ∪ acc) d dicts]> h).
Proof.
  induction contexts as [|c cs IH]; intros dicts h d Ht Hall Hnot.
  - inversion Hall; subst. simpl. rewrite insert_id; [reflexivity|exact Ht].
  - inversion Hall as [|c' dc cs' ds Hc Hrest]; subst.
    apply not_elem_of_cons in Hnot as [Hne Hnot].
    cbn [update_all foldl]. unfold dict_update. rewrite Ht, Hc.
    rewrite (IH ds (<[target := dc ∪ d]> h) (dc ∪ d)).
    + rewrite insert_insert_eq. reflexivity.
    + apply lookup_insert_eq.
    + clear -Hrest Hnot.
      induction Hrest as [|c' dc' cs ds Hc' Hrest IHr]; constructor.
      * apply not_elem_of_cons in Hnot as [Hne' _].
        rewrite lookup_insert_ne; assumption.
      * apply IHr. apply not_elem_of_cons in Hnot as [_ Hnot]. exact Hnot.
    + exact Hnot.
Qed.

Lemma merge_later_wins (post : list (gmap string V)) (acc : gmap string V) (k : string) :
  Forall (fun d => d !! k = None) post ->
  foldl (fun acc dc => dc ∪ acc) acc post !! k = acc !! k.
Proof.
  intros Hp. revert acc. induction Hp as [|d post Hd Hp IH]; intros acc; [reflexivity|].
  cbn [foldl]. rewrite IH. apply lookup_union_r. exact Hd.
Qed.

(** X3. The context that a template stores is a new dictionary holding
    the default contexts merged in the order given: for every key, the
    value of the last default context that has the key, and no value when
    none has it.  Nothing else in the heap changes, and the construction
    fails exactly when the compilation of the text fails. *)
Theorem X3_default_contexts_merged
    (template : string) (contexts : list loc)
    (dicts : list (gmap string V)) (h : gmap loc (gmap string V)) :
  Forall2 (fun c dc => h !! c = Some dc) contexts dicts ->
  let target := fresh (dom h) in
  let stored := foldl (fun acc dc => dc ∪ acc) ∅ dicts in
  h !! target = None /\
  snd (__init__ template contexts h) = <[target := stored]> h /\
  fst (__init__ template contexts h)
    = (r ← compile template;
       Ok {| context := target; all_vars := r.1.1; loop_vars := r.1.2;
             _render_function := r.2 |}) /\
  (forall k pre dc post v,
      dicts = pre ++ dc :: post -> dc !! k = Some v ->
      Forall (fun d => d !! k = None) post -> stored !! k = Some v) /\
  (forall k, Forall (fun d => d !! k = None) dicts -> stored !! k = None).
Proof.
  intros Hall target stored.
  assert (Hfresh : h !! target = None).
  { apply not_elem_of_dom. apply is_fresh. }
  assert (Hnot : target ∉ contexts).
  { clear -Hall Hfresh. induction Hall as [|c dc cs ds Hc Hall IH].
    - apply not_elem_of_nil.
    - apply not_elem_of_cons. split; [congruence|exact IH]. }
  assert (Hall0 : Forall2 (fun c dc => <[target := ∅]> h !! c = Some dc) contexts dicts).
  { clear -Hall Hnot. induction Hall as [|c dc cs ds Hc Hall IH]; constructor.
    - apply not_elem_of_cons in Hnot as [Hne _]. rewrite lookup_insert_ne; assumption.
    - apply IH. apply not_elem_of_cons in Hnot as [_ Hnot]. exact Hnot. }
  pose proof (update_all_merge target contexts dicts (<[target := ∅]> h) ∅
                (lookup_insert_eq _ _ _) Hall0 Hnot) as Hu.
  rewrite insert_insert_eq in Hu. fold stored in Hu.
  split; [exact Hfresh|].
  unfold __init__, new_dict. fold target. rewrite Hu.
  split; [reflexivity|]. split.
  { simpl. destruct (compile template) as [[[av lv] fn]|e|]; reflexivity. }
  split.
  - intros k pre dc post v -> Hk Hpost. unfold stored.
    rewrite foldl_app. cbn [foldl].
    rewrite (merge_later_wins post _ k Hpost).
    apply lookup_union_Some_l. exact Hk.
  - intros k Hnone. unfold stored.
    rewrite (merge_later_wins dicts ∅ k Hnone). apply lookup_empty.
Qed.

End WithHost.
End StoredContext.

(** ** Buffered output *)

Module BufferFacts.
Import Gen Compile Spec Vocabulary Host Exec.

Section WithHost.
Context {V : Type} `{Ops V}.
Variable context : gmap string V.

Lemma eval_locals (f g : frame V) (e : pyexpr) :
  locals f = locals g -> eval f e = eval g e.
Proof.
  intros Hl. induction e as [name|func arg IH|base IH dots]; cbn [eval].
  - unfold read_local. rewrite Hl. reflexivity.
  - unfold read_local. rewrite Hl, IH. reflexivity.
  - rewrite IH. reflexivity.
Qed.

Lemma eval_items_locals (f g : frame V) (xs : list pyitem) :
  locals f = locals g -> eval_items f xs = eval_items g xs.
Proof.
  intros Hl. induction xs as [|x xs IH]; [reflexivity|].
  cbn [eval_items]. rewrite IH. destruct x as [e|token]; cbn [eval_item];
    [rewrite (eval_locals f g e Hl)|]; reflexivity.
Qed.

(** One [extend_result([...])] does what an [append_result(...)] for each
    item does, failures included. *)
Lemma extend_as_appends (xs : list pyitem) (f : frame V) :
  exec_stmt context (SExtend xs) f = exec_block context (SAppend <$> xs) f.
Proof.
  revert f. induction xs as [|x xs IH]; intros f.
  - cbn. unfold emit. rewrite app_nil_r. destruct f; reflexivity.
  - rewrite fmap_cons. unfold exec_block in *. cbn [run_block exec_stmt eval_items].
    destruct (eval_item f x) as [s|e|]; cbn [mbind outcome_bind]; try reflexivity.
    rewrite <- IH. cbn [exec_stmt].
    rewrite (eval_items_locals (emit [s] f) f xs eq_refl).
    destruct (eval_items f xs) as [ss|e|]; cbn [mbind outcome_bind]; try reflexivity.
    unfold emit. cbn [locals result]. rewrite <- app_assoc. reflexivity.
Qed.

End WithHost.

(** X4. [flush_output] empties the buffer, and a second flush does
    nothing; it adds no line for an empty buffer and otherwise one line at
    the current indentation, an [append_result] for one item and an
    [extend_result] for several; and whichever it is, running the line
    appends the items of the buffer to the result one after the other, as
    if each had been written on its own. *)
Theorem X4_flush_output (s : state) :
  buffered (flush_output s) = [] /\
  flush_output (flush_output s) = flush_output s /\
  CodeBuilder.code (code (flush_output s))
    = CodeBuilder.code (code s)
        ++ match flushed_line (buffered s) with
           | Some l => [CodeBuilder.Line (CodeBuilder.indent_level (code s)) l]
           | None => []
           end /\
  (forall l, flushed_line (buffered s) = Some l -> header l = None) /\
  forall (V : Type) (ops : Ops V) (context : gmap string V) (f : frame V),
    match flushed_line (buffered s) with
    | Some l => exec_stmt context (simple l) f
    | None => Ok (Normal f)
    end = exec_block context (SAppend <$> buffered s) f.
Proof.
  split; [|split; [|split; [|split]]].
  - unfold flush_output. destruct (buffered s) as [|x [|y xs]]; reflexivity.
  - unfold flush_output. destruct s as [av lv c vc b o]; cbn.
    destruct b as [|x [|y xs]]; reflexivity.
  - unfold flush_output. destruct (buffered s) as [|x [|y xs]]; cbn;
      [rewrite app_nil_r|..]; reflexivity.
  - intros l. destruct (buffered s) as [|x [|y xs]]; cbn; intros [= <-]; reflexivity.
  - intros V ops context f. destruct (buffered s) as [|x [|y xs]].
    + reflexivity.
    + cbn [flushed_line simple]. rewrite <- extend_as_appends. cbn.
      destruct (eval_item f x); reflexivity.
    + cbn [flushed_line simple]. apply extend_as_appends.
Qed.

End BufferFacts.

(** ** Tokens without effect *)

Module SilentTokens.
Import PyStr Gen Tokenizer Compile Spec Vocabulary CompileFacts TokenizerResults.

Lemma step_insignificant token s :
  significant token = false -> step token s = Ok s.
Proof.
  unfold significant. intros Hs. apply andb_false_iff in Hs as [Hc|He].
  - apply negb_false_iff in Hc. unfold step.
    destruct (classify_by_prefix token) as (Hcm & _). rewrite (proj2 Hcm Hc). reflexivity.
  - apply negb_false_iff in He. apply String.eqb_eq in He as ->. reflexivity.
Qed.

Lemma loop_significant tokens s :
  loop tokens s = loop (List.filter significant tokens) s.
Proof.
  revert s. induction tokens as [|token tokens IH]; intros s; [reflexivity|].
  cbn [List.filter loop]. destruct (significant token) eqn:Es.
  - cbn [loop]. destruct (step token s); cbn [mbind outcome_bind]; auto.
  - rewrite (step_insignificant _ _ Es). cbn [mbind outcome_bind]. apply IH.
Qed.

(** X5. Comment tags and empty texts leave no trace: the compile loop
    gives the same state with them as without, so two templates whose
    tokens differ only in comments and empty texts compile to the same
    function, or fail with the same error. *)
Theorem X5_comments_leave_no_trace (template1 template2 : string) :
  List.filter significant (_tokenize template1)
    = List.filter significant (_tokenize template2) ->
  build template1 = build template2 /\
  Template.compile template1 = Template.compile template2.
Proof.
  intros Hf.
  assert (Hb : build template1 = build template2).
  { unfold build. rewrite (loop_significant (_tokenize template1)),
      (loop_significant (_tokenize template2)), Hf. reflexivity. }
  split; [exact Hb|]. unfold Template.compile. rewrite Hb. reflexivity.
Qed.

End SilentTokens.

(** ** Expressions: every text compiles *)

Module ExprMore.
Import PyStr Gen Compile Spec ExprFacts.

Lemma split_on_pieces sep s :
  Forall (fun piece => contains_char sep piece = false) (split_on sep s).
Proof.
  induction s as [|a r IH]; [repeat constructor|].
  simpl. destruct (Ascii.eqb a sep) eqn:E; [constructor; [reflexivity|exact IH]|].
  destruct (split_on sep r) as [|w ws]; simpl.
  - repeat constructor. simpl. rewrite E. reflexivity.
  - inversion IH; subst. constructor; [simpl; rewrite E; assumption|assumption].
Qed.

Lemma split_on_sub c sep s :
  contains_char c s = false ->
  Forall (fun piece => contains_char c piece = false) (split_on sep s).
Proof.
  induction s as [|a r IH]; [repeat constructor|].
  simpl. destruct (Ascii.eqb a c) eqn:E; [discriminate|]. intros Hr.
  destruct (Ascii.eqb a sep); [constructor; [reflexivity|apply IH, Hr]|].
  specialize (IH Hr). destruct (split_on sep r) as [|w ws]; simpl.
  - repeat constructor. simpl. rewrite E. reflexivity.
  - inversion IH; subst. constructor; [simpl; rewrite E; assumption|assumption].
Qed.

(** X6. [_expr_code] never fails, whatever the text, the empty text and
    texts of separators included: the result is the filters, which are the
    pieces after the first ["|"] taken whole (a dot in a filter is part of
    its name), applied in turn to the base, which is the first piece, a
    name or a name with a path of at least one further name; the root
    name and the filter names are added to [all_vars], nothing is
    removed from it; and more than three levels of recursion are never
    needed. *)
Theorem X6_expr_code_total (expr : string) (all_vars : gset string) :
  _expr_code expr all_vars = Ok (expr_of expr, names_of expr ∪ all_vars) /\
  (forall fuel, _expr_code_rec (3 + fuel) expr all_vars = _expr_code expr all_vars) /\
  all_vars ⊆ names_of expr ∪ all_vars /\
  (exists root path,
      contains_char "|" root = false /\ contains_char "." root = false /\
      root ∈ names_of expr /\
      Forall (fun name => contains_char "." name = false
                          /\ contains_char "|" name = false) path /\
      ((path = [] /\ base_of expr = EName root) \/
       (path <> [] /\ base_of expr = EDots (EName root) path))) /\
  Forall (fun func => contains_char "|" func = false /\ func ∈ names_of expr)
         (filters_of expr).
Proof.
  split; [apply expr_code_closed|]. split; [intros fuel; apply expr_code_fuel|].
  split; [set_solver|]. split.
  - set (first := hd EmptyString (split_on "|" expr)).
    assert (Hfirst : contains_char "|" first = false) by apply hd_split_on_no_sep.
    exists (hd EmptyString (split_on "." first)), (tl (split_on "." first)).
    split; [apply hd_split_on_sub, Hfirst|]. split; [apply hd_split_on_no_sep|].
    split; [unfold names_of; fold first; set_solver|]. split.
    + pose proof (split_on_pieces "." first) as Hp1.
      pose proof (split_on_sub "|" "." first Hfirst) as Hp2.
      apply Forall_and. split.
      * destruct (split_on "." first); [constructor|inversion Hp1; assumption].
      * destruct (split_on "." first); [constructor|inversion Hp2; assumption].
    + unfold base_of. fold first.
      destruct (tl (split_on "." first)); [left|right]; split; auto; discriminate.
  - apply Forall_and. split.
    + unfold filters_of. pose proof (split_on_pieces "|" expr) as Hp.
      destruct (split_on "|" expr); [constructor|inversion Hp; assumption].
    + apply Forall_forall. intros func Hin. unfold names_of.
      apply elem_of_union_r, elem_of_list_to_set. exact Hin.
Qed.

End ExprMore.

(** ** The parser, without its fuel *)

Module ParseFacts.
Import Gen Spec Vocabulary Exec ExecFacts.

Lemma parse_block_fuel fuel ind ls :
  (length ls < fuel)%nat -> parse_suite fuel ind ls = parse_block ind ls.
Proof. intros Hf. apply parse_suite_stable; [exact Hf|lia]. Qed.

Lemma parse_block_nil ind : parse_block ind [] = Ok ([], []).
Proof. reflexivity. Qed.

(** The tests on the column of a line at the indentation of its block. *)
Lemma at_block ind :
  0 <= ind <= MAX_COLUMN ->
  (MAX_COLUMN <? column ind) = false /\ (column ind <? ind) = false
  /\ (ind <? column ind) = false.
Proof.
  intros Hi. rewrite (column_id ind) by lia.
  rewrite Z.ltb_irrefl. split; [apply Z.ltb_ge; lia|]. split; reflexivity.
Qed.

(** A line at a lower indentation ends the block. *)
Lemma parse_block_lower ind i l rest :
  0 <= i < ind -> i <= MAX_COLUMN ->
  parse_block ind ((i, l) :: rest) = Ok ([], (i, l) :: rest).
Proof.
  intros Hi Hm. unfold parse_block. rewrite parse_suite_S, (column_id i) by lia.
  destruct (Z.ltb_spec MAX_COLUMN i); [lia|].
  destruct (Z.ltb_spec i ind); [reflexivity|lia].
Qed.

(** A simple line at the indentation of the block is its next statement. *)
Lemma parse_block_simple ind l rest :
  0 <= ind <= MAX_COLUMN -> line_ok l = true -> header l = None ->
  parse_block ind ((ind, l) :: rest)
  = ('(ss, rest') ← parse_block ind rest; Ok (simple l :: ss, rest')).
Proof.
  intros Hi Hl Hh. unfold parse_block. rewrite parse_suite_S.
  destruct (at_block ind Hi) as (-> & -> & ->).
  unfold line_ok in Hl. destruct (line_verdict l); try discriminate.
  rewrite Hh. rewrite (parse_block_fuel _ ind rest) by (simpl; lia). reflexivity.
Qed.

Lemma parse_block_simples ind ls rest :
  0 <= ind <= MAX_COLUMN ->
  Forall (fun l => line_ok l = true /\ header l = None) ls ->
  parse_block ind (((fun l => (ind, l)) <$> ls) ++ rest)
  = ('(ss, rest') ← parse_block ind rest; Ok ((simple <$> ls) ++ ss, rest')).
Proof.
  intros Hi. induction 1 as [|l ls [Hl Hh] Hls IH].
  - simpl. destruct (parse_block ind rest) as [[ss r]|e|]; reflexivity.
  - rewrite fmap_cons, <- app_comm_cons, (parse_block_simple _ _ _ Hi Hl Hh), IH.
    destruct (parse_block ind rest) as [[ss r]|e|]; reflexivity.
Qed.

(** A line whose holes the parser refuses. *)
Lemma parse_block_invalid ind l rest :
  0 <= ind <= MAX_COLUMN -> line_verdict l = Invalid ->
  parse_block ind ((ind, l) :: rest) = refused l rest.
Proof.
  intros Hi Hl. unfold parse_block. rewrite parse_suite_S.
  destruct (at_block ind Hi) as (-> & -> & ->). rewrite Hl. reflexivity.
Qed.

(** A line that opens a block, followed by a deeper line: the block at
    the indentation of that line, then the rest of the enclosing block. *)
Lemma parse_block_header ind l mk j l' rest body rest1 :
  0 <= ind <= MAX_COLUMN -> line_ok l = true -> header l = Some mk -> ind < j ->
  parse_block j ((j, l') :: rest) = Ok (body, rest1) ->
  match rest1 with
  | (k, _) :: _ => column k <= ind
  | [] => True
  end ->
  parse_block ind ((ind, l) :: (j, l') :: rest)
  = ('(ss, rest2) ← parse_block ind rest1; Ok (mk body :: ss, rest2)).
Proof.
  intros Hi Hl Hh Hj Hbody Hk. unfold parse_block at 1. rewrite parse_suite_S.
  destruct (at_block ind Hi) as (-> & -> & ->).
  unfold line_ok in Hl. destruct (line_verdict l); try discriminate.
  rewrite Hh, (column_id j) by lia.
  destruct (Z.ltb_spec ind j); [|lia].
  rewrite (parse_block_fuel _ j ((j, l') :: rest)) by (simpl; lia).
  rewrite Hbody. cbn [mbind outcome_bind].
  pose proof (parse_suite_fuel _ _ _ _ _ Hbody) as Hlen.
  destruct rest1 as [|[k lk] rest1']; [reflexivity|].
  destruct (Z.ltb_spec ind (column k)); [lia|].
  rewrite (parse_block_fuel _ ind ((k, lk) :: rest1')) by (simpl in *; lia).
  reflexivity.
Qed.



Lemma parse_module_block ls :
  parse_module ls
  = ('(ss, rest) ← parse_block 0 ls;
     match rest with
     | [] => Ok ss
     | _ :: _ => Unmodelled
     end).
Proof. reflexivity. Qed.

End ParseFacts.

(** ** Running the parts of the generated function *)

Module RunFacts.
Import Gen Spec Vocabulary Host Exec ExecFacts BufferFacts.

Lemma reads_apply_filters (filters : list string) (base : pyexpr) (n : string) :
  n ∈ reads (apply_filters_code filters base) <-> n ∈ filters \/ n ∈ reads base.
Proof.
  unfold apply_filters_code. revert base.
  induction filters as [|f fs IH]; intros base; cbn [foldl].
  - split; [auto|]. intros [Hn|Hn]; [|exact Hn]. apply elem_of_nil in Hn. contradiction.
  - rewrite IH. cbn [reads]. rewrite !elem_of_cons. tauto.
Qed.

(** The names that a compiled expression reads are the names that it
    registers. *)
Lemma reads_expr_of (expr : string) (n : string) :
  n ∈ reads (expr_of expr) <-> n ∈ names_of expr.
Proof.
  unfold expr_of. rewrite reads_apply_filters. unfold names_of, base_of.
  rewrite elem_of_union, elem_of_singleton, elem_of_list_to_set.
  destruct (tl (PyStr.split_on "." _)); cbn [reads];
    rewrite list_elem_of_singleton; tauto.
Qed.

Lemma hole_fine (name : string) : hole name = Fine <-> ident_ok name = true.
Proof.
  unfold hole. destruct (ident_ok name); [tauto|].
  destruct (junk_ok name); split; discriminate.
Qed.

Lemma worse_fine (a b : verdict) : worse a b = Fine <-> a = Fine /\ b = Fine.
Proof. destruct a, b; cbn; split; try tauto; try discriminate; intros [? ?]; discriminate. Qed.

Lemma is_fine_true (v : verdict) : is_fine v = true <-> v = Fine.
Proof. destruct v; cbn; split; try tauto; discriminate. Qed.

Lemma expr_holes_reads (e : pyexpr) :
  expr_holes e = Fine <-> forall n, n ∈ reads e -> ident_ok n = true.
Proof.
  induction e as [name|func arg IH|base IH dots]; cbn [expr_holes reads].
  - rewrite hole_fine. split.
    + intros Hn n Hin. apply list_elem_of_singleton in Hin as ->. exact Hn.
    + intros Hall. apply Hall. apply list_elem_of_singleton. reflexivity.
  - rewrite worse_fine, hole_fine, IH. split.
    + intros [Hf Ha] n Hin. apply elem_of_cons in Hin as [->|Hin]; auto.
    + intros Hall. split; [apply Hall; left|]. intros n Hin. apply Hall. right. exact Hin.
  - exact IH.
Qed.

(** An expression is as the engine means it when it is within the
    limits and every name that it reads is one. *)
Lemma expr_ok_iff (e : pyexpr) :
  expr_ok e = true
  <-> within_limits e = true /\ forall n, n ∈ reads e -> ident_ok n = true.
Proof.
  unfold expr_ok, expr_verdict. rewrite <- expr_holes_reads.
  destruct (within_limits e).
  - rewrite is_fine_true. tauto.
  - cbn. split; [discriminate|]. intros [? _]. discriminate.
Qed.

Lemma expr_ok_reads (e : pyexpr) :
  expr_ok e = true -> forall n, n ∈ reads e -> ident_ok n = true.
Proof. intros He. apply expr_ok_iff, He. Qed.

Section WithHost.
Context {V : Type} `{Ops V}.
Variable context : gmap string V.

Lemma exec_block_app (a b : list stmt) (f : frame V) :
  exec_block context (a ++ b) f
  = (r ← exec_block context a f;
     match r with
     | Normal f' => exec_block context b f'
     | Returned out => Ok (Returned out)
     end).
Proof.
  revert f. induction a as [|s a IH]; intros f; [reflexivity|].
  rewrite <- app_comm_cons, !exec_block_cons.
  destruct (exec_stmt context s f) as [[f1|out]|e|]; cbn [mbind outcome_bind];
    [apply IH|reflexivity..].
Qed.

(** An expression sees the locals only at the names it reads. *)
Lemma eval_agree (f g : frame V) (e : pyexpr) :
  (forall n, n ∈ reads e -> locals f !! n = locals g !! n) ->
  eval f e = eval g e.
Proof.
  induction e as [name|func arg IH|base IH dots]; cbn [eval reads]; intros Hag.
  - unfold read_local. rewrite (Hag name); [reflexivity|]. apply list_elem_of_singleton. reflexivity.
  - unfold read_local. rewrite (Hag func) by left.
    rewrite IH; [reflexivity|]. intros n Hn. apply Hag. right. exact Hn.
  - rewrite (IH Hag). reflexivity.
Qed.

Lemma eval_items_agree (f g : frame V) (xs : list pyitem) :
  (forall x n, x ∈ xs -> n ∈ item_reads x -> locals f !! n = locals g !! n) ->
  eval_items f xs = eval_items g xs.
Proof.
  induction xs as [|x xs IH]; intros Hag; [reflexivity|].
  cbn [eval_items]. rewrite IH by (intros y n Hy; apply Hag; right; exact Hy).
  destruct x as [e|token]; cbn [eval_item]; [|reflexivity].
  rewrite (eval_agree f g e); [reflexivity|].
  intros n Hn. apply (Hag (IToStr e) n); [left|exact Hn].
Qed.

(** The loads, when the context has every name: the locals are the
    context at these names and what they were elsewhere. *)
Lemma loads_run (names : list string) (f : frame V) :
  (forall n, n ∈ names -> is_Some (context !! n)) ->
  exists f',
    exec_block context (SLoad <$> names) f = Ok (Normal f') /\
    result f' = result f /\
    (forall n, n ∈ names -> locals f' !! n = context !! n) /\
    (forall n, n ∉ names -> locals f' !! n = locals f !! n).
Proof.
  revert f. induction names as [|n names IH]; intros f Hall.
  - exists f. split; [reflexivity|]. split; [reflexivity|]. split; [|reflexivity].
    intros n Hn. apply elem_of_nil in Hn. contradiction.
  - destruct (Hall n ltac:(left)) as [v Hv].
    destruct (IH (bind_local n v f)) as (f' & Hrun & Hres & Hin & Hout).
    { intros m Hm. apply Hall. right. exact Hm. }
    exists f'. rewrite fmap_cons, exec_block_cons. cbn [exec_stmt]. rewrite Hv.
    cbn [mbind outcome_bind]. split; [exact Hrun|]. split; [exact Hres|]. split.
    + intros m Hm. destruct (decide (m ∈ names)) as [Hmn|Hmn]; [apply Hin, Hmn|].
      apply elem_of_cons in Hm as [->|Hm]; [|contradiction].
      rewrite (Hout _ Hmn). simpl. rewrite lookup_insert_eq. symmetry. exact Hv.
    + intros m Hm. apply not_elem_of_cons in Hm as [Hne Hm].
      rewrite (Hout _ Hm). simpl. apply lookup_insert_ne. congruence.
Qed.

Lemma fixed_run (f : frame V) :
  exec_block context fixed_stmts f = Ok (Normal (Frame (locals f) [])).
Proof. reflexivity. Qed.

(** The flushed line appends the texts of the buffered items. *)
Lemma flush_run (buffered : list pyitem) (f : frame V) :
  exec_block context (flush_stmts buffered) f
  = (ss ← eval_items f buffered; Ok (Normal (emit ss f))).
Proof.
  unfold flush_stmts. destruct buffered as [|x [|y xs]]; cbn [flushed_line simple].
  - cbn. unfold emit. rewrite app_nil_r. destruct f; reflexivity.
  - cbn. destruct (eval_item f x); reflexivity.
  - rewrite exec_block_cons. cbn [exec_stmt].
    destruct (eval_items f (x :: y :: xs)); reflexivity.
Qed.

End WithHost.
End RunFacts.

(** ** The compile loop on tokens without action tags *)

Module FlatFacts.
Import PyStr Gen Tokenizer Compile Spec Vocabulary Exec ExprFacts CompileFacts
       ShapeFacts ExecFacts ParseFacts.

Lemma start_state : start = state_of ∅ ∅ [] 4 [] [].
Proof. reflexivity. Qed.

Lemma to_entries_app a b : to_entries (a ++ b) = to_entries a ++ to_entries b.
Proof. apply fmap_app. Qed.

Lemma lines_of_entries ls section : CodeBuilder.lines_of (to_entries ls) section = ls.
Proof.
  induction ls as [|[i l] ls IH]; [reflexivity|].
  unfold to_entries in *. rewrite fmap_cons. cbn [CodeBuilder.lines_of fst snd].
  rewrite IH. reflexivity.
Qed.

Lemma flush_state av lv body i B ops :
  flush_output (state_of av lv body i B ops)
  = state_of av lv (body ++ flush_lines i B) i [] ops.
Proof.
  unfold flush_output, state_of, flush_lines.
  destruct B as [|x [|y xs]]; cbn [buffered flushed_line];
    unfold set_buffered, set_code, CodeBuilder.add_line;
    cbn [all_vars loop_vars code vars_code buffered ops_stack
         CodeBuilder.code CodeBuilder.indent_level];
    rewrite ?to_entries_app, ?app_nil_r, <- ?app_assoc; reflexivity.
Qed.

Lemma step_flat token av lv body i B ops :
  classify token <> Action ->
  step token (state_of av lv body i B ops)
  = Ok (state_of (flat_names [token] ∪ av) lv body i (B ++ flat_items [token]) ops).
Proof.
  intros Hc. unfold step. cbn [flat_names flat_items].
  destruct (classify token); try contradiction.
  - rewrite app_nil_r. f_equal. unfold state_of. f_equal. set_solver.
  - rewrite expr_code_in_closed. cbn [mbind outcome_bind]. f_equal.
    unfold state_of, set_buffered, set_all_vars.
    cbn [all_vars loop_vars code vars_code buffered ops_stack].
    f_equal. set_solver.
  - destruct (String.eqb token EmptyString).
    + rewrite app_nil_r. f_equal. unfold state_of. f_equal. set_solver.
    + f_equal. unfold state_of, set_buffered.
      cbn [all_vars loop_vars code vars_code buffered ops_stack].
      f_equal. set_solver.
Qed.

Lemma flat_items_app a b : flat_items (a ++ b) = flat_items a ++ flat_items b.
Proof.
  induction a as [|t a IH]; [reflexivity|]. simpl.
  destruct (classify t); rewrite ?IH; try reflexivity.
  destruct (String.eqb t EmptyString); rewrite ?IH; reflexivity.
Qed.

Lemma flat_names_app a b : flat_names (a ++ b) = flat_names a ∪ flat_names b.
Proof.
  induction a as [|t a IH]; [simpl; set_solver|]. simpl.
  destruct (classify t); rewrite ?IH; set_solver.
Qed.

(** Texts, output tags and comments only fill the buffer and the set of
    names. *)
Lemma loop_flat tokens av lv body i B ops :
  flat tokens ->
  loop tokens (state_of av lv body i B ops)
  = Ok (state_of (flat_names tokens ∪ av) lv body i (B ++ flat_items tokens) ops).
Proof.
  intros Hf. revert av B. induction Hf as [|token tokens Hc Hf IH]; intros av B.
  - simpl. rewrite app_nil_r. f_equal. unfold state_of. f_equal. set_solver.
  - cbn [loop]. rewrite (step_flat _ _ _ _ _ _ _ Hc). cbn [mbind outcome_bind].
    rewrite IH. f_equal.
    change (token :: tokens) with ([token] ++ tokens).
    rewrite flat_items_app, flat_names_app, app_assoc.
    unfold state_of. f_equal. set_solver.
Qed.

(** The source of a template whose loop ends with every block closed. *)
Lemma compile_state template av lv body B :
  loop (_tokenize template) start = Ok (state_of av lv body 4 B []) ->
  Template.compile template
  = (module ← parse_module
                (source_lines (elements (av ∖ lv)) (body ++ flush_lines 4 B));
     fn ← render_function_of module;
     Ok (av, lv, fn)).
Proof.
  intros Hl. unfold Template.compile, build. rewrite Hl. cbn [mbind outcome_bind].
  unfold finish. cbn [ops_stack state_of]. rewrite flush_state.
  cbn [mbind outcome_bind all_vars loop_vars state_of].
  rewrite get_render_function_eq.
  cbn [code set_code set_vars_code state_of vars_code CodeBuilder.dedent
       CodeBuilder.add_line CodeBuilder.indent_level].
  change (4 - CodeBuilder.INDENT_STEP =? 0) with true. cbn iota.
  unfold CodeBuilder.lines.
  cbn [code set_code set_vars_code state_of vars_code CodeBuilder.dedent
       CodeBuilder.add_line CodeBuilder.indent_level CodeBuilder.code].
  destruct (add_loads_code (elements (av ∖ lv)) (vars_code start)) as [Hlc _].
  rewrite Hlc.
  change (CodeBuilder.code (vars_code start)) with (@nil CodeBuilder.entry).
  change (CodeBuilder.indent_level (vars_code start)) with 4.
  rewrite app_nil_l, lines_of_loads.
  change (CodeBuilder.code (code start))
    with (CodeBuilder.Line 0 LDef :: CodeBuilder.Section
            :: to_entries ((fun l => (4, l)) <$> fixed_lines)).
  rewrite <- !app_comm_cons. cbn [CodeBuilder.lines_of].
  rewrite <- !app_assoc, !lines_of_app, !lines_of_entries.
  cbn [CodeBuilder.lines_of].
  unfold source_lines.
  destruct (parse_module _) as [module|e|]; reflexivity.
Qed.

End FlatFacts.

(** ** Templates without action tags *)

Module FlatResults.
Import PyStr Gen Tokenizer Compile Spec Vocabulary Host Exec ExprFacts CompileFacts
       ShapeFacts ExecFacts ParseFacts RunFacts FlatFacts.

Lemma flat_items_reads tokens x n :
  x ∈ flat_items tokens -> n ∈ item_reads x -> n ∈ flat_names tokens.
Proof.
  induction tokens as [|t tokens IH]; simpl; [intros Hx; apply elem_of_nil in Hx; contradiction|].
  destruct (classify t); auto.
  - intros Hx Hn. apply elem_of_cons in Hx as [->|Hx].
    + apply elem_of_union_l. apply reads_expr_of. exact Hn.
    + apply elem_of_union_r. auto.
  - destruct (String.eqb t EmptyString); auto.
    intros Hx Hn. apply elem_of_cons in Hx as [->|Hx]; [|auto].
    apply elem_of_nil in Hn. contradiction.
Qed.

Lemma flat_items_ok tokens n :
  forallb item_ok (flat_items tokens) = true ->
  n ∈ flat_names tokens -> ident_ok n = true.
Proof.
  induction tokens as [|t tokens IH]; simpl; [intros _ Hn; set_solver|].
  destruct (classify t); auto.
  - cbn [forallb item_ok]. intros Hok Hn. apply andb_true_iff in Hok as [He Hok].
    apply elem_of_union in Hn as [Hn|Hn]; [|auto].
    apply (expr_ok_reads _ He). apply reads_expr_of. exact Hn.
  - destruct (String.eqb t EmptyString); auto.
Qed.

Lemma is_fine_worse (a b : verdict) : is_fine (worse a b) = is_fine a && is_fine b.
Proof. destruct a, b; reflexivity. Qed.

Lemma extend_ok (xs : list pyitem) : line_ok (LExtend xs) = forallb item_ok xs.
Proof.
  unfold line_ok. cbn [line_verdict]. induction xs as [|x xs IH]; [reflexivity|].
  cbn [foldr forallb]. rewrite is_fine_worse, IH. reflexivity.
Qed.

(** The line of a buffer of items that are as the engine means them. *)
Lemma flushed_line_ok B l :
  forallb item_ok B = true -> flushed_line B = Some l ->
  line_ok l = true /\ header l = None.
Proof.
  intros HB. destruct B as [|x [|y xs]]; cbn [flushed_line]; [discriminate|..];
    intros [= <-]; (split; [|reflexivity]).
  - cbn [forallb] in HB. rewrite andb_true_r in HB. exact HB.
  - rewrite extend_ok. exact HB.
Qed.

Lemma column_4 : 0 <= 4 <= MAX_COLUMN.
Proof. unfold MAX_COLUMN. lia. Qed.

Lemma column_8 : 0 <= 8 <= MAX_COLUMN.
Proof. unfold MAX_COLUMN. lia. Qed.

Lemma column_0 : 0 <= 0 <= MAX_COLUMN.
Proof. unfold MAX_COLUMN. lia. Qed.

(** The loads and the fixed lines at the head of the function's block. *)
Lemma parse_prologue names rest :
  (forall n, n ∈ names -> ident_ok n = true) ->
  parse_block 4 (((fun n => (4, LLoad n)) <$> names)
                   ++ ((fun l => (4, l)) <$> fixed_lines) ++ rest)
  = ('(ss, rest') ← parse_block 4 rest;
     Ok ((SLoad <$> names) ++ fixed_stmts ++ ss, rest')).
Proof.
  intros Hnames.
  replace ((fun n => (4, LLoad n)) <$> names)
    with ((fun l => (4, l)) <$> (LLoad <$> names))
    by (rewrite <- list_fmap_compose; reflexivity).
  rewrite parse_block_simples; [|exact column_4|].
  2:{ apply Forall_fmap, Forall_forall. intros n Hn. split; [|reflexivity].
      unfold line_ok. cbn [line_verdict]. apply is_fine_true, hole_fine, Hnames, Hn. }
  rewrite parse_block_simples; [|exact column_4|repeat constructor].
  destruct (parse_block 4 rest) as [[ss rest']|e|]; cbn [mbind outcome_bind];
    [|reflexivity..].
  rewrite <- list_fmap_compose. reflexivity.
Qed.

Lemma source_lines_head names body :
  exists l' rest,
    ((fun n => (4, LLoad n)) <$> names) ++ ((fun l => (4, l)) <$> fixed_lines)
      ++ body ++ [(4, LReturn)]
    = (4, l') :: rest.
Proof. destruct names as [|n names]; eexists _, _; reflexivity. Qed.

(** The module of a source: the function, with the loads, the fixed
    statements and the statements of the lines after them. *)
Lemma parse_source names body ss :
  (forall n, n ∈ names -> ident_ok n = true) ->
  parse_block 4 (body ++ [(4, LReturn)]) = Ok (ss, []) ->
  parse_module (source_lines names body)
  = Ok [SDef ((SLoad <$> names) ++ fixed_stmts ++ ss)].
Proof.
  intros Hnames Hparse.
  pose proof (parse_prologue names (body ++ [(4, LReturn)]) Hnames) as Hp.
  rewrite Hparse in Hp. cbn [mbind outcome_bind] in Hp.
  rewrite parse_module_block. unfold source_lines.
  destruct (source_lines_head names body) as (l' & rest & Hhd).
  rewrite Hhd in Hp |- *.
  rewrite (parse_block_header 0 LDef SDef 4 l' rest _ [] column_0 eq_refl eq_refl
             ltac:(lia) Hp I).
  reflexivity.
Qed.


(** The flushed line of a buffer is a simple statement of its block. *)
Lemma parse_flush_then i P rest :
  0 <= i <= MAX_COLUMN -> forallb item_ok P = true ->
  parse_block i (flush_lines i P ++ rest)
  = ('(ss, rest') ← parse_block i rest; Ok (flush_stmts P ++ ss, rest')).
Proof.
  intros Hi HP. unfold flush_lines, flush_stmts.
  destruct (flushed_line P) as [l|] eqn:El.
  - destruct (flushed_line_ok _ _ HP El) as [Hl Hh].
    cbn [app]. rewrite (parse_block_simple _ _ _ Hi Hl Hh). reflexivity.
  - cbn [app]. destruct (parse_block i rest) as [[ss rest']|e|]; reflexivity.
Qed.

Lemma parse_return : parse_block 4 [(4, LReturn)] = Ok ([SReturn], []).
Proof. reflexivity. Qed.

Lemma parse_flush B :
  forallb item_ok B = true ->
  parse_block 4 (flush_lines 4 B ++ [(4, LReturn)]) = Ok (flush_stmts B ++ [SReturn], []).
Proof.
  intros HB. rewrite (parse_flush_then 4 B _ column_4 HB), parse_return. reflexivity.
Qed.

Section WithHost.
Context {V : Type} `{Ops V}.
Variable d : gmap string V.

(** A call of the function, when the context has the names it loads:
    the statements after the fixed ones run on an empty result and on
    locals that are the context at the loaded names and nothing else. *)
Lemma call_source (names : list string) (rest : list stmt) :
  (forall n, n ∈ names -> is_Some (d !! n)) ->
  exists f0 : frame V,
    result f0 = [] /\
    (forall n, n ∈ names -> locals f0 !! n = d !! n) /\
    (forall n, n ∉ names -> locals f0 !! n = None) /\
    call_render_function d ((SLoad <$> names) ++ fixed_stmts ++ rest)
    = (r ← exec_block d rest f0;
       match r with
       | Returned out => Ok out
       | Normal _ => Unmodelled
       end).
Proof.
  intros Hall.
  destruct (loads_run d names (Frame ∅ []) Hall) as (f' & Hrun & _ & Hin & Hout).
  exists (Frame (locals f') []). split; [reflexivity|]. split; [exact Hin|]. split.
  - intros n Hn. cbn [locals]. rewrite (Hout n Hn). apply lookup_empty.
  - unfold call_render_function. rewrite exec_block_app, Hrun. cbn [mbind outcome_bind].
    rewrite exec_block_app, fixed_run. reflexivity.
Qed.

End WithHost.

(** X8. A template without action tags compiles, when the names in its
    output tags are made of letters, digits and underscores and its
    expressions are within the limits of the model (no more than
    [MAX_NESTING] filters, no more than [MAX_ARGUMENTS] names in a path),
    to a function that loads every name of its expressions from the
    context and then appends, in the order of the template, each text as
    it is and the string of the value of each expression, comments and
    empty texts giving nothing: rendering raises a [KeyError] when the
    context lacks one of the names, and otherwise returns the
    concatenation, or raises what the first failing expression raises. *)
Theorem X8_flat_template_renders_in_order (template : string) :
  flat (_tokenize template) ->
  forallb item_ok (flat_items (_tokenize template)) = true ->
  exists fn,
    Template.compile template = Ok (flat_names (_tokenize template), ∅, fn) /\
    forall (V : Type) (ops : Ops V) (d : gmap string V),
      ((forall n, n ∈ flat_names (_tokenize template) -> is_Some (d !! n)) ->
       call_render_function d fn
       = (ss ← eval_items (Frame d []) (flat_items (_tokenize template));
          Ok (String.concat EmptyString ss))) /\
      (forall n, n ∈ flat_names (_tokenize template) -> d !! n = None ->
                 exists k, k ∈ flat_names (_tokenize template) /\ d !! k = None /\
                           call_render_function d fn = Raise (Exn KeyError k)).
Proof.
  intros Hflat Hok.
  set (tokens := _tokenize template) in *.
  set (names := elements (flat_names tokens ∖ ∅)).
  assert (Hnames : forall n, n ∈ names <-> n ∈ flat_names tokens).
  { intros n. unfold names. rewrite elem_of_elements. set_solver. }
  assert (Hloop : loop tokens start = Ok (state_of (flat_names tokens) ∅ [] 4 (flat_items tokens) [])).
  { rewrite start_state, (loop_flat _ _ _ _ _ _ _ Hflat). f_equal.
    unfold state_of. f_equal. set_solver. }
  assert (Hcomp : Template.compile template
                  = Ok (flat_names tokens, ∅,
                        (SLoad <$> names) ++ fixed_stmts ++ flush_stmts (flat_items tokens)
                          ++ [SReturn])).
  { rewrite (compile_state _ _ _ _ _ Hloop). cbn [app]. fold names.
    rewrite (parse_source names _ (flush_stmts (flat_items tokens) ++ [SReturn])).
    - reflexivity.
    - intros n Hn. apply (flat_items_ok tokens n Hok). apply Hnames, Hn.
    - apply parse_flush, Hok. }
  eexists. split; [exact Hcomp|]. intros V ops d. split.
  - intros Hall.
    destruct (call_source d names (flush_stmts (flat_items tokens) ++ [SReturn]))
      as (f0 & Hres & Hin & _ & Hcall).
    { intros n Hn. apply Hall, Hnames, Hn. }
    rewrite Hcall, exec_block_app, flush_run.
    rewrite (eval_items_agree f0 (Frame d []) (flat_items tokens)).
    2:{ intros x n Hx Hn. cbn [locals]. apply Hin, Hnames.
        eapply flat_items_reads; eassumption. }
    destruct (eval_items (Frame d []) (flat_items tokens)) as [ss|e|];
      cbn [mbind outcome_bind]; try reflexivity.
    cbn. unfold emit. cbn [result]. rewrite Hres. reflexivity.
  - intros n Hn Hmiss.
    destruct (missing_name_key_error d _ _ _ _ n Hcomp) as (k & Hk & Hkm & Hr);
      [set_solver|exact Hmiss|].
    exists k. split; [set_solver|]. split; [exact Hkm|exact Hr].
Qed.

End FlatResults.

(** ** Templates with one block *)

Module BlockFacts.
Import PyStr Gen Tokenizer Compile Spec Vocabulary Host Exec ExprFacts CompileFacts
       ShapeFacts ExecFacts ConstructionFacts ParseFacts RunFacts FlatFacts FlatResults
       BufferFacts.

(** The opening tag of an [if]: the buffer is flushed, the names of the
    condition are registered, and the line of the [if] opens a block. *)
Lemma step_open_if token cond av lv body i B ops :
  classify token = Action -> words_of token = ["if"; cond] ->
  step token (state_of av lv body i B ops)
  = Ok (state_of (names_of cond ∪ av) lv
          (body ++ flush_lines i B ++ [(i, LIf (expr_of cond))]) (i + 4) []
          ("if" :: ops)).
Proof.
  intros Hc Hw. unfold step. rewrite Hc. unfold words_of in Hw. rewrite Hw, flush_state.
  unfold action. change (String.eqb "if" "if") with true. cbn beta iota.
  rewrite expr_code_in_closed. cbn [mbind outcome_bind]. f_equal.
  unfold state_of, set_code, set_all_vars, set_ops_stack, CodeBuilder.add_line,
    CodeBuilder.indent, CodeBuilder.INDENT_STEP.
  cbn [all_vars loop_vars code vars_code buffered ops_stack
       CodeBuilder.code CodeBuilder.indent_level].
  rewrite !to_entries_app, <- !app_assoc. reflexivity.
Qed.

(** The opening tag of a [for]: the loop variable is registered as
    such, the names of the sequence as names of the template. *)
Lemma step_open_for token var seq av lv body i B ops :
  classify token = Action -> words_of token = ["for"; var; "in"; seq] ->
  step token (state_of av lv body i B ops)
  = Ok (state_of (names_of seq ∪ av) ({[var]} ∪ lv)
          (body ++ flush_lines i B ++ [(i, LFor var (expr_of seq))]) (i + 4) []
          ("for" :: ops)).
Proof.
  intros Hc Hw. unfold step. rewrite Hc. unfold words_of in Hw. rewrite Hw, flush_state.
  unfold action. change (String.eqb "for" "if") with false.
  change (String.eqb "for" "for") with true. change (String.eqb "in" "in") with true.
  cbn beta iota. unfold _variable. cbn [name_pattern_matches negb mbind outcome_bind].
  rewrite expr_code_in_closed. cbn [mbind outcome_bind]. f_equal.
  unfold state_of, set_code, set_all_vars, set_loop_vars, set_ops_stack,
    CodeBuilder.add_line, CodeBuilder.indent, CodeBuilder.INDENT_STEP.
  cbn [all_vars loop_vars code vars_code buffered ops_stack
       CodeBuilder.code CodeBuilder.indent_level].
  rewrite !to_entries_app, <- !app_assoc. reflexivity.
Qed.

(** The closing tag of the innermost open block: the buffer is flushed
    and the block is closed. *)
Lemma step_close token (for_loop : bool) av lv body i B ops :
  classify token = Action ->
  words_of token = [if for_loop then "endfor" else "endif"] ->
  step token (state_of av lv body i B ((if for_loop then "for" else "if") :: ops))
  = Ok (state_of av lv (body ++ flush_lines i B) (i - 4) [] ops).
Proof.
  intros Hc Hw. unfold step. rewrite Hc. unfold words_of in Hw. rewrite Hw, flush_state.
  destruct for_loop; reflexivity.
Qed.

(** The compile loop on the tokens of one block, for an opening tag
    that registers the names [av1] and the loop variables [lv1] and adds
    the line [l]. *)
Lemma loop_one_block pre opening body closing post (for_loop : bool) av1 lv1 l :
  flat pre -> flat body -> flat post ->
  (forall av lv bd i B ops,
      step opening (state_of av lv bd i B ops)
      = Ok (state_of (av1 ∪ av) (lv1 ∪ lv) (bd ++ flush_lines i B ++ [(i, l)]) (i + 4) []
              ((if for_loop then "for" else "if") :: ops))) ->
  classify closing = Action ->
  words_of closing = [if for_loop then "endfor" else "endif"] ->
  loop (one_block pre opening body closing post) start
  = Ok (state_of (flat_names pre ∪ av1 ∪ flat_names body ∪ flat_names post) lv1
          (flush_lines 4 (flat_items pre) ++ [(4, l)] ++ flush_lines 8 (flat_items body))
          4 (flat_items post) []).
Proof.
  intros Hpre Hbody Hpost Hopen Hc Hw. unfold one_block.
  rewrite loop_app, start_state, (loop_flat _ _ _ _ _ _ _ Hpre). cbn [mbind outcome_bind].
  cbn [loop]. rewrite Hopen. cbn [mbind outcome_bind].
  rewrite loop_app, (loop_flat _ _ _ _ _ _ _ Hbody). cbn [mbind outcome_bind].
  cbn [loop]. rewrite (step_close closing for_loop _ _ _ _ _ _ Hc Hw).
  cbn [mbind outcome_bind]. rewrite (loop_flat _ _ _ _ _ _ _ Hpost).
  f_equal. change (4 + 4 - 4) with 4. change (4 + 4) with 8.
  rewrite !app_nil_l, <- !app_assoc.
  unfold state_of. f_equal; set_solver.
Qed.

Lemma parse_flush_lower Q rest :
  parse_block 8 (flush_lines 4 Q ++ (4, LReturn) :: rest)
  = Ok ([], flush_lines 4 Q ++ (4, LReturn) :: rest).
Proof.
  unfold flush_lines. destruct (flushed_line Q) as [l'|]; cbn [app];
    apply parse_block_lower; unfold MAX_COLUMN; lia.
Qed.

Lemma flush_lines_head Q rest :
  match flush_lines 4 Q ++ (4, LReturn) :: rest with
  | (k, _) :: _ => column k <= 4
  | [] => True
  end.
Proof.
  unfold flush_lines. destruct (flushed_line Q); cbn [app]; unfold column; lia.
Qed.

(** The lines of one block with a body. *)
Lemma parse_block_lines P l mk B Q :
  forallb item_ok P = true -> line_ok l = true -> header l = Some mk ->
  forallb item_ok B = true -> B <> [] -> forallb item_ok Q = true ->
  parse_block 4 (block_lines P l B Q ++ [(4, LReturn)])
  = Ok (block_stmts P mk B Q, []).
Proof.
  intros HP Hl Hh HB HBne HQ. unfold block_lines, block_stmts. rewrite <- !app_assoc.
  rewrite (parse_flush_then 4 P _ column_4 HP). cbn [app].
  assert (exists l', flushed_line B = Some l') as [l' El']
    by (destruct B as [|x [|y xs]]; [contradiction|eexists; reflexivity..]).
  destruct (flushed_line_ok _ _ HB El') as [Hl' Hh'].
  assert (HBl : flush_lines 8 B = [(8, l')]) by (unfold flush_lines; rewrite El'; reflexivity).
  assert (HBs : flush_stmts B = [simple l']) by (unfold flush_stmts; rewrite El'; reflexivity).
  rewrite HBl, HBs. cbn [app].
  assert (Hbody : parse_block 8 ((8, l') :: flush_lines 4 Q ++ [(4, LReturn)])
                  = Ok ([simple l'], flush_lines 4 Q ++ [(4, LReturn)])).
  { rewrite (parse_block_simple _ _ _ column_8 Hl' Hh'), parse_flush_lower. reflexivity. }
  rewrite (parse_block_header 4 l mk 8 l' _ _ _ column_4 Hl Hh ltac:(lia) Hbody
             (flush_lines_head Q [])).
  rewrite (parse_flush Q HQ). reflexivity.
Qed.


(** The function compiled for one block with a body. *)
Lemma compile_one_block template pre opening body closing post (for_loop : bool)
    av1 lv1 l mk :
  _tokenize template = one_block pre opening body closing post ->
  flat pre -> flat body -> flat post ->
  (forall av lv bd i B ops,
      step opening (state_of av lv bd i B ops)
      = Ok (state_of (av1 ∪ av) (lv1 ∪ lv) (bd ++ flush_lines i B ++ [(i, l)]) (i + 4) []
              ((if for_loop then "for" else "if") :: ops))) ->
  classify closing = Action ->
  words_of closing = [if for_loop then "endfor" else "endif"] ->
  header l = Some mk -> line_ok l = true ->
  (forall n, n ∈ av1 -> ident_ok n = true) ->
  forallb item_ok (flat_items pre) = true ->
  forallb item_ok (flat_items body) = true ->
  flat_items body <> [] ->
  forallb item_ok (flat_items post) = true ->
  let av := flat_names pre ∪ av1 ∪ flat_names body ∪ flat_names post in
  Template.compile template
  = Ok (av, lv1,
        (SLoad <$> elements (av ∖ lv1)) ++ fixed_stmts
          ++ block_stmts (flat_items pre) mk (flat_items body) (flat_items post)).
Proof.
  intros Htok Hpre Hbody Hpost Hopen Hc Hw Hh Hl Hav1 HP HB HBne HQ av.
  pose proof (loop_one_block pre opening body closing post for_loop av1 lv1 l
                Hpre Hbody Hpost Hopen Hc Hw) as Hloop.
  rewrite <- Htok in Hloop. rewrite (compile_state _ _ _ _ _ Hloop). fold av.
  replace ((flush_lines 4 (flat_items pre) ++ [(4, l)] ++ flush_lines 8 (flat_items body))
             ++ flush_lines 4 (flat_items post))
    with (block_lines (flat_items pre) l (flat_items body) (flat_items post))
    by (unfold block_lines; rewrite <- !app_assoc; reflexivity).
  assert (Hnames : forall n, n ∈ elements (av ∖ lv1) -> ident_ok n = true).
  { intros n Hn. apply elem_of_elements, elem_of_difference in Hn as [Hn _].
    unfold av in Hn. rewrite !elem_of_union in Hn.
    destruct Hn as [[[Hn|Hn]|Hn]|Hn];
      eauto using flat_items_ok. }
  rewrite (parse_source _ _ (block_stmts (flat_items pre) mk (flat_items body)
                               (flat_items post)));
    [reflexivity|exact Hnames|].
  apply parse_block_lines; assumption.
Qed.




Section WithHost.
Context {V : Type} `{Ops V}.
Variable d : gmap string V.

Lemma loaded_lookup (names : gset string) (n : string) :
  locals (loaded names d) !! n = if decide (n ∈ names) then d !! n else None.
Proof.
  unfold loaded. cbn [locals]. apply option_eq. intros v.
  rewrite map_lookup_filter_Some. cbn [fst].
  destruct (decide (n ∈ names)); [tauto|]. split; [tauto|discriminate].
Qed.

(** A call of the function, when the context has the names it loads. *)
Lemma call_loaded (names : gset string) (rest : list stmt) :
  (forall n, n ∈ names -> is_Some (d !! n)) ->
  call_render_function d ((SLoad <$> elements names) ++ fixed_stmts ++ rest)
  = (r ← exec_block d rest (loaded names d);
     match r with
     | Returned out => Ok out
     | Normal _ => Unmodelled
     end).
Proof.
  intros Hall.
  destruct (call_source d (elements names) rest) as (f0 & Hres & Hin & Hout & Hcall).
  { intros n Hn. apply Hall, elem_of_elements, Hn. }
  rewrite Hcall. replace f0 with (loaded names d); [reflexivity|].
  destruct f0 as [L r]. cbn [result locals] in *. subst r. unfold loaded. f_equal.
  apply map_eq. intros n.
  pose proof (loaded_lookup names n) as Hl. unfold loaded in Hl. cbn [locals] in Hl.
  rewrite Hl. destruct (decide (n ∈ names)) as [Hn|Hn].
  - symmetry. apply Hin, elem_of_elements, Hn.
  - symmetry. apply Hout. rewrite elem_of_elements. exact Hn.
Qed.

(** The statements of an [if] block, on an empty result. *)
Lemma run_if_block (f : frame V) P e B Q :
  result f = [] ->
  exec_block d (block_stmts P (SIf e) B Q) f
  = (ss1 ← eval_items f P;
     c ← eval f e;
     b ← truth c;
     ss2 ← (if b : bool then eval_items f B else Ok []);
     ss3 ← eval_items f Q;
     Ok (Returned (PyStr.join EmptyString (ss1 ++ ss2 ++ ss3)))).
Proof.
  intros Hres. unfold block_stmts.
  rewrite exec_block_app, flush_run.
  destruct (eval_items f P) as [ss1|err|]; cbn [mbind outcome_bind]; [|reflexivity..].
  cbn [app]. rewrite exec_block_cons. cbn [exec_stmt].
  rewrite (eval_locals (emit ss1 f) f e eq_refl).
  destruct (eval f e) as [c|err|]; cbn [mbind outcome_bind]; [|reflexivity..].
  destruct (truth c) as [b|err|]; cbn [mbind outcome_bind]; [|reflexivity..].
  assert (Htail : forall ss2,
             exec_block d (flush_stmts Q ++ [SReturn]) (emit ss2 (emit ss1 f))
             = (ss3 ← eval_items f Q;
                Ok (Returned (PyStr.join EmptyString (ss1 ++ ss2 ++ ss3))))).
  { intros ss2. rewrite exec_block_app, flush_run.
    rewrite (eval_items_locals (emit ss2 (emit ss1 f)) f Q eq_refl).
    destruct (eval_items f Q) as [ss3|err|]; cbn [mbind outcome_bind]; [|reflexivity..].
    cbn. unfold emit. cbn [result]. rewrite Hres, <- !app_assoc. reflexivity. }
  destruct b.
  - change (run_block (exec_stmt d) (flush_stmts B) (emit ss1 f))
      with (exec_block d (flush_stmts B) (emit ss1 f)).
    rewrite flush_run, (eval_items_locals (emit ss1 f) f B eq_refl).
    destruct (eval_items f B) as [ss2|err|]; cbn [mbind outcome_bind]; [|reflexivity..].
    apply Htail.
  - cbn [mbind outcome_bind].
    replace (emit ss1 f) with (emit [] (emit ss1 f))
      by (unfold emit; cbn [locals result]; rewrite app_nil_r; reflexivity).
    apply Htail.
Qed.

(** The turns of a [for] over a body that appends the items [B]. *)
Lemma run_for_flush var B err (xs : list V) (f : frame V) :
  run_for (run_block (exec_stmt d) (flush_stmts B)) var err xs f
  = ('(ss, L) ← for_output var B xs (locals f);
     match err with
     | Some e => Raise e
     | None => Ok (Normal (Frame L (result f ++ ss)))
     end).
Proof.
  revert f. induction xs as [|x xs IH]; intros f.
  - cbn. rewrite app_nil_r. destruct f, err; reflexivity.
  - cbn [run_for for_output].
    change (run_block (exec_stmt d) (flush_stmts B) (bind_local var x f))
      with (exec_block d (flush_stmts B) (bind_local var x f)).
    rewrite flush_run.
    rewrite (eval_items_locals (bind_local var x f)
               (Frame (<[var := x]> (locals f)) []) B eq_refl).
    destruct (eval_items (Frame (<[var := x]> (locals f)) []) B) as [ss|e|];
      cbn [mbind outcome_bind]; [|reflexivity..].
    rewrite IH. cbn [locals emit bind_local result].
    destruct (for_output var B xs (<[var := x]> (locals f))) as [[rest L]|e|];
      cbn [mbind outcome_bind]; [|reflexivity..].
    rewrite <- app_assoc. reflexivity.
Qed.

(** The statements of a [for] block, on an empty result. *)
Lemma run_for_block (f : frame V) P var e B Q :
  result f = [] ->
  exec_block d (block_stmts P (SFor var e) B Q) f
  = (ss1 ← eval_items f P;
     it ← eval f e;
     '(ss2, L) ← for_output var B (fst (iterate it)) (locals f);
     match snd (iterate it) with
     | Some err => Raise err
     | None =>
         ss3 ← eval_items (Frame L []) Q;
         Ok (Returned (PyStr.join EmptyString (ss1 ++ ss2 ++ ss3)))
     end).
Proof.
  intros Hres. unfold block_stmts.
  rewrite exec_block_app, flush_run.
  destruct (eval_items f P) as [ss1|err|]; cbn [mbind outcome_bind]; [|reflexivity..].
  cbn [app]. rewrite exec_block_cons. cbn [exec_stmt].
  rewrite (eval_locals (emit ss1 f) f e eq_refl).
  destruct (eval f e) as [it|err|]; cbn [mbind outcome_bind]; [|reflexivity..].
  rewrite run_for_flush. cbn [locals emit result].
  destruct (for_output var B (fst (iterate it)) (locals f)) as [[ss2 L]|err|];
    cbn [mbind outcome_bind]; [|reflexivity..].
  destruct (snd (iterate it)) as [err|]; cbn [mbind outcome_bind]; [reflexivity|].
  rewrite exec_block_app, flush_run.
  match goal with
  | |- context [eval_items ?g Q] =>
      rewrite (eval_items_locals g (Frame L []) Q eq_refl)
  end.
  destruct (eval_items (Frame L []) Q) as [ss3|err|]; cbn [mbind outcome_bind];
    [|reflexivity..].
  cbn. rewrite Hres, <- !app_assoc. reflexivity.
Qed.

End WithHost.

End BlockFacts.

Module OneBlock.
Import PyStr Gen Tokenizer Compile Spec Vocabulary Host Exec ExprFacts CompileFacts
       ShapeFacts ExecFacts ParseFacts RunFacts FlatFacts FlatResults BufferFacts BlockFacts.

Lemma expr_of_names_ok expr n :
  expr_ok (expr_of expr) = true -> n ∈ names_of expr -> ident_ok n = true.
Proof.
  intros He Hn. apply (expr_ok_reads _ He). apply reads_expr_of. exact Hn.
Qed.

Lemma for_line_ok var e :
  ident_ok var = true -> expr_ok e = true -> line_ok (LFor var e) = true.
Proof.
  intros Hv He. unfold line_ok. cbn [line_verdict].
  rewrite is_fine_worse. apply andb_true_iff. split; [|exact He].
  apply is_fine_true, hole_fine, Hv.
Qed.

Lemma items_ok_split P B Q :
  forallb item_ok (P ++ B ++ Q) = true ->
  forallb item_ok P = true /\ forallb item_ok B = true /\ forallb item_ok Q = true.
Proof.
  rewrite !forallb_app, !andb_true_iff. tauto.
Qed.

(** X9. A template with one [if] block, whose body has a text or an
    output tag, whose names are made of letters, digits and underscores
    and whose expressions are within the limits of the model, compiles to
    a function that loads every name of the template; when the context
    has them all, rendering gives what is
    before the block, then the body if the value of the condition is
    true and nothing if it is false, then what is after the block, each
    part being the texts and the strings of the expressions in order.  A
    failure of an expression, of the condition or of its truth value is
    the failure of the rendering. *)
Theorem X9_if_block_renders_by_truth
    (template : string) (pre : list string) (opening cond : string)
    (body : list string) (closing : string) (post : list string) :
  _tokenize template = one_block pre opening body closing post ->
  flat pre -> flat body -> flat post ->
  classify opening = Action -> words_of opening = ["if"; cond] ->
  classify closing = Action -> words_of closing = ["endif"] ->
  flat_items body <> [] ->
  expr_ok (expr_of cond) = true ->
  forallb item_ok (flat_items pre ++ flat_items body ++ flat_items post) = true ->
  let names := flat_names pre ∪ names_of cond ∪ flat_names body ∪ flat_names post in
  exists fn,
    Template.compile template = Ok (names, ∅, fn) /\
    forall (V : Type) (ops : Ops V) (d : gmap string V),
      (forall n, n ∈ names -> is_Some (d !! n)) ->
      call_render_function d fn
      = (ss1 ← eval_items (Frame d []) (flat_items pre);
         c ← eval (Frame d []) (expr_of cond);
         b ← truth c;
         ss2 ← (if b : bool then eval_items (Frame d []) (flat_items body) else Ok []);
         ss3 ← eval_items (Frame d []) (flat_items post);
         Ok (PyStr.join EmptyString (ss1 ++ ss2 ++ ss3))).
Proof.
  intros Htok Hpre Hbody Hpost Hco Hwo Hcc Hwc HB He Hok names.
  apply items_ok_split in Hok as (HP & HBok & HQ).
  pose proof (compile_one_block template pre opening body closing post false
                (names_of cond) ∅ (LIf (expr_of cond)) (SIf (expr_of cond))
                Htok Hpre Hbody Hpost) as Hc.
  cbv zeta in Hc. fold names in Hc.
  rewrite Hc; [|intros; rewrite union_empty_l_L; apply step_open_if; assumption
               |exact Hcc|exact Hwc|reflexivity|exact He
               |intros n Hn; eapply expr_of_names_ok; eassumption
               |exact HP|exact HBok|exact HB|exact HQ].
  clear Hc. destruct (flat_items body) as [|x B] eqn:EB; [contradiction|].
  eexists. split; [reflexivity|]. intros V ops d Hall.
  rewrite call_loaded by (intros n Hn; apply Hall; set_solver).
  rewrite run_if_block by reflexivity.
  assert (Hag : forall n, n ∈ names ->
                          locals (loaded (names ∖ ∅) d) !! n = locals (Frame d []) !! n).
  { intros n Hn. rewrite loaded_lookup. destruct (decide (n ∈ names ∖ ∅)) as [_|Hno];
      [reflexivity|]. exfalso. apply Hno. set_solver. }
  rewrite (eval_items_agree (loaded (names ∖ ∅) d) (Frame d []) (flat_items pre))
    by (intros y n Hy Hn; apply Hag; unfold names;
        pose proof (flat_items_reads pre y n Hy Hn); set_solver).
  rewrite (eval_agree (loaded (names ∖ ∅) d) (Frame d []) (expr_of cond))
    by (intros n Hn; apply Hag; unfold names; apply reads_expr_of in Hn; set_solver).
  rewrite (eval_items_agree (loaded (names ∖ ∅) d) (Frame d []) (x :: B))
    by (intros y n Hy Hn; apply Hag; unfold names; rewrite <- EB in Hy;
        pose proof (flat_items_reads body y n Hy Hn); set_solver).
  rewrite (eval_items_agree (loaded (names ∖ ∅) d) (Frame d []) (flat_items post))
    by (intros y n Hy Hn; apply Hag; unfold names;
        pose proof (flat_items_reads post y n Hy Hn); set_solver).
  destruct (eval_items (Frame d []) (flat_items pre)) as [ss1|e|];
    cbn [mbind outcome_bind]; [|reflexivity..].
  destruct (eval (Frame d []) (expr_of cond)) as [c|e|];
    cbn [mbind outcome_bind]; [|reflexivity..].
  destruct (truth c) as [b|e|]; cbn [mbind outcome_bind]; [|reflexivity..].
  destruct (if b then eval_items (Frame d []) (x :: B) else Ok []) as [ss2|e|];
    cbn [mbind outcome_bind]; [|reflexivity..].
  destruct (eval_items (Frame d []) (flat_items post)) as [ss3|e|]; reflexivity.
Qed.

(** X10. A template with one [for] block, whose body has a text or an
    output tag, whose names are made of letters, digits and underscores
    and whose expressions are within the limits of the model, compiles to
    a function that loads every name of the template but the loop
    variable; when the context has them, rendering
    gives what is before the block, then the body once for each value of
    the sequence in order, with the loop variable bound to that value,
    then what is after the block, evaluated on the locals as the last
    turn leaves them.  An entry of the context under the name of the loop
    variable is never read. *)
Theorem X10_for_block_renders_each_item
    (template : string) (pre : list string) (opening var seq : string)
    (body : list string) (closing : string) (post : list string) :
  _tokenize template = one_block pre opening body closing post ->
  flat pre -> flat body -> flat post ->
  classify opening = Action -> words_of opening = ["for"; var; "in"; seq] ->
  classify closing = Action -> words_of closing = ["endfor"] ->
  flat_items body <> [] ->
  ident_ok var = true -> expr_ok (expr_of seq) = true ->
  forallb item_ok (flat_items pre ++ flat_items body ++ flat_items post) = true ->
  let names := flat_names pre ∪ names_of seq ∪ flat_names body ∪ flat_names post in
  exists fn,
    Template.compile template = Ok (names, {[var]}, fn) /\
    forall (V : Type) (ops : Ops V) (d : gmap string V),
      (forall n, n ∈ names -> n <> var -> is_Some (d !! n)) ->
      let f0 := loaded (names ∖ {[var]}) d in
      call_render_function d fn
      = (ss1 ← eval_items f0 (flat_items pre);
         it ← eval f0 (expr_of seq);
         '(ss2, L) ← for_output var (flat_items body) (fst (iterate it)) (locals f0);
         match snd (iterate it) with
         | Some err => Raise err
         | None =>
             ss3 ← eval_items (Frame L []) (flat_items post);
             Ok (PyStr.join EmptyString (ss1 ++ ss2 ++ ss3))
         end).
Proof.
  intros Htok Hpre Hbody Hpost Hco Hwo Hcc Hwc HB Hv He Hok names.
  apply items_ok_split in Hok as (HP & HBok & HQ).
  pose proof (compile_one_block template pre opening body closing post true
                (names_of seq) {[var]} (LFor var (expr_of seq)) (SFor var (expr_of seq))
                Htok Hpre Hbody Hpost) as Hc.
  cbv zeta in Hc. fold names in Hc.
  rewrite Hc; [|intros; apply step_open_for; assumption
               |exact Hcc|exact Hwc|reflexivity
               |apply for_line_ok; assumption
               |intros n Hn; eapply expr_of_names_ok; eassumption
               |exact HP|exact HBok|exact HB|exact HQ].
  clear Hc. destruct (flat_items body) as [|x B] eqn:EB; [contradiction|].
  eexists. split; [reflexivity|]. intros V ops d Hall f0.
  rewrite call_loaded by (intros n Hn; apply Hall; set_solver).
  rewrite run_for_block by reflexivity. fold f0.
  destruct (eval_items f0 (flat_items pre)) as [ss1|e|];
    cbn [mbind outcome_bind]; [|reflexivity..].
  destruct (eval f0 (expr_of seq)) as [it|e|]; cbn [mbind outcome_bind]; [|reflexivity..].
  destruct (for_output var (x :: B) (fst (iterate it)) (locals f0)) as [[ss2 L]|e|];
    cbn [mbind outcome_bind]; [|reflexivity..].
  destruct (snd (iterate it)) as [err|]; [reflexivity|].
  destruct (eval_items (Frame L []) (flat_items post)) as [ss3|e|]; reflexivity.
Qed.


End OneBlock.

(** ** Tags that are not closed *)

Module UnclosedTags.
Import PyStr Gen Tokenizer TokenizerFacts Compile Spec Vocabulary ExprFacts
       CompileFacts FlatFacts.

Lemma find_close_no_brace c1 s :
  contains_char "}" s = false -> find_close c1 "}" s = None.
Proof.
  induction s as [|a r IH]; [reflexivity|]. intros Hc. cbn [contains_char] in Hc.
  destruct (Ascii.eqb a "}") eqn:Ea; [discriminate|].
  cbn [find_close]. destruct r as [|b r']; [reflexivity|].
  assert (Hb : Ascii.eqb b "}" = false).
  { cbn [contains_char] in Hc. destruct (Ascii.eqb b "}"); [discriminate|reflexivity]. }
  rewrite Hb, andb_false_r, (IH Hc). reflexivity.
Qed.

Lemma contains_char_tail c a r :
  contains_char c (String a r) = false -> contains_char c r = false.
Proof. cbn [contains_char]. destruct (Ascii.eqb a c); [discriminate|auto]. Qed.

Lemma match_tag_no_brace s :
  contains_char "}" s = false -> match_tag s = None.
Proof.
  intros Hc. unfold match_tag. destruct s as [|o [|x body]]; try reflexivity.
  destruct (Ascii.eqb o "{"); [|reflexivity].
  destruct (closer_of x) as [[c1 c2]|] eqn:Ex; [|reflexivity].
  assert (c2 = "}"%char) as -> by (destruct (closer_of_cases _ _ _ Ex) as [H|[H|H]]; apply H).
  rewrite find_close_no_brace; [reflexivity|].
  apply contains_char_tail in Hc. apply contains_char_tail in Hc. exact Hc.
Qed.

Lemma split_loop_no_brace fuel s :
  contains_char "}" s = false -> split_loop fuel s = [s].
Proof.
  revert s. induction fuel as [|fuel IH]; intros s Hc; [reflexivity|].
  cbn [split_loop]. rewrite (match_tag_no_brace _ Hc).
  destruct s as [|a r]; [reflexivity|].
  rewrite (IH _ (contains_char_tail _ _ _ Hc)). reflexivity.
Qed.

Lemma startswith_second s (x y : ascii) :
  x <> y ->
  startswith s (String "{" (String x EmptyString)) = true ->
  startswith s (String "{" (String y EmptyString)) = false.
Proof.
  intros Hxy. destruct s as [|a [|b r]]; cbn [startswith]; try discriminate.
  - rewrite andb_false_r. discriminate.
  - rewrite !andb_true_r. intros Hs. apply andb_true_iff in Hs as [_ Hb].
    apply Ascii.eqb_eq in Hb as <-.
    apply andb_false_iff. right. apply Ascii.eqb_neq. congruence.
Qed.

(** X12. An opening delimiter that is never closed is no error.  A
    template without the character [}] is one token, whatever openers it
    has.  When it begins with [{#] it is a comment and compiles like the
    empty template; when it begins with [{{] it is taken for an output
    tag whose expression is the text without its first two and its last
    two characters; when it begins with [{%] it is taken for an action
    tag whose words are those of the text so cut. *)
Theorem X12_unclosed_tag_is_one_token (template : string) :
  contains_char "}" template = false ->
  _tokenize template = [template] /\
  (startswith template "{#" = true ->
   Template.compile template = Template.compile EmptyString) /\
  (startswith template "{{" = true ->
   loop (_tokenize template) start
   = Ok (state_of (names_of (strip (inner template))) ∅ [] 4
           [IToStr (expr_of (strip (inner template)))] [])) /\
  (startswith template "{%" = true ->
   build template
   = (s ← action template (words_of template) start; finish s)).
Proof.
  intros Hc.
  assert (Ht : _tokenize template = [template]) by (apply split_loop_no_brace, Hc).
  split; [exact Ht|]. split; [|split]; intros Hs.
  - unfold Template.compile, build. rewrite Ht. cbn [loop]. unfold step at 1, classify.
    rewrite Hs. reflexivity.
  - rewrite Ht, start_state.
    assert (Hk : classify template = Output).
    { unfold classify. rewrite (startswith_second template "{" "#") by (congruence || exact Hs).
      rewrite Hs. reflexivity. }
    rewrite (loop_flat [template]) by (constructor; [congruence|constructor]).
    cbn [flat_names flat_items]. rewrite Hk. f_equal. unfold state_of. f_equal.
    set_solver.
  - unfold build. rewrite Ht. cbn [loop]. unfold step, classify.
    rewrite (startswith_second template "%" "#") by (congruence || exact Hs).
    rewrite (startswith_second template "%" "{") by (congruence || exact Hs).
    rewrite Hs. change (flush_output start) with start. unfold words_of.
    destruct (action template _ start) as [s|e|]; reflexivity.
Qed.

End UnclosedTags.

(** ** The builder *)

Module BuilderMore.
Import PyStr Gen Vocabulary Exec ShapeFacts FlatFacts.

Lemma apply_ops_code ops b :
  CodeBuilder.code (apply_ops ops b)
  = CodeBuilder.code b ++ to_entries (op_lines (CodeBuilder.indent_level b) ops) /\
  CodeBuilder.indent_level (apply_ops ops b) = op_level (CodeBuilder.indent_level b) ops.
Proof.
  revert b. induction ops as [|o ops IH]; intros b.
  - cbn. rewrite app_nil_r. split; reflexivity.
  - unfold apply_ops in *. cbn [foldl]. destruct (IH (apply_op o b)) as [Hc Hl].
    rewrite Hc, Hl. destruct o; cbn [apply_op op_lines op_level CodeBuilder.add_line
      CodeBuilder.indent CodeBuilder.dedent CodeBuilder.code CodeBuilder.indent_level];
      unfold CodeBuilder.INDENT_STEP; split; try reflexivity.
    rewrite <- app_assoc. reflexivity.
Qed.

Lemma concat_app (l1 l2 : list string) :
  String.concat EmptyString (l1 ++ l2)
  = String.concat EmptyString l1 +:+ String.concat EmptyString l2.
Proof.
  induction l1 as [|s l1 IH]; [reflexivity|].
  rewrite <- app_comm_cons, !PyStrFacts.concat_cons, IH. symmetry.
  apply PyStrFacts.app_assoc.
Qed.

Lemma show_lines_app a b :
  CodeBuilder.show_lines (a ++ b) = CodeBuilder.show_lines a +:+ CodeBuilder.show_lines b.
Proof. unfold CodeBuilder.show_lines, join. rewrite fmap_app. apply concat_app. Qed.

(** X13. The lines of a builder are those of its [add_line] calls in
    order, each at the indentation that the calls of [indent] and
    [dedent] before it had reached; the lines of the section made by
    [add_section] stand where the section was made, at the indentation of
    that moment, whenever they are added and whatever the builder does
    afterwards; the text is the texts of these three runs of lines one
    after the other; and [get_globals] asserts that the builder itself,
    not the section, is back at indentation zero. *)
Theorem X13_section_lines_stand_in_place
    (level : Z) (before loads after : list builder_op) :
  let b := apply_ops before (CodeBuilder.init level) in
  let b1 := fst (CodeBuilder.add_section b) in
  let section := snd (CodeBuilder.add_section b) in
  let b2 := apply_ops after b1 in
  let section2 := apply_ops loads section in
  let at_section := op_level level before in
  CodeBuilder.lines b2 section2
  = op_lines level before ++ op_lines at_section loads ++ op_lines at_section after /\
  CodeBuilder.str b2 section2
  = CodeBuilder.show_lines (op_lines level before)
      +:+ CodeBuilder.show_lines (op_lines at_section loads)
      +:+ CodeBuilder.show_lines (op_lines at_section after) /\
  CodeBuilder.indent_level b2 = op_level at_section after /\
  (op_level at_section after <> 0 ->
   get_globals b2 section2 = Raise (Exn AssertionError EmptyString)).
Proof.
  intros b b1 section b2 section2 at_section.
  destruct (apply_ops_code before (CodeBuilder.init level)) as [Hbc Hbl].
  destruct (apply_ops_code after b1) as [Hac Hal].
  destruct (apply_ops_code loads section) as [Hsc Hsl].
  fold b in Hbc, Hbl. fold b2 in Hac, Hal. fold section2 in Hsc, Hsl.
  cbn [CodeBuilder.init CodeBuilder.code CodeBuilder.indent_level] in Hbc, Hbl.
  assert (Hb1 : CodeBuilder.code b1 = to_entries (op_lines level before) ++ [CodeBuilder.Section]
                /\ CodeBuilder.indent_level b1 = at_section).
  { unfold b1, CodeBuilder.add_section. cbn [fst CodeBuilder.code CodeBuilder.indent_level].
    rewrite Hbc, Hbl. split; reflexivity. }
  destruct Hb1 as [Hb1c Hb1l].
  assert (Hs0 : CodeBuilder.code section = [] /\ CodeBuilder.indent_level section = at_section).
  { unfold section, CodeBuilder.add_section, CodeBuilder.init.
    cbn [snd CodeBuilder.code CodeBuilder.indent_level]. rewrite Hbl. split; reflexivity. }
  destruct Hs0 as [Hs0c Hs0l].
  rewrite Hb1c, Hb1l in Hac. rewrite Hb1l in Hal. rewrite Hs0c, Hs0l in Hsc.
  assert (Hlines : CodeBuilder.lines b2 section2
                   = op_lines level before ++ op_lines at_section loads
                       ++ op_lines at_section after).
  { unfold CodeBuilder.lines. rewrite Hac, Hsc. cbn [app].
    rewrite !lines_of_app, !lines_of_entries. cbn [CodeBuilder.lines_of].
    rewrite app_nil_r, <- app_assoc. reflexivity. }
  split; [exact Hlines|]. split; [|split].
  - unfold CodeBuilder.str. rewrite Hlines, !show_lines_app. reflexivity.
  - exact Hal.
  - intros Hne. unfold get_globals. rewrite Hal.
    destruct (Z.eqb_spec (op_level at_section after) 0) as [He|_]; [contradiction|].
    reflexivity.
Qed.

End BuilderMore.

(** ** The further properties at particular inputs *)

Module MoreWitnesses.
Import PyStr Gen Tokenizer Compile Spec Vocabulary Host Exec PyVal Samples.

Lemma X2_witness :
  _tokenize "a{{ x }} b }}" = ["a"; "{{ x }}"; " b }}"] /\
  match_tag (drop 1 "a{{ x }} b }}") = Some ("{{ x }}", " b }}").
Proof.
  split; [reflexivity|].
  exact (proj1 (proj2 (proj2 (TokenizerMore.X2_tokenize_leftmost_shortest
                                "a{{ x }} b }}" "a" "{{ x }}" [" b }}"] eq_refl)))).
Defined.

Lemma X3_witness :
  Forall2 (fun c dc => two_dicts !! c = Some dc) [1%positive; 2%positive]
    [{[ "punct" := PStr "!" ]}; {[ "name" := PStr "bob" ]}] /\
  snd (Template.__init__ "yolo" [1%positive; 2%positive] two_dicts)
  = <[fresh (dom two_dicts) :=
        foldl (fun acc dc => dc ∪ acc) ∅
          [{[ "punct" := PStr "!" ]}; {[ "name" := PStr "bob" ]}]]> two_dicts.
Proof.
  assert (H2 : Forall2 (fun c dc => two_dicts !! c = Some dc) [1%positive; 2%positive]
                 [{[ "punct" := PStr "!" ]}; {[ "name" := PStr "bob" ]}])
    by (repeat constructor).
  split; [exact H2|].
  exact (proj1 (proj2 (StoredContext.X3_default_contexts_merged
                         "yolo" [1%positive; 2%positive] _ two_dicts H2))).
Defined.

Lemma X5_witness :
  List.filter significant (_tokenize "a{# c #}{{ x }}")
    = List.filter significant (_tokenize "a{{ x }}") /\
  Template.compile "a{# c #}{{ x }}" = Template.compile "a{{ x }}".
Proof.
  split; [reflexivity|].
  exact (proj2 (SilentTokens.X5_comments_leave_no_trace
                  "a{# c #}{{ x }}" "a{{ x }}" eq_refl)).
Defined.

Lemma X8_witness :
  flat (_tokenize "Hi {{ name }}!") /\
  exists fn,
    Template.compile "Hi {{ name }}!" = Ok (flat_names (_tokenize "Hi {{ name }}!"), ∅, fn).
Proof.
  assert (Hf : flat (_tokenize "Hi {{ name }}!")) by (repeat constructor; discriminate).
  split; [exact Hf|].
  destruct (FlatResults.X8_flat_template_renders_in_order "Hi {{ name }}!" Hf eq_refl)
    as (fn & Hc & _).
  exists fn. exact Hc.
Defined.

Lemma X9_witness :
  _tokenize "a{% if x %}b{% endif %}c"
  = one_block ["a"] "{% if x %}" ["b"] "{% endif %}" ["c"] /\
  exists fn,
    Template.compile "a{% if x %}b{% endif %}c"
    = Ok (flat_names ["a"] ∪ names_of "x" ∪ flat_names ["b"] ∪ flat_names ["c"], ∅, fn).
Proof.
  split; [reflexivity|].
  destruct (OneBlock.X9_if_block_renders_by_truth
              "a{% if x %}b{% endif %}c" ["a"] "{% if x %}" "x" ["b"] "{% endif %}" ["c"]
              eq_refl
              ltac:(repeat constructor; discriminate)
              ltac:(repeat constructor; discriminate)
              ltac:(repeat constructor; discriminate)
              eq_refl eq_refl eq_refl eq_refl ltac:(discriminate) eq_refl eq_refl)
    as (fn & Hc & _).
  exists fn. exact Hc.
Defined.

Lemma X10_witness :
  _tokenize "{% for i in xs %}{{ i }}{% endfor %}"
  = one_block [""] "{% for i in xs %}" [""; "{{ i }}"; ""] "{% endfor %}" [""] /\
  exists fn,
    Template.compile "{% for i in xs %}{{ i }}{% endfor %}"
    = Ok (flat_names [""] ∪ names_of "xs" ∪ flat_names [""; "{{ i }}"; ""] ∪ flat_names [""],
          {["i"]}, fn).
Proof.
  split; [reflexivity|].
  destruct (OneBlock.X10_for_block_renders_each_item
              "{% for i in xs %}{{ i }}{% endfor %}" [""] "{% for i in xs %}" "i" "xs"
              [""; "{{ i }}"; ""] "{% endfor %}" [""]
              eq_refl
              ltac:(repeat constructor; discriminate)
              ltac:(repeat constructor; discriminate)
              ltac:(repeat constructor; discriminate)
              eq_refl eq_refl eq_refl eq_refl ltac:(discriminate) eq_refl eq_refl eq_refl)
    as (fn & Hc & _).
  exists fn. exact Hc.
Defined.


Lemma X12_witness :
  contains_char "}" "{{ name" = false /\ _tokenize "{{ name" = ["{{ name"].
Proof.
  split; [reflexivity|].
  exact (proj1 (UnclosedTags.X12_unclosed_tag_is_one_token "{{ name" eq_refl)).
Defined.

End MoreWitnesses.
